(** * Alpha Oracle: signal scoring, signal merge and prediction lifecycle

  A shallow embedding of the decision logic of three Python modules:

  - [client/nansen_oracle.py]: [get_smart_money_netflow],
    [get_smart_money_dex_trades], [analyze_netflows], [analyze_dex_trades],
    [merge_signals], [main];
  - [oracle-agent/oracle.py]: [price_to_u64], [format_prediction_for_display],
    [create_prediction_tx], [verify_predictions], [get_oracle_stats],
    [process_new_signals], [main];
  - [oracle-agent/verifier.py]: [get_pyth_price], [verify_prediction],
    [process_expired_predictions], [get_verification_stats], [main].

  Python [float] is IEEE 754 binary64, which is what Rocq's primitive
  [float] is, so every arithmetic step of the source is embedded as the same
  binary64 operation and evaluates inside Rocq.  Python [int] is [Z].
  Dictionaries read with [d.get(k, default)] are records whose optional
  keys have an [option] type; insertion-ordered dictionaries used as
  accumulators are association lists.  A raised exception is [None].  The
  ledger file is threaded through the functions that load and save it: a
  function takes the content of the file and returns the content it leaves.

  What stays outside: JSON values are taken at the type the code converts
  them to (a number is a double, a count an integer, a symbol a string);
  the Hermes price endpoint and the Nansen API are inputs of the functions
  that read them, a request that raises being an answer [None]; the system
  clock is an input in nanoseconds since the epoch, from which
  [time.time()], [datetime.utcnow()], [timestamp()] and [isoformat()] are
  computed as CPython does, the zone of the machine being a fixed offset
  from UTC; of a text that is only printed, what is kept is whether
  building it raises, and [print] itself is taken to succeed; [str.upper]
  and [str.lower] are the ones of ASCII strings, and the properties of
  token symbols are stated for ASCII symbols; [round] and [format] are the
  correctly rounded ones of CPython's short-float-repr build; the order
  that [list.sort] gives to NaN keys is not specified by Python and no
  property below depends on it. *)

From Stdlib Require Import ZArith List String Ascii Bool Lia Floats Uint63 Permutation.
From Stdlib Require DecimalString.
Import ListNotations.

Set Warnings "-inexact-float".

Local Open Scope string_scope.
Local Open Scope list_scope.
Local Open Scope bool_scope.
Local Open Scope Z_scope.

(* ================================================================== *)
(** ** Python's numeric primitives *)
(* ================================================================== *)

Module Py.

(** [float(z)] for an integer below 2^63 in magnitude (every integer below
    2^53 is converted exactly). *)
Definition Z2f (z : Z) : float :=
  match z with
  | Z0 => 0%float
  | Zpos _ => of_uint63 (Uint63.of_Z z)
  | Zneg p => (- of_uint63 (Uint63.of_Z (Zpos p)))%float
  end.

(** [float(z)] for any [int], as the coercion of an [int] operand in mixed
    arithmetic does it: rounded to nearest, [None] for the [OverflowError]
    of an integer beyond the range of a double. *)
Definition float_of_int (z : Z) : option float :=
  match binary_normalize prec emax z 0 false with
  | S754_infinity _ => None
  | sf => Some (SF2Prim sf)
  end.

(** The quotient [a / b] of two positive integers rounded once, to nearest
    and ties to even, into binary64: the digit-recurrence of the standard
    library's float specification, run on integer mantissas. *)
Definition SF_ratio (s : bool) (a b : positive) : spec_float :=
  let '(q, e, l) := SFdiv_core_binary prec emax (Zpos a) 0 (Zpos b) 0 in
  binary_round_aux prec emax s q e l.

Definition Zsign_bit (z : Z) : bool :=
  match z with Zneg _ => true | _ => false end.

(** The smallest magnitude that rounds to 2^1024, which no double holds:
    half a unit in the last place below it. *)
Definition overflow_threshold : Z := 2 ^ 1024 - 2 ^ 970.

(** [a / b] on two [int]s (true division): the exact quotient rounded once
    to the nearest double.  [None] is [ZeroDivisionError], or the
    [OverflowError] raised when the rounded quotient is beyond the largest
    double. *)
Definition int_true_div (a b : Z) : option float :=
  match b with
  | Z0 => None
  | _ =>
    if overflow_threshold * Z.abs b <=? Z.abs a then None
    else
      match a with
      | Z0 => Some (if Zsign_bit b then (-0)%float else 0%float)
      | _ =>
        Some (SF2Prim (SF_ratio (xorb (Zsign_bit a) (Zsign_bit b))
                                (Z.to_pos (Z.abs a)) (Z.to_pos (Z.abs b))))
      end
  end.

(** [int(f)]: truncation toward zero; [None] is the [ValueError] raised on
    a NaN or the [OverflowError] raised on an infinity. *)
Definition py_int (f : float) : option Z :=
  match Prim2SF f with
  | S754_zero _ => Some 0
  | S754_finite s m e =>
      let a := Z.shiftl (Zpos m) e in
      Some (if s then - a else a)
  | S754_infinity _ | S754_nan => None
  end.

(** Truthiness of a float: [bool(f)] is [f != 0.0]. *)
Definition truthy (f : float) : bool := negb (f =? 0)%float.

(** [float(v or 0)] for an optional JSON number: a missing key, [null] and
    a zero all give [0.0]. *)
Definition float_or_0 (v : option float) : float :=
  match v with
  | Some f => if truthy f then f else 0%float
  | None => 0%float
  end.

(** [int(v or 0)] for an optional JSON integer. *)
Definition int_or_0 (v : option Z) : Z :=
  match v with Some z => z | None => 0 end.

(** [min(a, b)] and [max(a, b)] return their first argument unless the
    second one compares strictly better. *)
Definition py_min (a b : float) : float := if (b <? a)%float then b else a.
Definition py_max (a b : float) : float := if (a <? b)%float then b else a.

Definition gtb (a b : float) : bool := (b <? a)%float.
Definition geb (a b : float) : bool := (b <=? a)%float.
Definition neb (a b : float) : bool := negb (a =? b)%float.

(** Nearest integer to [n / d], ties to the even one ([n >= 0], [d > 0]). *)
Definition div_half_even (n d : Z) : Z :=
  let q := n / d in
  let r := n mod d in
  match (2 * r ?= d) with
  | Lt => q
  | Gt => q + 1
  | Eq => if Z.even q then q else q + 1
  end.

(** [round(x, ndigits)] for [ndigits >= 0]: the exact binary value of [x]
    is rounded half-even to [ndigits] decimals, and that decimal is
    converted back to the nearest double.  NaN, infinities and zeros
    round to themselves. *)
Definition py_round (x : float) (ndigits : nat) : float :=
  match Prim2SF x with
  | S754_finite s m e =>
      let p := 10 ^ Z.of_nat ndigits in
      let k := match e with
               | Zneg sh => div_half_even (Zpos m * p) (2 ^ Zpos sh)
               | _ => Zpos m * 2 ^ e * p
               end in
      match k with
      | Zpos kp => SF2Prim (SF_ratio s kp (Z.to_pos p))
      | _ => if s then (-0)%float else 0%float
      end
  | _ => x
  end.

(** A number that is either an [int] or a [float]. *)
Inductive Number :=
| Int (z : Z)
| Float (f : float).

(** [str(n)] for a non-negative [int]. *)
Definition decimal (n : Z) : string :=
  DecimalString.NilZero.string_of_uint (N.to_uint (Z.to_N n)).

(** [format(x, ".1f")] on a float: the exact binary value rounded half-even
    to one decimal, with the sign of [x] kept on a zero result. *)
Definition format_1f (x : float) : string :=
  match Prim2SF x with
  | S754_nan => "nan"
  | S754_infinity s => if s then "-inf" else "inf"
  | S754_zero s => if s then "-0.0" else "0.0"
  | S754_finite s m e =>
      let k := match e with
               | Zneg sh => div_half_even (Zpos m * 10) (2 ^ Zpos sh)
               | _ => Zpos m * 2 ^ e * 10
               end in
      (if s then "-" else "") ++ decimal (k / 10) ++ "." ++ decimal (k mod 10)
  end.

(** [format(n, ".1f")] on a number: an [int] is converted to a float
    first; [None] is the [OverflowError] of that conversion. *)
Definition format_number_1f (n : Number) : option string :=
  match n with
  | Float f => Some (format_1f f)
  | Int z =>
      match float_of_int z with
      | Some f => Some (format_1f f)
      | None => None
      end
  end.

(** [time.time()] when the system clock reads [ns] nanoseconds since the
    epoch: a whole number of seconds is converted as such, any other
    reading is converted and then divided by 10^9. *)
Definition time_time (ns : Z) : float :=
  if ns mod 1000000000 =? 0 then Z2f (ns / 1000000000)
  else (Z2f ns / 1000000000)%float.

(** [datetime.utcnow()] at that reading: the UTC wall clock, as the whole
    seconds since the epoch and the microseconds, rounded down. *)
Definition utcnow (ns : Z) : Z * Z :=
  (ns / 1000000000, ns mod 1000000000 / 1000).

(** [d.timestamp()] on a naive datetime [d]: its fields are read as local
    time.  [utc_offset] is the number of seconds by which the local zone is
    ahead of UTC at that wall time, 0 on a machine whose zone is UTC. *)
Definition timestamp (utc_offset : Z) (d : Z * Z) : float :=
  (Z2f (fst d - utc_offset) + Z2f (snd d) / 1000000)%float.

(** The civil date of a day number counted from 1970-01-01. *)
Definition civil_from_days (days : Z) : Z * Z * Z :=
  let z := days + 719468 in
  let era := z / 146097 in
  let doe := z - era * 146097 in
  let yoe := (doe - doe / 1460 + doe / 36524 - doe / 146096) / 365 in
  let doy := doe - (365 * yoe + yoe / 4 - yoe / 100) in
  let mp := (5 * doy + 2) / 153 in
  let d := doy - (153 * mp + 2) / 5 + 1 in
  let m := if mp <? 10 then mp + 3 else mp - 9 in
  ((if m <=? 2 then yoe + era * 400 + 1 else yoe + era * 400), m, d).

Fixpoint zeros (n : nat) : string :=
  match n with
  | O => ""
  | S k => String "0" (zeros k)
  end.

(** [format(n, "0wd")] for a non-negative [int]. *)
Definition zero_padded (w : nat) (n : Z) : string :=
  zeros (w - String.length (decimal n)) ++ decimal n.

(** [d.isoformat()] on a naive datetime at or after the epoch. *)
Definition isoformat (d : Z * Z) : string :=
  let '(y, m, dd) := civil_from_days (fst d / 86400) in
  let rem := fst d mod 86400 in
  zero_padded 4 y ++ "-" ++ zero_padded 2 m ++ "-" ++ zero_padded 2 dd ++ "T"
  ++ zero_padded 2 (rem / 3600) ++ ":" ++ zero_padded 2 (rem mod 3600 / 60) ++ ":"
  ++ zero_padded 2 (rem mod 60)
  ++ (if snd d =? 0 then "" else "." ++ zero_padded 6 (snd d)).

End Py.

(* ================================================================== *)
(** ** The prediction ledger shared by [oracle.py] and [verifier.py] *)
(* ================================================================== *)

(** An actionable signal, as read by [create_prediction_tx]: the keys
    [symbol] and [price] are indexed (they must be present), the other keys
    are read with [.get]. *)
Record Signal := mkSignal {
  sig_symbol : string;
  sig_signal : option Z;
  sig_price : float;
  sig_take_profit_price : option float;
  sig_stop_loss_price : option float
}.

(** One entry of [predictions.json].  The keys that [verify_prediction]
    reads with a default are optional; [result_price] and [verified_at] are
    absent until a verification writes them. *)
Record Prediction := mkPrediction {
  asset : string;
  direction : option string;
  entry_price : option Z;
  take_profit : option Z;
  stop_loss : option Z;
  timeframe_hours : Z;
  created_at : string;
  expires_at : float;
  status : string;
  original_signal : option Signal;
  local_id : Z;
  result_price : option Z;
  verified_at : option string
}.

Definition set_status (p : Prediction) (s : string) : Prediction :=
  mkPrediction (asset p) (direction p) (entry_price p) (take_profit p)
    (stop_loss p) (timeframe_hours p) (created_at p) (expires_at p) s
    (original_signal p) (local_id p) (result_price p) (verified_at p).

Definition set_verified (p : Prediction) (s : string) (price : Z) (at_ : string)
  : Prediction :=
  mkPrediction (asset p) (direction p) (entry_price p) (take_profit p)
    (stop_loss p) (timeframe_hours p) (created_at p) (expires_at p) s
    (original_signal p) (local_id p) (Some price) (Some at_).

(** The number of records with the status [s]. *)
Definition count_status (s : string) (predictions : list Prediction) : Z :=
  Z.of_nat (List.length (filter (fun p => String.eqb (status p) s) predictions)).

(** What the statistics functions read of a ledger file: for each record
    the value under its ["status"] key, [None] for a record without that
    key.  (A value that is no string equals no status, as a string that
    is none of them does.)  [create_prediction_tx] writes the key and the
    scans keep it, so every record of [Prediction] has it. *)
Definition status_keys (predictions : list Prediction) : list (option string) :=
  map (fun p => Some (status p)) predictions.

(** [p.get("status") == s]: a record without the key has no status. *)
Definition key_is (s : string) (key : option string) : bool :=
  match key with
  | Some v => String.eqb v s
  | None => false
  end.

(** [sum(1 for p in predictions if p.get("status") == s)]. *)
Definition count_key (s : string) (keys : list (option string)) : Z :=
  Z.of_nat (List.length (filter (key_is s) keys)).

(** [won / (won + lost) * 100 if (won + lost) > 0 else 0], the expression
    both statistics functions evaluate; [None] when the division raises. *)
Definition win_rate_of (won lost : Z) : option Py.Number :=
  if won + lost >? 0 then
    match Py.int_true_div won (won + lost) with
    | Some q => Some (Py.Float (q * 100)%float)
    | None => None
    end
  else Some (Py.Int 0).

(* ================================================================== *)
(** ** Insertion-ordered dictionaries with string keys *)
(* ================================================================== *)

Section Dict.
Context {V : Type}.

(** [d.get(k)]. *)
Fixpoint dict_get (k : string) (d : list (string * V)) : option V :=
  match d with
  | [] => None
  | (k', v) :: d' => if String.eqb k k' then Some v else dict_get k d'
  end.

(** [d[k] = f(d[k])] on a key that is present: the entry keeps its place. *)
Fixpoint dict_modify (k : string) (f : V -> V) (d : list (string * V))
  : list (string * V) :=
  match d with
  | [] => []
  | (k', v) :: d' =>
      if String.eqb k k' then (k', f v) :: d' else (k', v) :: dict_modify k f d'
  end.

(** [if k not in d: d[k] = fresh] followed by [d[k] = f(d[k])]: a new key
    goes to the end. *)
Definition dict_upsert (k : string) (fresh : V) (f : V -> V) (d : list (string * V))
  : list (string * V) :=
  match dict_get k d with
  | Some _ => dict_modify k f d
  | None => d ++ [(k, f fresh)]
  end.

End Dict.

(* ================================================================== *)
(** ** [oracle-agent/verifier.py] *)
(* ================================================================== *)

Module Verifier.
Import Py.

(** Pyth price feed identifiers (mainnet). *)
Definition PYTH_FEED_IDS : list (string * string) :=
  [ ("BTC", "e62df6c8b4a85fe1a67db44dc12de5db330f7ac66b72dc658afedf0f4a415b43");
    ("ETH", "ff61491a931112ddf1bd8147cd1b641375f79f5825126d665480874634fd0ace");
    ("SOL", "ef0d8b6fda2ceba41da15d4095d1da392a0d2f8ed0c6c7bc0f4cfac8c280b56d");
    ("XRP", "ec5d399846a9209f3fe5881d70aae9268c94339ff9817e8d18ff19fa05eea1c8");
    ("DOGE", "dcef50dd0a4cd2dcc17e45df1676dcb336a11a61c69df7a0299b0150c672d25c");
    ("AVAX", "93da3352f9f1d105fdfe4971cfa80e9dd777bfc5d0f683ebb6e1294b92137bb7");
    ("BNB", "2f95862b045670cd22bee3114c39763a4a08beeb663b145d283c31d7d1101c4f");
    ("ADA", "2a01deaec9e51a579277b34b122399984d0bbf57e2458a7e42fecd2829867a0d");
    ("LINK", "8ac0c70fff57e9aefdf5edf44b51d62c2d433653cbb2cf5cc06bb115af04d221");
    ("DOT", "ca3eed9315f797c08b46e47573ba63b2bcfe8b5d8ba7e32c389de8a9c8da7c43");
    ("MATIC", "5de33440f98a2f02b4dc6d2a8b26ccfa4c0e91e3cd5f63e7b2b2b7fddf4c8c4c");
    ("NEAR", "c415de8d2eba7db216527dff4b60e8f3a5311c740dadb233e13e12547e226750");
    ("APT", "03ae4db29ed4ae33d323568895aa00337e658e348b37509f5372ae51f0af00d5");
    ("SUI", "23d7315113f5b1d3ba7a83604c44b94d79f4fd69af77f804fc7f920a6dc65744");
    ("SEI", "53614f1cb0c031d4af66c04cb9c756234adad0e1cee85303795091499a4084eb");
    ("INJ", "7a5bc1d2b56ad029048cd63964b3ad2776eadf812eef1a0bef6c4e77c71cc91b");
    ("ATOM", "b00b60f88b03a6a625a8d1c048c3f66653edf217439cb2c234e3be4b78b07ac9");
    ("HYPE", "8d8d2b4b4c4f0c7c4c4f0c7c4c4f0c7c4c4f0c7c4c4f0c7c4c4f0c7c4c4f0c7c");
    ("ARB", "3fa4252848f9f0a1480be62745a4629d9eb1322aebab8a791e344b3b9c1adcf5");
    ("OP", "385f64d993f7b77d8182ed5003d97c60aa3361f3cecfe711544d2d59165e9bdf") ].

(** The Hermes endpoint is the one external collaborator: asked for a feed
    id it answers with a price, or with nothing (an HTTP error, an empty
    [parsed] list and any exception all end in [return None]). *)
Definition Hermes := string -> option float.

(** [get_pyth_price(asset)]. *)
Definition get_pyth_price (hermes : Hermes) (asset : string) : option float :=
  match dict_get asset PYTH_FEED_IDS with
  | None => None
  | Some feed_id => if String.eqb feed_id "" then None else hermes feed_id
  end.

(** [prediction.get(key, 0) / 1_000_000]. *)
Definition micro_units (v : option Z) : option float :=
  int_true_div (int_or_0 v) 1000000.

(** [verify_prediction(prediction, current_price)]; [None] is the
    [OverflowError] of a stored integer beyond the range of a double. *)
Definition verify_prediction (prediction : Prediction) (current_price : float)
  : option string :=
  let direction := match direction prediction with Some d => d | None => "LONG" end in
  match micro_units (entry_price prediction) with
  | None => None
  | Some entry =>
    match micro_units (take_profit prediction) with
    | None => None
    | Some tp =>
      match micro_units (stop_loss prediction) with
      | None => None
      | Some sl =>
        Some
          (if String.eqb direction "LONG" then
             if geb current_price tp then "won"
             else if (current_price <=? sl)%float then "lost"
             else if gtb current_price entry then "won"
             else "lost"
           else
             if (current_price <=? tp)%float then "won"
             else if geb current_price sl then "lost"
             else if (current_price <? entry)%float then "won"
             else "lost")
      end
    end
  end.

(** The clock readings of one scan: [time.time()] and
    [datetime.utcnow().isoformat()]. *)
Record Clock := mkClock { current_time : float; utcnow_iso : string }.

(** The body of the loop of [process_expired_predictions] on one record:
    the record as the loop leaves it and whether it was counted as
    verified; [None] when the body raises. *)
Definition process_prediction (hermes : Hermes) (clk : Clock) (pred : Prediction)
  : option (Prediction * bool) :=
  if negb (String.eqb (status pred) "active") then Some (pred, false)
  else if (current_time clk <? expires_at pred)%float then Some (pred, false)
  else
    match get_pyth_price hermes (asset pred) with
    | None => Some (set_status pred "needs_manual_verification", false)
    | Some current_price =>
        match verify_prediction pred current_price with
        | None => None
        | Some result =>
            match py_int (current_price * 1000000)%float with
            | None => None
            | Some micro => Some (set_verified pred result micro (utcnow_iso clk), true)
            end
        end
    end.

(** The [for pred in predictions] loop, with [verified_count]. *)
Fixpoint process_loop (hermes : Hermes) (clk : Clock) (predictions : list Prediction)
  : option (list Prediction * Z) :=
  match predictions with
  | [] => Some ([], 0)
  | pred :: rest =>
      match process_prediction hermes clk pred with
      | None => None
      | Some (pred', counted) =>
          match process_loop hermes clk rest with
          | None => None
          | Some (rest', n) => Some (pred' :: rest', if counted then n + 1 else n)
          end
      end
  end.

(** [process_expired_predictions()] on the ledger file: the ledger it
    saves and the count it returns.  [None] is an exception escaping the
    loop, in which case [save_predictions] is not reached and the file
    keeps its content. *)
Definition process_expired_predictions (hermes : Hermes) (clk : Clock)
  (ledger : list Prediction) : option (list Prediction * Z) :=
  process_loop hermes clk ledger.

(** The dictionary returned by [get_verification_stats]. *)
Record VerificationStats := mkVerificationStats {
  vs_total : Z;
  vs_active : Z;
  vs_won : Z;
  vs_lost : Z;
  vs_pending_verification : Z;
  vs_win_rate : string
}.

(** The number of records that are pending. *)
Definition count_pending (predictions : list Prediction) : Z :=
  Z.of_nat (List.length
    (filter (fun p => String.eqb (status p) "needs_verification"
                      || String.eqb (status p) "needs_manual_verification")
       predictions)).

(** [sum(1 for p in predictions if p.get("status") in
    ["needs_verification", "needs_manual_verification"])]. *)
Definition count_pending_keys (keys : list (option string)) : Z :=
  Z.of_nat (List.length
    (filter (fun k => key_is "needs_verification" k
                      || key_is "needs_manual_verification" k)
       keys)).

(** [get_verification_stats()] on a ledger file, read through the status
    keys of its records: every count reads [p.get("status")], so a record
    without the key is counted in the total only. *)
Definition get_verification_stats_keys (keys : list (option string))
  : option VerificationStats :=
  let total := Z.of_nat (List.length keys) in
  let active := count_key "active" keys in
  let won := count_key "won" keys in
  let lost := count_key "lost" keys in
  let pending := count_pending_keys keys in
  match win_rate_of won lost with
  | None => None
  | Some win_rate =>
      match format_number_1f win_rate with
      | None => None
      | Some text =>
          Some (mkVerificationStats total active won lost pending (text ++ "%"))
      end
  end.

(** [get_verification_stats()] on a ledger whose records have the key. *)
Definition get_verification_stats (predictions : list Prediction)
  : option VerificationStats :=
  get_verification_stats_keys (status_keys predictions).

(** [main()]: the ledger file after the run, and the count and the
    statistics it prints; [None] when one of the two calls raises. *)
Definition main (hermes : Hermes) (clk : Clock) (ledger : list Prediction)
  : list Prediction * option (Z * VerificationStats) :=
  match process_expired_predictions hermes clk ledger with
  | None => (ledger, None)
  | Some (ledger', verified) =>
      match get_verification_stats ledger' with
      | None => (ledger', None)
      | Some stats => (ledger', Some (verified, stats))
      end
  end.

End Verifier.

(* ================================================================== *)
(** ** [oracle-agent/oracle.py] *)
(* ================================================================== *)

Module Oracle.
Import Py.

(** Price precision (6 decimals like USDC). *)
Definition PRICE_DECIMALS : Z := 6.
Definition PRICE_MULTIPLIER : Z := 10 ^ PRICE_DECIMALS.

(** [price_to_u64(price)] is [int(price * PRICE_MULTIPLIER)]. *)
Definition price_to_u64 (price : float) : option Z :=
  py_int (price * Z2f PRICE_MULTIPLIER)%float.

(** The clock readings of one creation: [datetime.utcnow().isoformat()],
    [datetime.utcnow().timestamp()] and [int(time.time())]. *)
Record CreationClock := mkCreationClock {
  created_iso : string;
  created_timestamp : float;
  unix_seconds : Z
}.

(** The mock transaction signature [mock_{local_id}_{int(time.time())}]. *)
Record MockTx := mkMockTx { tx_local_id : Z; tx_seconds : Z }.

(** The three readings of one creation on a machine whose zone is
    [utc_offset] seconds ahead of UTC, the system clock reading [ns1],
    [ns2] and [ns3] nanoseconds since the epoch at the three calls
    [datetime.utcnow().isoformat()], [datetime.utcnow().timestamp()] and
    [int(time.time())].  A reading of the clock is a finite double, on which
    [int] does not raise. *)
Definition clock_readings (utc_offset ns1 ns2 ns3 : Z) : CreationClock :=
  mkCreationClock (isoformat (utcnow ns1)) (timestamp utc_offset (utcnow ns2))
    (int_or_0 (py_int (time_time ns3))).

Definition signal_direction (signal : Signal) : string :=
  match sig_signal signal with
  | Some 1 => "LONG"
  | _ => "SHORT"
  end.

(** [signal.get("take_profit_price", signal["price"] * 1.05)] and
    [signal.get("stop_loss_price", signal["price"] * 0.95)]. *)
Definition take_profit_input (signal : Signal) : float :=
  match sig_take_profit_price signal with
  | Some tp => tp
  | None => (sig_price signal * 1.05)%float
  end.

Definition stop_loss_input (signal : Signal) : float :=
  match sig_stop_loss_price signal with
  | Some sl => sl
  | None => (sig_price signal * 0.95)%float
  end.

(** The record built by [create_prediction_tx] before it is given its
    [local_id]; [None] when a conversion raises. *)
Definition build_prediction (signal : Signal) (timeframe_hours : Z)
  (clk : CreationClock) (local_id : Z) : option Prediction :=
  match price_to_u64 (sig_price signal) with
  | None => None
  | Some entry =>
    match price_to_u64 (take_profit_input signal) with
    | None => None
    | Some tp =>
      match price_to_u64 (stop_loss_input signal) with
      | None => None
      | Some sl =>
        match float_of_int (timeframe_hours * 3600) with
        | None => None
        | Some span =>
            Some (mkPrediction (sig_symbol signal) (Some (signal_direction signal))
                    (Some entry) (Some tp) (Some sl) timeframe_hours
                    (created_iso clk) (created_timestamp clk + span)%float
                    "active" (Some signal) local_id None None)
        end
      end
    end
  end.

(** [create_prediction_tx(signal, timeframe_hours)] on the ledger file: the
    ledger it saves and the signature it returns. *)
Definition create_prediction_tx (signal : Signal) (timeframe_hours : Z)
  (clk : CreationClock) (ledger : list Prediction)
  : option (list Prediction * MockTx) :=
  let local_id := Z.of_nat (List.length ledger) in
  match build_prediction signal timeframe_hours clk local_id with
  | None => None
  | Some prediction =>
      Some (ledger ++ [prediction], mkMockTx local_id (unix_seconds clk))
  end.

(** The body of the loop of [verify_predictions]. *)
Definition mark_expired (current_time : float) (pred : Prediction) : Prediction :=
  if negb (String.eqb (status pred) "active") then pred
  else if geb current_time (expires_at pred)
       then set_status pred "needs_verification"
       else pred.

(** [verify_predictions()] on the ledger file. *)
Definition verify_predictions (current_time : float) (ledger : list Prediction)
  : list Prediction :=
  map (mark_expired current_time) ledger.

(** The dictionary returned by [get_oracle_stats]. *)
Record OracleStats := mkOracleStats {
  total_predictions : Z;
  os_active : Z;
  os_won : Z;
  os_lost : Z;
  os_win_rate : Number
}.

(** [p["status"]] on a record with the key. *)
Definition has_key (key : option string) : bool :=
  match key with
  | Some _ => true
  | None => false
  end.

(** [get_oracle_stats()] on a ledger file, read through the status keys of
    its records: the counts index [p["status"]], so the first count raises
    [KeyError], which is [None], when a record has no such key. *)
Definition get_oracle_stats_keys (keys : list (option string)) : option OracleStats :=
  let total := Z.of_nat (List.length keys) in
  if forallb has_key keys then
    let active := count_key "active" keys in
    let won := count_key "won" keys in
    let lost := count_key "lost" keys in
    match win_rate_of won lost with
    | None => None
    | Some win_rate => Some (mkOracleStats total active won lost win_rate)
    end
  else None.

(** [get_oracle_stats()] on a ledger whose records have the key. *)
Definition get_oracle_stats (predictions : list Prediction) : option OracleStats :=
  get_oracle_stats_keys (status_keys predictions).

(** A number under a key that only the display reads: the key is absent,
    holds [null], or holds a number. *)
Inductive DisplayNumber :=
| KeyAbsent
| KeyNull
| KeyNumber (f : float).

(** An element of the [actionable] list: the keys that
    [create_prediction_tx] reads, and the three numbers that only
    [format_prediction_for_display] reads. *)
Record ActionableSignal := mkActionableSignal {
  act_signal : Signal;
  take_profit_pct : DisplayNumber;
  stop_loss_pct : DisplayNumber;
  rr_ratio : DisplayNumber
}.

(** [format_prediction_for_display(signal)].  Its text is only printed, so
    what is kept of it is whether it returns: [None] is the [TypeError] of
    [None * 100] or of formatting [None] with [.2f] when one of the three
    keys holds [null]; a number and the default 0 of an absent key are
    formatted.  (A [null] under a price key, which would raise here as well,
    raises in [create_prediction_tx] too and is outside [Signal].) *)
Definition format_prediction_for_display (signal : ActionableSignal) : option unit :=
  match take_profit_pct signal, stop_loss_pct signal, rr_ratio signal with
  | KeyNull, _, _ | _, KeyNull, _ | _, _, KeyNull => None
  | _, _, _ => Some tt
  end.

(** The [for signal in actionable] loop of [process_new_signals].  Each
    signal is displayed and then created; a creation reads the ledger file
    and saves it again with one more record, at its own clock readings, so
    a display or a creation that raises leaves on file what the earlier
    creations saved.  The result is the ledger file after the loop, and the
    signatures collected, or [None] when a call raised. *)
Fixpoint create_each (actionable : list (ActionableSignal * CreationClock))
  (ledger : list Prediction) (tx_sigs : list MockTx)
  : list Prediction * option (list MockTx) :=
  match actionable with
  | [] => (ledger, Some tx_sigs)
  | (signal, clk) :: rest =>
      match format_prediction_for_display signal with
      | None => (ledger, None)
      | Some _ =>
          match create_prediction_tx (act_signal signal) 24 clk ledger with
          | None => (ledger, None)
          | Some (ledger', tx_sig) => create_each rest ledger' (tx_sigs ++ [tx_sig])
          end
      end
  end.

(** [process_new_signals()]: with no actionable signal it returns the empty
    list at once. *)
Definition process_new_signals (actionable : list (ActionableSignal * CreationClock))
  (ledger : list Prediction) : list Prediction * option (list MockTx) :=
  match actionable with
  | [] => (ledger, Some [])
  | _ => create_each actionable ledger []
  end.

(** [main()]: new signals, then the expiry scan at [current_time], then
    the statistics it prints.  The result is the ledger file after the run
    and, unless a call raised, the signatures it returns with the
    statistics. *)
Definition main (actionable : list (ActionableSignal * CreationClock))
  (current_time : float) (ledger : list Prediction)
  : list Prediction * option (list MockTx * OracleStats) :=
  match process_new_signals actionable ledger with
  | (ledger1, None) => (ledger1, None)
  | (ledger1, Some tx_sigs) =>
      let ledger2 := verify_predictions current_time ledger1 in
      match get_oracle_stats ledger2 with
      | None => (ledger2, None)
      | Some stats => (ledger2, Some (tx_sigs, stats))
      end
  end.

End Oracle.

(* ================================================================== *)
(** ** [client/nansen_oracle.py] *)
(* ================================================================== *)

Module Nansen.
Import Py.

(** [str.upper()] on a string of ASCII characters: the letters a to z
    become A to Z and every other character stays.  On a character outside
    ASCII [str.upper()] follows the Unicode case mappings, which this
    function does not: it is [str.upper()] on ASCII symbols, and the
    properties of symbols are stated for those. *)
Definition upper_ascii (c : ascii) : ascii :=
  let n := nat_of_ascii c in
  if (97 <=? n)%nat && (n <=? 122)%nat then ascii_of_nat (n - 32) else c.

Fixpoint upper (s : string) : string :=
  match s with
  | EmptyString => EmptyString
  | String c s' => String (upper_ascii c) (upper s')
  end.

(** A raw netflow record; an absent or [null] number is [None], an absent
    symbol is the empty string. *)
Record NetflowRecord := mkNetflowRecord {
  token_symbol : string;
  net_flow_24h_usd : option float;
  net_flow_1h_usd : option float;
  net_flow_7d_usd : option float;
  market_cap_usd : option float;
  trader_count : option Z
}.

(** A raw DEX trade record. *)
Record TradeRecord := mkTradeRecord {
  token_bought_symbol : string;
  token_sold_symbol : string;
  trade_value_usd : option float
}.

(** [str.lower()] on a string of ASCII characters.  It is only compared
    with ["true"], none of whose letters is the lower case of a character
    outside ASCII. *)
Definition lower_ascii (c : ascii) : ascii :=
  let n := nat_of_ascii c in
  if (65 <=? n)%nat && (n <=? 90)%nat then ascii_of_nat (n + 32) else c.

Fixpoint lower (s : string) : string :=
  match s with
  | EmptyString => EmptyString
  | String c s' => String (lower_ascii c) (lower s')
  end.

(** The JSON values the [is_last_page] key can hold. *)
Inductive Json :=
| JBool (b : bool)
| JString (s : string)
| JInt (z : Z)
| JNull.

(** [str(v)]. *)
Definition py_str (v : Json) : string :=
  match v with
  | JBool true => "True"
  | JBool false => "False"
  | JString s => s
  | JInt z => DecimalString.NilZero.string_of_int (Z.to_int z)
  | JNull => "None"
  end.

(** One response of a paginated endpoint: [data.get("data", [])] and
    [data.get("pagination", {}).get("is_last_page")], absent when either
    key is. *)
Record Page (A : Type) := mkPage {
  page_data : list A;
  is_last_page : option Json
}.
Arguments mkPage {A}.
Arguments page_data {A}.
Arguments is_last_page {A}.

(** [str(pag.get("is_last_page", "True")).lower() == "true"]. *)
Definition last_page {A : Type} (data : Page A) : bool :=
  String.eqb
    (lower (py_str (match is_last_page data with
                    | Some v => v
                    | None => JString "True"
                    end)))
    "true".

(** The loop [for page in pages] shared by the two paginated fetches;
    [post page] is the call of [nansen_post] for that page, [None] when it
    raises. *)
Fixpoint fetch_pages {A : Type} (post : Z -> option (Page A)) (pages : list Z)
  (all_data : list A) : list A :=
  match pages with
  | [] => all_data
  | page :: rest =>
      match post page with
      | None => all_data
      | Some data =>
          let all_data := all_data ++ page_data data in
          if last_page data then all_data else fetch_pages post rest all_data
      end
  end.

(** The Nansen API as the scanner uses it: [nansen_post] on the two
    paginated endpoints, for a chain and a page number. *)
Record Api := mkApi {
  netflow_endpoint : string -> Z -> option (Page NetflowRecord);
  dex_trades_endpoint : string -> Z -> option (Page TradeRecord)
}.

(** [get_smart_money_netflow(api_key, chain)]: pages 1 to 3. *)
Definition get_smart_money_netflow (api : Api) (chain : string)
  : list NetflowRecord :=
  fetch_pages (netflow_endpoint api chain) [1; 2; 3] [].

(** [get_smart_money_dex_trades(api_key, chain)]. *)
Definition get_smart_money_dex_trades (api : Api) (chain : string)
  : list TradeRecord :=
  fetch_pages (dex_trades_endpoint api chain) [1; 2; 3] [].

(** The keys that only one of the two analysers writes. *)
Inductive SignalDetail :=
| NetflowDetail (net_flow_1h net_flow_7d market_cap flow_pct_mcap : float)
                (traders : Z)
| DexDetail (buy_ratio total_volume_usd : float) (trade_count : Z).

(** A signal dictionary as the analysers emit it. *)
Record FlowSignal := mkFlowSignal {
  symbol : string;
  chain : string;
  direction : string;
  net_flow_usd : float;
  confidence : float;
  source : string;
  timestamp : string;
  detail : SignalDetail
}.

(** [l.sort(key=key, reverse=True)]: stable, largest key first. *)
Section Sort.
Context {A : Type} (key : A -> float).

Fixpoint insert_desc (x : A) (l : list A) : list A :=
  match l with
  | [] => [x]
  | y :: l' => if (key x <? key y)%float then y :: insert_desc x l' else x :: l
  end.

Definition sort_desc (l : list A) : list A := fold_right insert_desc [] l.

End Sort.

(** [xs = [f(x) for x in l if f(x) is not None]]. *)
Fixpoint filter_map {A B : Type} (f : A -> option B) (l : list A) : list B :=
  match l with
  | [] => []
  | x :: l' =>
      match f x with
      | Some y => y :: filter_map f l'
      | None => filter_map f l'
      end
  end.

(** The test [(flow > 0) == (net_flow_24h > 0) and flow != 0] that guards
    each of the two agreement increments. *)
Definition agrees_with_day (flow net_flow_24h : float) : bool :=
  Bool.eqb (gtb flow 0) (gtb net_flow_24h 0) && neb flow 0.

(** The five additive steps on [conf] in [analyze_netflows], before
    [min(conf, 1.0)]. *)
Definition netflow_conf (primary_flow net_flow_24h net_flow_1h net_flow_7d : float)
  (traders : Z) : float :=
  let conf := 0.3%float in
  let conf := if gtb (abs primary_flow) 50000 then (conf + 0.2)%float else conf in
  let conf := if gtb (abs primary_flow) 200000 then (conf + 0.2)%float else conf in
  let conf := if traders >=? 3 then (conf + 0.1)%float else conf in
  let conf := if agrees_with_day net_flow_1h net_flow_24h
              then (conf + 0.1)%float else conf in
  let conf := if agrees_with_day net_flow_7d net_flow_24h
              then (conf + 0.1)%float else conf in
  conf.

(** [primary_flow]: the 24h flow, or the 1h flow when the 24h flow is
    zero. *)
Definition primary_flow (token_flow : NetflowRecord) : float :=
  let net_flow_24h := float_or_0 (net_flow_24h_usd token_flow) in
  let net_flow_1h := float_or_0 (net_flow_1h_usd token_flow) in
  if truthy net_flow_24h then net_flow_24h else net_flow_1h.

(** [flow_pct]: the flow relative to the market cap, when there is one. *)
Definition flow_pct (token_flow : NetflowRecord) : float :=
  let mcap := float_or_0 (market_cap_usd token_flow) in
  if gtb mcap 0 then (abs (primary_flow token_flow) / mcap * 100)%float
  else 0%float.

(** The body of the inner loop of [analyze_netflows]: the signal appended
    for one record of one chain, if any. *)
Definition netflow_signal (now : string) (chain : string) (token_flow : NetflowRecord)
  : option FlowSignal :=
  let symbol := token_symbol token_flow in
  let net_flow_24h := float_or_0 (net_flow_24h_usd token_flow) in
  let net_flow_1h := float_or_0 (net_flow_1h_usd token_flow) in
  let net_flow_7d := float_or_0 (net_flow_7d_usd token_flow) in
  let mcap := float_or_0 (market_cap_usd token_flow) in
  let traders := int_or_0 (trader_count token_flow) in
  if String.eqb symbol "" then None
  else
    let primary_flow := primary_flow token_flow in
    if negb (truthy primary_flow) then None
    else
      let flow_pct := flow_pct token_flow in
      if gtb (abs primary_flow) 5000 || gtb flow_pct 0.1 then
        let direction := if gtb primary_flow 0 then "LONG" else "SHORT" in
        let conf := netflow_conf primary_flow net_flow_24h net_flow_1h net_flow_7d
                      traders in
        let conf := py_min conf 1.0 in
        Some (mkFlowSignal (upper symbol) chain direction
                (py_round primary_flow 2) (py_round conf 2)
                "nansen_smart_money_netflow" now
                (NetflowDetail (py_round net_flow_1h 2) (py_round net_flow_7d 2)
                   (py_round mcap 0) (py_round flow_pct 4) traders))
      else None.

(** [analyze_netflows(all_netflows)]; [now] is the clock reading written
    into the signals. *)
Definition analyze_netflows (now : string)
  (all_netflows : list (string * list NetflowRecord)) : list FlowSignal :=
  sort_desc (fun x => abs (net_flow_usd x))
    (flat_map (fun cf => filter_map (netflow_signal now (fst cf)) (snd cf))
       all_netflows).

(** Tokens never treated as a directional target. *)
Definition stables : list string :=
  ["USDC"; "USDT"; "DAI"; "BUSD"; "WETH"; "WBTC"; "WBNB"; "WSOL"].

Definition in_stables (s : string) : bool :=
  existsb (String.eqb s) stables.

(** One value of the [token_agg] accumulator. *)
Record TokenAgg := mkTokenAgg {
  agg_symbol : string;
  agg_chain : string;
  buys : float;
  sells : float;
  trades : Z
}.

Definition add_buy (usd_value : float) (a : TokenAgg) : TokenAgg :=
  mkTokenAgg (agg_symbol a) (agg_chain a) (buys a + usd_value)%float (sells a)
    (trades a + 1).

Definition add_sell (usd_value : float) (a : TokenAgg) : TokenAgg :=
  mkTokenAgg (agg_symbol a) (agg_chain a) (buys a) (sells a + usd_value)%float
    (trades a + 1).

Definition agg_key (sym chain : string) : string := upper sym ++ "_" ++ chain.

(** The body of the inner loop of the first pass of [analyze_dex_trades]. *)
Definition aggregate_trade (chain : string) (token_agg : list (string * TokenAgg))
  (trade : TradeRecord) : list (string * TokenAgg) :=
  let bought := token_bought_symbol trade in
  let sold := token_sold_symbol trade in
  let usd_value := float_or_0 (trade_value_usd trade) in
  if negb (truthy usd_value) then token_agg
  else
    let token_agg :=
      if negb (String.eqb bought "") && negb (in_stables (upper bought)) then
        dict_upsert (agg_key bought chain)
          (mkTokenAgg (upper bought) chain 0 0 0) (add_buy usd_value) token_agg
      else token_agg in
    if negb (String.eqb sold "") && negb (in_stables (upper sold)) then
      dict_upsert (agg_key sold chain)
        (mkTokenAgg (upper sold) chain 0 0 0) (add_sell usd_value) token_agg
    else token_agg.

(** The first pass: every trade of every chain, in order. *)
Definition aggregate_trades (all_trades : list (string * list TradeRecord))
  : list (string * TokenAgg) :=
  fold_left (fun acc ct => fold_left (aggregate_trade (fst ct)) (snd ct) acc)
    all_trades [].

(** The two steps on [confidence] in [analyze_dex_trades]. *)
Definition dex_conf (buy_ratio : float) (trades : Z) : float :=
  let confidence := py_min (abs (buy_ratio - 0.5) * 2 + 0.2)%float 1.0 in
  if trades >=? 3 then py_min (confidence + 0.1)%float 1.0 else confidence.

(** The body of the second loop of [analyze_dex_trades]: the signal
    appended for one aggregation key, if any. *)
Definition dex_signal (now : string) (agg : TokenAgg) : option FlowSignal :=
  let total := (buys agg + sells agg)%float in
  if (total <? 5000)%float then None
  else
    let net := (buys agg - sells agg)%float in
    let buy_ratio := if gtb total 0 then (buys agg / total)%float else 0.5%float in
    if gtb buy_ratio 0.6 || (buy_ratio <? 0.4)%float then
      let direction := if gtb net 0 then "LONG" else "SHORT" in
      let confidence := dex_conf buy_ratio (trades agg) in
      Some (mkFlowSignal (agg_symbol agg) (agg_chain agg) direction
              (py_round net 2) (py_round confidence 2)
              "nansen_smart_money_dex" now
              (DexDetail (py_round buy_ratio 3) (py_round total 2) (trades agg)))
    else None.

(** [analyze_dex_trades(all_trades)]. *)
Definition analyze_dex_trades (now : string)
  (all_trades : list (string * list TradeRecord)) : list FlowSignal :=
  sort_desc (fun x => abs (net_flow_usd x))
    (filter_map (fun kv => dex_signal now (snd kv)) (aggregate_trades all_trades)).

(** A value of the [merged] dictionary. *)
Record MergedSignal := mkMergedSignal {
  m_symbol : string;
  m_chain : string;
  m_direction : string;
  m_confidence : float;
  m_sources : list string;
  m_net_flow_usd : float;
  m_timestamp : string
}.

(** The first contribution of a symbol. *)
Definition merged_of (sig : FlowSignal) : MergedSignal :=
  mkMergedSignal (symbol sig) (chain sig) (direction sig) (confidence sig)
    [source sig] (net_flow_usd sig) (timestamp sig).

(** A later contribution, applied to the existing entry. *)
Definition merge_into (sig : FlowSignal) (existing : MergedSignal) : MergedSignal :=
  mkMergedSignal (m_symbol existing) (m_chain existing) (m_direction existing)
    (if String.eqb (m_direction existing) (direction sig)
     then py_min (m_confidence existing + 0.2)%float 1.0
     else py_max (m_confidence existing - 0.3)%float 0.1)
    (m_sources existing ++ [source sig])
    (m_net_flow_usd existing + net_flow_usd sig)%float
    (m_timestamp existing).

(** The body of the loop of [merge_signals]. *)
Definition merge_step (merged : list (string * MergedSignal)) (sig : FlowSignal)
  : list (string * MergedSignal) :=
  let key := symbol sig in
  match dict_get key merged with
  | None => merged ++ [(key, merged_of sig)]
  | Some _ => dict_modify key (merge_into sig) merged
  end.

(** [merge_signals(netflow_signals, dex_signals)]. *)
Definition merge_signals (netflow_signals dex_signals : list FlowSignal)
  : list MergedSignal :=
  let merged := fold_left merge_step (netflow_signals ++ dex_signals) [] in
  sort_desc m_confidence (map snd merged).

(** Chains to scan for smart money netflow. *)
Definition CHAINS_TO_SCAN : list string :=
  ["ethereum"; "solana"; "base"; "arbitrum"].

(** The dictionary that [main] writes and returns. *)
Record ScanOutput := mkScanOutput {
  out_timestamp : string;
  out_source : string;
  out_chains_scanned : list string;
  out_signals : list MergedSignal;
  out_netflow_signals : Z;
  out_dex_signals : Z;
  out_merged_total : Z
}.

(** [main()]: fetch, analyse, merge, keep the first twenty.  [now] is the
    clock reading of the analysers, [written] the one of the output. *)
Definition main (api : Api) (now written : string) : ScanOutput :=
  let all_netflows :=
    map (fun chain => (chain, get_smart_money_netflow api chain)) CHAINS_TO_SCAN in
  let all_dex_trades :=
    map (fun chain => (chain, get_smart_money_dex_trades api chain)) CHAINS_TO_SCAN in
  let netflow_signals := analyze_netflows now all_netflows in
  let dex_signals := analyze_dex_trades now all_dex_trades in
  let merged := merge_signals netflow_signals dex_signals in
  mkScanOutput written "nansen_smart_money" CHAINS_TO_SCAN (firstn 20 merged)
    (Z.of_nat (List.length netflow_signals))
    (Z.of_nat (List.length dex_signals))
    (Z.of_nat (List.length merged)).

End Nansen.

(* ================================================================== *)
(** * Specification vocabulary and sample inputs *)
(* ================================================================== *)

Import Py Verifier Oracle.

(* ------------------------------------------------------------------ *)
(** ** The decision table *)
(* ------------------------------------------------------------------ *)

(** The direction a record is verified under: an absent key reads as
    ["LONG"]. *)
Definition effective_direction (p : Prediction) : string :=
  match direction p with Some d => d | None => "LONG" end.


(** The rows of the decision table for a LONG prediction, read off the
    specification: each row applies when the rows above it do not. *)
Definition long_rows (current entry tp sl : float) (outcome : string) : Prop :=
  (geb current tp = true -> outcome = "won") /\
  (geb current tp = false -> (current <=? sl)%float = true -> outcome = "lost") /\
  (geb current tp = false -> (current <=? sl)%float = false ->
     gtb current entry = true -> outcome = "won") /\
  (geb current tp = false -> (current <=? sl)%float = false ->
     gtb current entry = false -> outcome = "lost").

(** The rows for a SHORT prediction. *)
Definition short_rows (current entry tp sl : float) (outcome : string) : Prop :=
  ((current <=? tp)%float = true -> outcome = "won") /\
  ((current <=? tp)%float = false -> geb current sl = true -> outcome = "lost") /\
  ((current <=? tp)%float = false -> geb current sl = false ->
     (current <? entry)%float = true -> outcome = "won") /\
  ((current <=? tp)%float = false -> geb current sl = false ->
     (current <? entry)%float = false -> outcome = "lost").


(* ------------------------------------------------------------------ *)
(** ** Scans and the ledger invariant *)
(* ------------------------------------------------------------------ *)

(** One run of either scan over the ledger file. *)
Inductive Scan :=
| ExpiryScan (current_time : float)
| PriceScan (hermes : Hermes) (clk : Clock).

(** The ledger file after a scan; a price scan that raises saves nothing. *)
Definition run_scan (s : Scan) (ledger : list Prediction) : list Prediction :=
  match s with
  | ExpiryScan t => verify_predictions t ledger
  | PriceScan hermes clk =>
      match process_expired_predictions hermes clk ledger with
      | Some (ledger', _) => ledger'
      | None => ledger
      end
  end.

Definition run_scans (ss : list Scan) (ledger : list Prediction) : list Prediction :=
  fold_left (fun l s => run_scan s l) ss ledger.

(** The ledger invariant: the record at position [i] carries the id [i].
    It holds of the empty ledger and every operation of the two modules
    keeps it. *)
Definition sequential (ledger : list Prediction) : Prop :=
  forall (i : nat) (q : Prediction),
    nth_error ledger i = Some q -> local_id q = Z.of_nat i.

(* ------------------------------------------------------------------ *)
(** ** The fixed-point round trip *)
(* ------------------------------------------------------------------ *)

(** Decoding a stored integer and encoding it again. *)
Definition round_trip (x : Z) : option Z :=
  match micro_units (Some x) with
  | Some price => price_to_u64 price
  | None => None
  end.

(** The binary64 mantissa of [1000000.0], which is
    [million_mantissa * 2^-33]. *)
Definition million_mantissa : Z := 8589934592000000.

(* ------------------------------------------------------------------ *)
(** ** Sample ledgers, feeds and clocks *)
(* ------------------------------------------------------------------ *)

(** The records of scenarios 4 and 5: entry 100, take profit 110 (90),
    stop loss 90 (110). *)
Definition scenario4 : Prediction :=
  mkPrediction "BTC" (Some "LONG") (Some 100000000) (Some 110000000)
    (Some 90000000) 24 "2026-01-01T00:00:00" 1767312000 "active" None 0 None None.

Definition scenario5 : Prediction :=
  mkPrediction "ETH" (Some "SHORT") (Some 100000000) (Some 90000000)
    (Some 110000000) 24 "2026-01-01T00:00:00" 1767312000 "active" None 1 None None.


(** A feed that prices everything at 105. *)
Definition flat_feed : Hermes := fun _ => Some 105%float.

Definition clock_2027 : Clock := mkClock 1800000000 "2027-01-15T08:00:00".

Definition settled_ledger : list Prediction :=
  [ set_verified scenario4 "won" 105000000 "2026-01-02T00:00:00";
    set_status scenario5 "needs_verification";
    scenario4 ].

(** A record on an asset that has no entry in [PYTH_FEED_IDS]. *)
Definition uni_prediction : Prediction :=
  mkPrediction "UNI" (Some "LONG") (Some 7000000) (Some 7350000) (Some 6650000)
    24 "2026-01-01T00:00:00" 1767312000 "active" None 3 None None.

Definition btc_signal : Signal := mkSignal "BTC" (Some 1) 100 None None.

(** The readings of a creation at the first instant of 2026 on a machine
    whose zone is UTC. *)
Definition creation_clock : CreationClock :=
  mkCreationClock "2026-01-01T00:00:00" 1767225600 1767225600.

(** The first instant of 2026 in nanoseconds since the epoch, and the
    instant fifteen hours later. *)
Definition new_year_2026 : Z := 1767225600 * 1000000000.

Definition fifteen_hours_later : Z := (1767225600 + 54000) * 1000000000.

(** The offset of a zone nine hours ahead of UTC, in seconds. *)
Definition nine_hours_ahead : Z := 32400.

(** The record that [create_prediction_tx] writes for [btc_signal] at
    [new_year_2026] on a machine nine hours ahead of UTC. *)
Definition skewed_prediction : Prediction :=
  mkPrediction "BTC" (Some "LONG") (Some 100000000) (Some 105000000)
    (Some 95000000) 24 "2026-01-01T00:00:00" 1767279600 "active"
    (Some btc_signal) 0 None None.


(* ------------------------------------------------------------------ *)
(** ** Runs of the two programs on the ledger file *)
(* ------------------------------------------------------------------ *)

(** One run of [oracle.py] or of [verifier.py], with what it reads from
    outside: the actionable signals with the clock readings of their
    creation and the time of the expiry scan, or the price feed and the
    clock of the price scan. *)
Inductive Run :=
| OracleRun (actionable : list (ActionableSignal * CreationClock))
    (current_time : float)
| VerifierRun (hermes : Hermes) (clk : Clock).

(** The ledger file after a run. *)
Definition after_run (r : Run) (ledger : list Prediction) : list Prediction :=
  match r with
  | OracleRun actionable t => fst (Oracle.main actionable t ledger)
  | VerifierRun hermes clk => fst (Verifier.main hermes clk ledger)
  end.

(** The ledger file after a sequence of runs that starts with no file,
    which both programs read as the empty ledger. *)
Definition after_runs (rs : list Run) : list Prediction :=
  fold_left (fun ledger r => after_run r ledger) rs [].

(** The statuses the two programs write. *)
Definition lifecycle_statuses : list string :=
  ["active"; "needs_verification"; "needs_manual_verification"; "won"; "lost"].

(** A record whose outcome is settled. *)
Definition decided (p : Prediction) : Prop :=
  status p = "won" \/ status p = "lost".

(** A record as [create_prediction_tx] builds it and the scans update
    it. *)
Definition well_formed (p : Prediction) : Prop :=
  In (status p) lifecycle_statuses /\
  (direction p = Some "LONG" \/ direction p = Some "SHORT") /\
  entry_price p <> None /\ take_profit p <> None /\ stop_loss p <> None /\
  timeframe_hours p = 24 /\
  (decided p <-> result_price p <> None) /\
  (decided p <-> verified_at p <> None).

(** Not a NaN. *)
Definition is_number (x : float) : bool := (x =? x)%float.

(** The records of a ledger that are decided. *)
Definition count_decided (ledger : list Prediction) : Z :=
  count_status "won" ledger + count_status "lost" ledger.

(** A SHORT signal on ETH, and one whose price is a NaN, on which
    [price_to_u64] raises. *)
Definition eth_signal : Signal := mkSignal "ETH" (Some 0) 2000 None None.

Definition nan_signal : Signal := mkSignal "ETH" (Some 0) nan None None.

(** A signal with none of the keys that only the display reads, and one
    whose [rr_ratio] is [null]. *)
Definition plain (signal : Signal) : ActionableSignal :=
  mkActionableSignal signal KeyAbsent KeyAbsent KeyAbsent.

Definition null_ratio (signal : Signal) : ActionableSignal :=
  mkActionableSignal signal (KeyNumber 0.05) (KeyNumber 0.05) KeyNull.

(** A ledger of three expired active records; the feed has no price for the
    second one. *)
Definition three_expired : list Prediction := [scenario5; uni_prediction; scenario4].

Definition three_priced : list Prediction :=
  [ set_verified scenario5 "lost" 105000000 "2027-01-15T08:00:00";
    set_status uni_prediction "needs_manual_verification";
    set_verified scenario4 "won" 105000000 "2027-01-15T08:00:00" ].

(** A feed that answers nothing. *)
Definition silent_feed : Hermes := fun _ => None.

(** The records with a status that neither statistics function counts. *)
Definition count_other (predictions : list Prediction) : Z :=
  Z.of_nat (List.length
    (filter (fun p => negb (existsb (String.eqb (status p)) lifecycle_statuses))
       predictions)).

(** The records of a file that the verifier counts in the total only: those
    without a status key and those whose status is none of the five. *)
Definition count_other_keys (keys : list (option string)) : Z :=
  Z.of_nat (List.length
    (filter (fun k => negb (existsb (fun s => key_is s k) lifecycle_statuses)) keys)).

(** The status keys of a file of four records, one of which has none. *)
Definition keys_with_gap : list (option string) :=
  [Some "won"; None; Some "active"; Some "archived"].

(** Two runs of each program: [oracle.py] creates a prediction and scans
    before its expiry, [verifier.py] prices it after its expiry;
    [oracle.py] creates a second prediction and raises on the NaN price
    of the next signal, [verifier.py] finds no price for it. *)
Definition sample_runs : list Run :=
  [ OracleRun [(plain btc_signal, creation_clock)] 1767225600;
    VerifierRun flat_feed clock_2027;
    OracleRun [(plain eth_signal, creation_clock); (plain nan_signal, creation_clock);
               (plain btc_signal, creation_clock)] 1800000000;
    VerifierRun silent_feed clock_2027 ].

(** The mantissa of the double [1.0], which is [one_mantissa * 2^-52]. *)
Definition one_mantissa : positive := 4503599627370496.

(** The first record of the ledger after [sample_runs]. *)
Definition btc_decided : Prediction :=
  set_verified
    (mkPrediction "BTC" (Some "LONG") (Some 100000000) (Some 105000000)
       (Some 95000000) 24 "2026-01-01T00:00:00" 1767312000 "active"
       (Some btc_signal) 0 None None)
    "won" 105000000 "2027-01-15T08:00:00".

(** What the loop body of the price scan does to one record. *)
Inductive price_step (hermes : Hermes) (clk : Clock) (p : Prediction)
  : Prediction -> bool -> Prop :=
| step_skip :
    status p <> "active" \/ (current_time clk <? expires_at p)%float = true ->
    price_step hermes clk p p false
| step_manual :
    status p = "active" ->
    (current_time clk <? expires_at p)%float = false ->
    get_pyth_price hermes (asset p) = None ->
    price_step hermes clk p (set_status p "needs_manual_verification") false
| step_decide (price : float) (r : string) (micro : Z) :
    status p = "active" ->
    (current_time clk <? expires_at p)%float = false ->
    get_pyth_price hermes (asset p) = Some price ->
    verify_prediction p price = Some r ->
    r = "won" \/ r = "lost" ->
    py_int (price * 1000000)%float = Some micro ->
    price_step hermes clk p (set_verified p r micro (utcnow_iso clk)) true.

(** The record created for the signal at position [k] of the actionable
    list, on a ledger that had [n] records. *)
Definition created_for (actionable : list (ActionableSignal * CreationClock))
  (n k : nat) (p : Prediction) : Prop :=
  exists sc,
    nth_error actionable k = Some sc /\
    format_prediction_for_display (fst sc) = Some tt /\
    asset p = sig_symbol (act_signal (fst sc)) /\
    created_at p = created_iso (snd sc) /\
    status p = "active" /\
    timeframe_hours p = 24 /\
    local_id p = Z.of_nat (n + k).

(** The ledger file after a sequence of runs on a given ledger. *)
Definition runs_from (ledger : list Prediction) (rs : list Run) : list Prediction :=
  fold_left (fun l r => after_run r l) rs ledger.

(** Two records state the same prediction: they differ at most in the
    status, the result price and the verification time. *)
Definition same_terms (p p' : Prediction) : Prop :=
  asset p' = asset p /\ direction p' = direction p /\
  entry_price p' = entry_price p /\ take_profit p' = take_profit p /\
  stop_loss p' = stop_loss p /\ timeframe_hours p' = timeframe_hours p /\
  created_at p' = created_at p /\ expires_at p' = expires_at p /\
  original_signal p' = original_signal p /\ local_id p' = local_id p.

Section NansenVocabulary.
Import Nansen.

(* ------------------------------------------------------------------ *)
(** ** Confidence formulas as the specification words them *)
(* ------------------------------------------------------------------ *)

(** The decimal with [k] hundredths, as the literal [0.30], [0.80], ... is
    read. *)
Definition cents (k : Z) : float := (Z2f k / 100)%float.

(** Two flows agree in sign and both are non-zero. *)
Definition same_sign (a b : float) : bool :=
  (gtb a 0 && gtb b 0) || ((a <? 0)%float && (b <? 0)%float).

(** The confidence as the specification words it, in hundredths: 0.30 plus
    the five increments, capped at 1.0. *)
Definition spec_confidence_cents (r : NetflowRecord) : Z :=
  let net_flow_24h := float_or_0 (net_flow_24h_usd r) in
  let net_flow_1h := float_or_0 (net_flow_1h_usd r) in
  let net_flow_7d := float_or_0 (net_flow_7d_usd r) in
  Z.min 100
    (30
     + (if gtb (abs (primary_flow r)) 50000 then 20 else 0)
     + (if gtb (abs (primary_flow r)) 200000 then 20 else 0)
     + (if int_or_0 (trader_count r) >=? 3 then 10 else 0)
     + (if same_sign net_flow_1h net_flow_24h then 10 else 0)
     + (if same_sign net_flow_7d net_flow_24h then 10 else 0)).

(** The confidence the code computes, in hundredths: the same sum with the
    code's own agreement test. *)
Definition code_confidence_cents (r : NetflowRecord) : Z :=
  let net_flow_24h := float_or_0 (net_flow_24h_usd r) in
  let net_flow_1h := float_or_0 (net_flow_1h_usd r) in
  let net_flow_7d := float_or_0 (net_flow_7d_usd r) in
  Z.min 100
    (30
     + (if gtb (abs (primary_flow r)) 50000 then 20 else 0)
     + (if gtb (abs (primary_flow r)) 200000 then 20 else 0)
     + (if int_or_0 (trader_count r) >=? 3 then 10 else 0)
     + (if agrees_with_day net_flow_1h net_flow_24h then 10 else 0)
     + (if agrees_with_day net_flow_7d net_flow_24h then 10 else 0)).

(** The imbalance test on an aggregate, with the ratio written as the
    plain quotient. *)
Definition emits (agg : TokenAgg) : bool :=
  let total := (buys agg + sells agg)%float in
  let buy_ratio := (buys agg / total)%float in
  geb total 5000 && (gtb buy_ratio 0.6 || (buy_ratio <? 0.4)%float).

(** The confidence formula before the final rounding. *)
Definition raw_confidence (agg : TokenAgg) : float :=
  let buy_ratio := (buys agg / (buys agg + sells agg))%float in
  let base := py_min (abs (buy_ratio - 0.5) * 2 + 0.2)%float 1 in
  if trades agg >=? 3 then py_min (base + 0.1)%float 1 else base.

(** Every decimal [k / 100] between 0 and 1. *)
Definition on_cent_grid (c : float) : Prop :=
  exists k : Z, 0 <= k <= 100 /\ c = cents k.

Definition boost_ok (k : Z) : bool :=
  geb (py_min (cents k + 0.2)%float 1) (cents k) &&
  (py_min (cents k + 0.2)%float 1 <=? 1)%float.

Definition penalty_ok (k : Z) : bool :=
  (py_max (cents k - 0.3)%float 0.1 <=? py_max (cents k - 0.29)%float 0.1)%float &&
  (0.1 <=? py_max (cents k - 0.3)%float 0.1)%float.

(* ------------------------------------------------------------------ *)
(** ** Sample records and signals *)
(* ------------------------------------------------------------------ *)

(** A record with a flow of 0.4 cent on a market cap of one dollar: 0.4 % of
    the market cap, which passes the relative threshold. *)
Definition dust_record : NetflowRecord :=
  mkNetflowRecord "DUST" (Some 0.004%float) None None (Some 1%float) None.

Definition dust_signal : FlowSignal :=
  mkFlowSignal "DUST" "base" "LONG" 0 0.3 "nansen_smart_money_netflow"
    "2026-01-01T00:00:00+00:00" (NetflowDetail 0 0 1 0.4 0).

(** No 24h flow, 60,000 out over the last hour, 5,000 out over the week,
    four traders. *)
Definition zero_day_record : NetflowRecord :=
  mkNetflowRecord "UNI" (Some 0%float) (Some (-60000)%float)
    (Some (-5000)%float) None (Some 4).

(** The same record with the hour and the week flowing in. *)
Definition zero_day_inflow : NetflowRecord :=
  mkNetflowRecord "UNI" (Some 0%float) (Some 60000%float)
    (Some 5000%float) None (Some 4).

(** Two trades: 10,000 of A bought with B, 5,000 of B bought with A. *)
Definition two_thirds_trades : list (string * list TradeRecord) :=
  [("base", [ mkTradeRecord "A" "B" (Some 10000%float);
              mkTradeRecord "B" "A" (Some 5000%float) ])].

Definition agg_A : TokenAgg := mkTokenAgg "A" "base" 10000 5000 2.

Definition signal_A : FlowSignal :=
  mkFlowSignal "A" "base" "LONG" 5000 0.53 "nansen_smart_money_dex"
    "2026-01-01T00:00:00+00:00" (DexDetail 0.667 15000 2).

Definition sol_netflow (dir : string) (conf : float) : FlowSignal :=
  mkFlowSignal "SOL" "solana" dir 120000 conf "nansen_smart_money_netflow"
    "2026-01-01T00:00:00+00:00" (NetflowDetail 0 0 0 0 4).

Definition sol_dex (dir : string) (conf : float) : FlowSignal :=
  mkFlowSignal "SOL" "solana" dir 8000 conf "nansen_smart_money_dex"
    "2026-01-01T00:00:00+00:00" (DexDetail 0.8 10000 4).

(* ------------------------------------------------------------------ *)
(** ** ASCII symbols *)
(* ------------------------------------------------------------------ *)

(** [s.isascii()]: every character is below 128. *)
Fixpoint isascii (s : string) : bool :=
  match s with
  | EmptyString => true
  | String c s' => (nat_of_ascii c <? 128)%nat && isascii s'
  end.

(** One of the letters a to z. *)
Definition lowercase_letter (c : ascii) : bool :=
  (97 <=? nat_of_ascii c)%nat && (nat_of_ascii c <=? 122)%nat.

(** An ASCII string without a lower-case letter. *)
Fixpoint upper_case (s : string) : bool :=
  match s with
  | EmptyString => true
  | String c s' =>
      (nat_of_ascii c <? 128)%nat && negb (lowercase_letter c) && upper_case s'
  end.

(** The symbol of a netflow record is an ASCII string. *)
Definition ascii_record (r : NetflowRecord) : bool := isascii (token_symbol r).

(** The two symbols of a trade are ASCII strings. *)
Definition ascii_trade (t : TradeRecord) : bool :=
  isascii (token_bought_symbol t) && isascii (token_sold_symbol t).

(** All symbols of the fetched netflow records are ASCII strings. *)
Definition ascii_netflows (all_netflows : list (string * list NetflowRecord)) : bool :=
  forallb (fun cf => forallb ascii_record (snd cf)) all_netflows.

(** All symbols of the fetched trades are ASCII strings. *)
Definition ascii_trades (all_trades : list (string * list TradeRecord)) : bool :=
  forallb (fun ct => forallb ascii_trade (snd ct)) all_trades.

(** Every page that the API answers holds ASCII symbols only. *)
Definition ascii_api (api : Api) : Prop :=
  forall (chain : string) (k : Z),
    (forall data, netflow_endpoint api chain k = Some data ->
                  forallb ascii_record (page_data data) = true) /\
    (forall data, dex_trades_endpoint api chain k = Some data ->
                  forallb ascii_trade (page_data data) = true).

(* ------------------------------------------------------------------ *)
(** ** Order, groups and counts *)
(* ------------------------------------------------------------------ *)

(** No element is directly followed by one with a strictly larger key. *)
Inductive descending {A : Type} (key : A -> float) : list A -> Prop :=
| descending_nil : descending key []
| descending_one (x : A) : descending key [x]
| descending_cons (x y : A) (l : list A) :
    (key x <? key y)%float = false ->
    descending key (y :: l) ->
    descending key (x :: y :: l).

(** The signals of one symbol, in the order of the input. *)
Definition signals_of (sym : string) (l : list FlowSignal) : list FlowSignal :=
  filter (fun s => String.eqb (symbol s) sym) l.

(** The confidence after one more signal of the symbol, against the
    direction of the first. *)
Definition confidence_step (first_direction : string) (c : float) (s : FlowSignal)
  : float :=
  if String.eqb first_direction (direction s)
  then py_min (c + 0.2)%float 1.0
  else py_max (c - 0.3)%float 0.1.

(** One entry of [token_agg] as the first pass keeps it. *)
Definition agg_entry_ok (kv : string * TokenAgg) : Prop :=
  fst kv = (agg_symbol (snd kv) ++ "_" ++ agg_chain (snd kv))%string /\
  agg_symbol (snd kv) <> "" /\
  upper_case (agg_symbol (snd kv)) = true /\
  in_stables (agg_symbol (snd kv)) = false /\
  1 <= trades (snd kv).

(** A token symbol that the first pass counts: [sym and sym.upper() not in
    stables], for an ASCII symbol. *)
Definition counted_symbol (sym : string) : bool :=
  negb (String.eqb sym "") && negb (in_stables (upper sym)).

(** The number of sides of a trade that the first pass counts. *)
Definition counted_legs (trade : TradeRecord) : Z :=
  if truthy (float_or_0 (trade_value_usd trade)) then
    (if counted_symbol (token_bought_symbol trade) then 1 else 0)
    + (if counted_symbol (token_sold_symbol trade) then 1 else 0)
  else 0.

(** The sum of a list of integers. *)
Definition sum_Z (l : list Z) : Z := fold_right Z.add 0 l.

(** The key of a DEX signal in [token_agg]. *)
Definition signal_key (s : FlowSignal) : string :=
  (symbol s ++ "_" ++ chain s)%string.

(** The count a signal reports: the trades of a DEX signal, the traders
    of a netflow signal. *)
Definition trade_count_of (s : FlowSignal) : Z :=
  match detail s with
  | DexDetail _ _ n => n
  | NetflowDetail _ _ _ _ n => n
  end.

(** A signal as the two analysers emit it on the chains [chains]. *)
Definition signal_ok (chains : list string) (s : FlowSignal) : Prop :=
  In (chain s) chains /\
  symbol s <> "" /\
  upper_case (symbol s) = true /\
  (direction s = "LONG" \/ direction s = "SHORT") /\
  (source s = "nansen_smart_money_netflow" \/ source s = "nansen_smart_money_dex").

(** A merged record as [merge_signals] builds it from such signals. *)
Definition merged_ok (chains : list string) (m : MergedSignal) : Prop :=
  In (m_chain m) chains /\
  m_symbol m <> "" /\
  upper_case (m_symbol m) = true /\
  (m_direction m = "LONG" \/ m_direction m = "SHORT") /\
  m_sources m <> [] /\
  Forall (fun src => src = "nansen_smart_money_netflow" \/
                     src = "nansen_smart_money_dex") (m_sources m).

(** The items of the page [k] of an endpoint, none when the request
    raises. *)
Definition items_of {A : Type} (post : Z -> option (Page A)) (k : Z) : list A :=
  match post k with
  | Some data => page_data data
  | None => []
  end.

(** The request for page [k] is answered and the answer says that more
    pages follow. *)
Definition continues {A : Type} (post : Z -> option (Page A)) (k : Z) : Prop :=
  exists data, post k = Some data /\ last_page data = false.

(** The request for page [k] raises, or its answer is taken as the last
    page. *)
Definition stops {A : Type} (post : Z -> option (Page A)) (k : Z) : Prop :=
  post k = None \/ exists data, post k = Some data /\ last_page data = true.

(** No answered page of either endpoint holds more than [n] items. *)
Definition page_limit (api : Api) (chain : string) (n : nat) : Prop :=
  (forall k data, netflow_endpoint api chain k = Some data ->
                  (List.length (page_data data) <= n)%nat) /\
  (forall k data, dex_trades_endpoint api chain k = Some data ->
                  (List.length (page_data data) <= n)%nat).

(** An API that answers every netflow request with the same one-record
    page and says that more follow, and every trade request with an empty
    page and no pagination information. *)
Definition endless_api : Api :=
  mkApi (fun _ _ => Some (mkPage [dust_record] (Some (JBool false))))
        (fun _ _ => Some (mkPage [] None)).

(** An API on which every request raises. *)
Definition failing_api : Api := mkApi (fun _ _ => None) (fun _ _ => None).

(** What [token_agg] satisfies throughout the first pass. *)
Definition agg_invariant (d : list (string * TokenAgg)) : Prop :=
  NoDup (map fst d) /\ Forall agg_entry_ok d.

(** The trade counts of all entries together. *)
Definition total_trades (d : list (string * TokenAgg)) : Z :=
  sum_Z (map (fun kv => trades (snd kv)) d).

(** The entry that the signals of one symbol, in order, merge into. *)
Definition merge_group (g : list FlowSignal) : option MergedSignal :=
  match g with
  | [] => None
  | s :: rest => Some (fold_left (fun m s' => merge_into s' m) rest (merged_of s))
  end.

(** What the [merged] dictionary satisfies after the signals [l]. *)
Definition merged_invariant (l : list FlowSignal) (d : list (string * MergedSignal))
  : Prop :=
  NoDup (map fst d) /\
  (forall k, In k (map fst d) <-> In k (map symbol l)) /\
  (forall k m, In (k, m) d -> m_symbol m = k /\ merge_group (signals_of k l) = Some m).

(** The record that the conflicting signals of scenario 3 merge into. *)
Definition sol_conflict : MergedSignal :=
  merge_into (sol_dex "SHORT" 0.4) (merged_of (sol_netflow "LONG" 0.5)).

End NansenVocabulary.

(* ================================================================== *)
(** * Properties *)
(* ================================================================== *)

(* ------------------------------------------------------------------ *)
(** ** The numeric primitives on known values *)
(* ------------------------------------------------------------------ *)

Example int_true_div_values :
  int_true_div 1 3 = Some (1 / 3)%float /\
  int_true_div 249 1000000 = Some 0.000249%float /\
  int_true_div (2 ^ 53 + 1) 1 = Some 9007199254740992%float /\
  int_true_div (2 ^ 53 + 3) 1 = Some 9007199254740996%float /\
  int_true_div (10 ^ 400) (10 ^ 100) = Some 1e300%float /\
  int_true_div 0 (-5) = Some (-0)%float /\
  int_true_div (-7) 2 = Some (-3.5)%float /\
  int_true_div 1 0 = None.
Proof. repeat split; vm_compute; reflexivity. Qed.

(** The overflow test of [int_true_div] is the point where the rounding
    itself reaches infinity. *)
Example int_true_div_overflow :
  SF_ratio false (Z.to_pos overflow_threshold) 1 = S754_infinity false /\
  int_true_div overflow_threshold 1 = None /\
  int_true_div (overflow_threshold - 1) 1 = Some 0x1.fffffffffffffp+1023%float /\
  int_true_div (overflow_threshold * 1000000) 1000000 = None.
Proof. repeat split; vm_compute; reflexivity. Qed.

(** On small operands the true division is the division of doubles. *)
Example int_true_div_small :
  forallb (fun x => match int_true_div x 1000000 with
                    | Some f => PrimFloat.Leibniz.eqb f (Z2f x / 1000000)
                    | None => false
                    end)
          (map Z.of_nat (seq 0 500)) = true.
Proof. vm_compute. reflexivity. Qed.

Example py_round_values :
  py_round 0.125 2 = 0.12%float /\
  py_round 2.675 2 = 2.67%float /\
  py_round 0.285 2 = 0.28%float /\
  py_round 0.7999999999999999 2 = 0.8%float /\
  py_round 0.5333333333333333 2 = 0.53%float /\
  py_round 0.6666666666666666 3 = 0.667%float /\
  py_round 2.5 0 = 2%float /\
  py_round 3.5 0 = 4%float /\
  py_round (-0.004) 2 = (-0)%float /\
  py_round 1e300 2 = 1e300%float /\
  py_round infinity 2 = infinity.
Proof. repeat split; vm_compute; reflexivity. Qed.

Example py_int_values :
  py_int 2.5 = Some 2 /\ py_int (-2.5) = Some (-2) /\ py_int (-0.5) = Some 0 /\
  py_int 248.99999999999997 = Some 248 /\ py_int 1e15 = Some (10 ^ 15) /\
  py_int nan = None /\ py_int infinity = None.
Proof. repeat split; vm_compute; reflexivity. Qed.

Example float_of_int_values :
  float_of_int 86400 = Some 86400%float /\
  float_of_int (2 ^ 53 + 1) = Some 9007199254740992%float /\
  float_of_int (10 ^ 400) = None.
Proof. repeat split; vm_compute; reflexivity. Qed.

Example py_min_max_values :
  py_min 1.2 1 = 1%float /\ py_min 0.7 1 = 0.7%float /\
  py_max (-0.1) 0.1 = 0.1%float /\ py_max 0.6 0.1 = 0.6%float.
Proof. repeat split; vm_compute; reflexivity. Qed.

(** The sort is stable: equal keys keep their order. *)
Example sort_desc_stable :
  Nansen.sort_desc (fun p : string * float => snd p)
    [("a", 1%float); ("b", 3%float); ("c", 1%float); ("d", 3%float); ("e", 2%float)]
  = [("b", 3%float); ("d", 3%float); ("e", 2%float); ("a", 1%float); ("c", 1%float)].
Proof. vm_compute. reflexivity. Qed.

Example upper_value : Nansen.upper "wEth_9" = "WETH_9".
Proof. reflexivity. Qed.

(* ------------------------------------------------------------------ *)
(** ** The price verifier *)
(* ------------------------------------------------------------------ *)


Lemma verify_prediction_unfold (p : Prediction) (current entry tp sl : float) :
  micro_units (entry_price p) = Some entry ->
  micro_units (take_profit p) = Some tp ->
  micro_units (stop_loss p) = Some sl ->
  verify_prediction p current =
  Some (if String.eqb (effective_direction p) "LONG" then
          if geb current tp then "won"
          else if (current <=? sl)%float then "lost"
          else if gtb current entry then "won" else "lost"
        else
          if (current <=? tp)%float then "won"
          else if geb current sl then "lost"
          else if (current <? entry)%float then "won" else "lost").
Proof.
  intros He Ht Hs. unfold verify_prediction. rewrite He, Ht, Hs. reflexivity.
Qed.

Lemma verify_prediction_rows (p : Prediction) (current entry tp sl : float) :
  micro_units (entry_price p) = Some entry ->
  micro_units (take_profit p) = Some tp ->
  micro_units (stop_loss p) = Some sl ->
  exists outcome : string,
    verify_prediction p current = Some outcome /\
    (direction p = Some "LONG" -> long_rows current entry tp sl outcome) /\
    (direction p = Some "SHORT" -> short_rows current entry tp sl outcome).
Proof.
  intros He Ht Hs.
  rewrite (verify_prediction_unfold p current entry tp sl He Ht Hs).
  eexists. split; [reflexivity |].
  unfold effective_direction, long_rows, short_rows.
  split; intros Hd; rewrite Hd; cbn [String.eqb Ascii.eqb Bool.eqb];
    repeat split; intros;
    repeat match goal with H : _ = _ :> bool |- _ => rewrite H end;
    reflexivity.
Qed.

(** C1.  An active prediction that has expired and for which a reference
    price is obtained gets, as its status, the outcome of the decision
    table on the stored entry, take profit and stop loss divided by
    1,000,000: for LONG, won when the price is at or above the take profit,
    else lost when it is at or below the stop loss, else won when it is above
    the entry, else lost; for SHORT, won when the price is at or below the
    take profit, else lost when it is at or above the stop loss, else won
    when it is below the entry, else lost. *)
Theorem expired_prediction_outcome
  (hermes : Hermes) (clk : Clock) (p : Prediction)
  (current entry tp sl : float) (micro : Z) :
  status p = "active" ->
  (current_time clk <? expires_at p)%float = false ->
  get_pyth_price hermes (asset p) = Some current ->
  micro_units (entry_price p) = Some entry ->
  micro_units (take_profit p) = Some tp ->
  micro_units (stop_loss p) = Some sl ->
  py_int (current * 1000000)%float = Some micro ->
  exists outcome : string,
    verify_prediction p current = Some outcome /\
    process_prediction hermes clk p =
      Some (set_verified p outcome micro (utcnow_iso clk), true) /\
    (direction p = Some "LONG" -> long_rows current entry tp sl outcome) /\
    (direction p = Some "SHORT" -> short_rows current entry tp sl outcome).
Proof.
  intros Hst Hexp Hprice He Ht Hs Hint.
  destruct (verify_prediction_rows p current entry tp sl He Ht Hs)
    as (outcome & Hv & HL & HS).
  exists outcome. split; [exact Hv |]. split; [| split; assumption].
  unfold process_prediction. rewrite Hst, Hexp, Hprice, Hv, Hint. reflexivity.
Qed.

Lemma expired_prediction_outcome_witness :
  status scenario4 = "active" /\
  (current_time clock_2027 <? expires_at scenario4)%float = false /\
  get_pyth_price flat_feed (asset scenario4) = Some 105%float /\
  micro_units (entry_price scenario4) = Some 100%float /\
  micro_units (take_profit scenario4) = Some 110%float /\
  micro_units (stop_loss scenario4) = Some 90%float /\
  py_int (105 * 1000000)%float = Some 105000000 /\
  process_prediction flat_feed clock_2027 scenario4 =
    Some (set_verified scenario4 "won" 105000000 "2027-01-15T08:00:00", true).
Proof.
  do 7 (split; [reflexivity |]).
  destruct (expired_prediction_outcome flat_feed clock_2027 scenario4
              105 100 110 90 105000000
              eq_refl eq_refl eq_refl eq_refl eq_refl eq_refl eq_refl)
    as (outcome & _ & Hrun & HL & _).
  destruct (HL eq_refl) as (_ & _ & H3 & _).
  rewrite Hrun, (H3 eq_refl eq_refl eq_refl). reflexivity.
Defined.

Example scenario4_long : verify_prediction scenario4 105 = Some "won".
Proof. reflexivity. Qed.

Example scenario5_short : verify_prediction scenario5 112 = Some "lost".
Proof. reflexivity. Qed.




(* ------------------------------------------------------------------ *)
(** ** The ledger scans *)
(* ------------------------------------------------------------------ *)

Lemma mark_expired_terminal (t : float) (p : Prediction) :
  status p <> "active" -> mark_expired t p = p.
Proof.
  intros H. unfold mark_expired.
  apply String.eqb_neq in H. rewrite H. reflexivity.
Qed.

Lemma process_prediction_terminal (hermes : Hermes) (clk : Clock) (p : Prediction) :
  status p <> "active" -> process_prediction hermes clk p = Some (p, false).
Proof.
  intros H. unfold process_prediction.
  apply String.eqb_neq in H. rewrite H. reflexivity.
Qed.

Lemma process_loop_terminal (hermes : Hermes) (clk : Clock) :
  forall (ledger ledger' : list Prediction) (n : Z) (i : nat) (p : Prediction),
    process_loop hermes clk ledger = Some (ledger', n) ->
    nth_error ledger i = Some p ->
    status p <> "active" ->
    nth_error ledger' i = Some p.
Proof.
  induction ledger as [| q rest IH]; intros ledger' n i p Hrun Hnth Hst.
  - destruct i; discriminate.
  - simpl in Hrun.
    destruct (process_prediction hermes clk q) as [[q' c] |] eqn:Hq; [| discriminate].
    destruct (process_loop hermes clk rest) as [[rest' m] |] eqn:Hrest; [| discriminate].
    injection Hrun as <- _.
    destruct i as [| i]; simpl in *.
    + injection Hnth as ->.
      rewrite (process_prediction_terminal hermes clk p Hst) in Hq.
      congruence.
    + eapply IH; eauto.
Qed.

Lemma run_scan_terminal (s : Scan) (ledger : list Prediction) (i : nat) (p : Prediction) :
  nth_error ledger i = Some p ->
  status p <> "active" ->
  nth_error (run_scan s ledger) i = Some p.
Proof.
  intros Hnth Hst. destruct s as [t | hermes clk]; simpl.
  - unfold verify_predictions. rewrite nth_error_map, Hnth. simpl.
    now rewrite mark_expired_terminal.
  - unfold process_expired_predictions.
    destruct (process_loop hermes clk ledger) as [[ledger' n] |] eqn:Hrun; [| exact Hnth].
    eapply process_loop_terminal; eauto.
Qed.

(** C7.  A record whose status is not "active" (won, lost,
    needs_verification, needs_manual_verification, or any other string) is
    left exactly as it is, at its place in the ledger, by any sequence of
    expiry-marking and price-verification scans. *)
Theorem terminal_status_unchanged (ss : list Scan) :
  forall (ledger : list Prediction) (i : nat) (p : Prediction),
    nth_error ledger i = Some p ->
    status p <> "active" ->
    nth_error (run_scans ss ledger) i = Some p.
Proof.
  induction ss as [| s ss IH]; intros ledger i p Hnth Hst.
  - exact Hnth.
  - simpl. apply IH; [| exact Hst]. now apply run_scan_terminal.
Qed.

Lemma terminal_status_unchanged_witness :
  nth_error settled_ledger 1 = Some (set_status scenario5 "needs_verification") /\
  status (set_status scenario5 "needs_verification") <> "active" /\
  nth_error
    (run_scans [PriceScan flat_feed clock_2027; ExpiryScan 1800000000;
                PriceScan flat_feed clock_2027] settled_ledger) 1
  = Some (set_status scenario5 "needs_verification").
Proof.
  split; [reflexivity |].
  assert (H : status (set_status scenario5 "needs_verification") <> "active")
    by (simpl; discriminate).
  split; [exact H |].
  exact (terminal_status_unchanged _ settled_ledger 1 _ eq_refl H).
Defined.

Example scans_do_verify_active :
  map status (run_scans [PriceScan flat_feed clock_2027] settled_ledger)
  = ["won"; "needs_verification"; "won"].
Proof. vm_compute. reflexivity. Qed.

Lemma process_loop_app (hermes : Hermes) (clk : Clock) :
  forall (pre post : list Prediction),
    process_loop hermes clk (pre ++ post) =
    match process_loop hermes clk pre, process_loop hermes clk post with
    | Some (pre', n1), Some (post', n2) => Some (pre' ++ post', n1 + n2)
    | _, _ => None
    end.
Proof.
  induction pre as [| q pre IH]; intros post; simpl.
  - destruct (process_loop hermes clk post) as [[post' n2] |]; reflexivity.
  - destruct (process_prediction hermes clk q) as [[q' c] |]; [| reflexivity].
    rewrite IH.
    destruct (process_loop hermes clk pre) as [[pre' n1] |]; [| reflexivity].
    destruct (process_loop hermes clk post) as [[post' n2] |]; [| reflexivity].
    simpl. destruct c; f_equal; f_equal; lia.
Qed.

(** C8.  In the price-verification scan, an active record that has expired
    and whose asset has no obtainable price gets the status
    "needs_manual_verification" and keeps its (unset) result price and
    verification time; the records before and after it are processed
    exactly as they are without it. *)
Theorem no_price_needs_manual_verification
  (hermes : Hermes) (clk : Clock) (pre post : list Prediction) (p : Prediction) :
  status p = "active" ->
  (current_time clk <? expires_at p)%float = false ->
  get_pyth_price hermes (asset p) = None ->
  let p' := set_status p "needs_manual_verification" in
  process_expired_predictions hermes clk (pre ++ p :: post) =
    match process_expired_predictions hermes clk pre,
          process_expired_predictions hermes clk post with
    | Some (pre', n1), Some (post', n2) => Some (pre' ++ p' :: post', n1 + n2)
    | _, _ => None
    end /\
  status p' = "needs_manual_verification" /\
  result_price p' = result_price p /\
  verified_at p' = verified_at p.
Proof.
  intros Hst Hexp Hprice p'. split; [| repeat split].
  unfold process_expired_predictions. rewrite process_loop_app.
  destruct (process_loop hermes clk pre) as [[pre' n1] |]; [| reflexivity].
  simpl. unfold process_prediction. rewrite Hst, Hexp, Hprice. simpl.
  destruct (process_loop hermes clk post) as [[post' n2] |]; reflexivity.
Qed.

Lemma no_price_needs_manual_verification_witness :
  status uni_prediction = "active" /\
  (current_time clock_2027 <? expires_at uni_prediction)%float = false /\
  get_pyth_price flat_feed (asset uni_prediction) = None /\
  process_expired_predictions flat_feed clock_2027 [scenario5; uni_prediction; scenario4]
  = Some ([ set_verified scenario5 "lost" 105000000 "2027-01-15T08:00:00";
            set_status uni_prediction "needs_manual_verification";
            set_verified scenario4 "won" 105000000 "2027-01-15T08:00:00" ], 2).
Proof.
  do 3 (split; [reflexivity |]).
  destruct (no_price_needs_manual_verification flat_feed clock_2027
              [scenario5] [scenario4] uni_prediction eq_refl eq_refl eq_refl)
    as [H _].
  simpl app in H. rewrite H. vm_compute. reflexivity.
Defined.

(* ------------------------------------------------------------------ *)
(** ** Creation of a prediction *)
(* ------------------------------------------------------------------ *)

Lemma sequential_nil : sequential [].
Proof. intros [| i] q H; discriminate. Qed.

Lemma sequential_fresh (ledger : list Prediction) (q : Prediction) :
  sequential ledger -> In q ledger -> local_id q <> Z.of_nat (List.length ledger).
Proof.
  intros Hseq Hin. apply In_nth_error in Hin. destruct Hin as [i Hi].
  rewrite (Hseq i q Hi).
  assert (i < List.length ledger)%nat by (apply nth_error_Some; congruence).
  lia.
Qed.

Lemma sequential_snoc (ledger : list Prediction) (p : Prediction) :
  sequential ledger ->
  local_id p = Z.of_nat (List.length ledger) ->
  sequential (ledger ++ [p]).
Proof.
  intros Hseq Hid i q Hi.
  destruct (Nat.lt_ge_cases i (List.length ledger)) as [Hlt | Hge].
  - rewrite nth_error_app1 in Hi by exact Hlt. now apply Hseq.
  - rewrite nth_error_app2 in Hi by exact Hge.
    destruct (i - List.length ledger)%nat as [| k] eqn:Hk; simpl in Hi.
    + injection Hi as <-. rewrite Hid. f_equal. lia.
    + destruct k; discriminate.
Qed.

(** What [create_prediction_tx] appends, whatever the three clock readings
    are: whenever the three prices convert and the time frame fits a double,
    one record whose status is "active", whose expiry is the reading of
    [datetime.utcnow().timestamp()] plus [timeframe_hours * 3600], whose id
    is the length of the ledger, which no earlier record of a sequentially
    numbered ledger carries, and whose missing take profit or stop loss is
    the fixed-point encoding of the entry price times 1.05 or 0.95. *)
Lemma create_prediction_tx_spec
  (signal : Signal) (hours : Z) (clk : CreationClock) (ledger : list Prediction)
  (entry tp sl : Z) (span : float) :
  price_to_u64 (sig_price signal) = Some entry ->
  price_to_u64 (take_profit_input signal) = Some tp ->
  price_to_u64 (stop_loss_input signal) = Some sl ->
  float_of_int (hours * 3600) = Some span ->
  exists p : Prediction,
    create_prediction_tx signal hours clk ledger =
      Some (ledger ++ [p], mkMockTx (local_id p) (unix_seconds clk)) /\
    status p = "active" /\
    expires_at p = (created_timestamp clk + span)%float /\
    local_id p = Z.of_nat (List.length ledger) /\
    (sequential ledger ->
       (forall q, In q ledger -> local_id q <> local_id p) /\
       sequential (ledger ++ [p])) /\
    entry_price p = Some entry /\
    take_profit p = Some tp /\
    stop_loss p = Some sl /\
    (sig_take_profit_price signal = None ->
       price_to_u64 (sig_price signal * 1.05)%float = take_profit p) /\
    (sig_stop_loss_price signal = None ->
       price_to_u64 (sig_price signal * 0.95)%float = stop_loss p).
Proof.
  intros He Ht Hs Hspan.
  unfold create_prediction_tx, build_prediction.
  rewrite He, Ht, Hs, Hspan.
  exists (mkPrediction (sig_symbol signal) (Some (signal_direction signal))
            (Some entry) (Some tp) (Some sl) hours (created_iso clk)
            (created_timestamp clk + span)%float "active" (Some signal)
            (Z.of_nat (List.length ledger)) None None).
  cbn [status expires_at local_id entry_price take_profit stop_loss].
  repeat split; try reflexivity.
  - intros q Hq. now apply sequential_fresh.
  - now apply sequential_snoc.
  - intros Hnone. rewrite <- Ht. unfold take_profit_input. now rewrite Hnone.
  - intros Hnone. rewrite <- Hs. unfold stop_loss_input. now rewrite Hnone.
Qed.

Lemma create_prediction_tx_spec_witness :
  price_to_u64 (sig_price btc_signal) = Some 100000000 /\
  price_to_u64 (take_profit_input btc_signal) = Some 105000000 /\
  price_to_u64 (stop_loss_input btc_signal) = Some 95000000 /\
  float_of_int (24 * 3600) = Some 86400%float /\
  exists p : Prediction,
    create_prediction_tx btc_signal 24 creation_clock [] =
      Some ([p], mkMockTx 0 1767225600) /\
    status p = "active" /\
    expires_at p = 1767312000%float /\
    local_id p = 0 /\
    take_profit p = Some 105000000 /\
    stop_loss p = Some 95000000.
Proof.
  do 4 (split; [reflexivity |]).
  destruct (create_prediction_tx_spec btc_signal 24 creation_clock []
              100000000 105000000 95000000 86400
              eq_refl eq_refl eq_refl eq_refl)
    as (p & Hrun & Hst & Hexp & Hid & _ & _ & Htp & Hsl & _).
  exists p. rewrite Hid in Hrun. repeat split; assumption.
Defined.

(** C6 at the failing input.  On a machine whose zone is nine hours ahead
    of UTC, a prediction with a time frame of 24 hours created at the first
    instant of 2026 ([time.time()] reads 1767225600.0) is stored with the
    creation time "2026-01-01T00:00:00", status "active", id 0 and the
    default take profit and stop loss, but with the expiry 1767279600.0,
    which is fifteen hours after the creation, where the creation time plus
    24 * 3600 seconds is 1767312000.0: [datetime.utcnow().timestamp()] reads
    the UTC wall clock as local time.  The expiry scan fifteen hours after
    the creation marks the prediction as expired.  On a machine whose zone
    is UTC the expiry is 1767312000.0. *)
Theorem expiry_skewed_by_utc_offset :
  time_time new_year_2026 = 1767225600%float /\
  create_prediction_tx btc_signal 24
    (clock_readings nine_hours_ahead new_year_2026 new_year_2026 new_year_2026) []
  = Some ([skewed_prediction], mkMockTx 0 1767225600) /\
  expires_at skewed_prediction = (time_time new_year_2026 + 15 * 3600)%float /\
  (time_time new_year_2026 + 24 * 3600)%float = 1767312000%float /\
  expires_at skewed_prediction <> (time_time new_year_2026 + 24 * 3600)%float /\
  time_time fifteen_hours_later = (time_time new_year_2026 + 15 * 3600)%float /\
  verify_predictions (time_time fifteen_hours_later) [skewed_prediction]
  = [set_status skewed_prediction "needs_verification"] /\
  option_map (fun r => map expires_at (fst r))
    (create_prediction_tx btc_signal 24
       (clock_readings 0 new_year_2026 new_year_2026 new_year_2026) [])
  = Some [1767312000%float].
Proof.
  repeat split; try (vm_compute; reflexivity).
  vm_compute. intros H.
  assert (E : (1767279600 =? 1767312000)%float = true) by (rewrite H; reflexivity).
  vm_compute in E. discriminate.
Qed.

Example creation_clock_utc :
  clock_readings 0 new_year_2026 new_year_2026 new_year_2026 = creation_clock.
Proof. vm_compute. reflexivity. Qed.

(** Behind UTC the expiry is late: five hours behind, a time frame of 24
    hours expires 29 hours after the creation. *)
Example expiry_late_behind_utc :
  option_map (fun r => map expires_at (fst r))
    (create_prediction_tx btc_signal 24
       (clock_readings (-18000) new_year_2026 new_year_2026 new_year_2026) [])
  = Some [(1767225600 + 29 * 3600)%float].
Proof. vm_compute. reflexivity. Qed.

Example create_prediction_tx_btc :
  create_prediction_tx btc_signal 24 creation_clock [] =
    Some ([ mkPrediction "BTC" (Some "LONG") (Some 100000000) (Some 105000000)
              (Some 95000000) 24 "2026-01-01T00:00:00" 1767312000 "active"
              (Some btc_signal) 0 None None ],
          mkMockTx 0 1767225600).
Proof. vm_compute. reflexivity. Qed.

Lemma process_prediction_local_id (hermes : Hermes) (clk : Clock)
  (p p' : Prediction) (counted : bool) :
  process_prediction hermes clk p = Some (p', counted) -> local_id p' = local_id p.
Proof.
  unfold process_prediction.
  destruct (negb _); [intros [= <- _]; reflexivity |].
  destruct (_ <? _)%float; [intros [= <- _]; reflexivity |].
  destruct (get_pyth_price _ _); [| intros [= <- _]; reflexivity].
  destruct (verify_prediction _ _); [| discriminate].
  destruct (py_int _); [| discriminate].
  intros [= <- _]. reflexivity.
Qed.

Lemma process_loop_local_id (hermes : Hermes) (clk : Clock) :
  forall (ledger ledger' : list Prediction) (n : Z),
    process_loop hermes clk ledger = Some (ledger', n) ->
    map local_id ledger' = map local_id ledger.
Proof.
  induction ledger as [| q rest IH]; intros ledger' n Hrun; simpl in Hrun.
  - injection Hrun as <- _. reflexivity.
  - destruct (process_prediction hermes clk q) as [[q' c] |] eqn:Hq; [| discriminate].
    destruct (process_loop hermes clk rest) as [[rest' m] |] eqn:Hrest; [| discriminate].
    injection Hrun as <- _. simpl.
    rewrite (process_prediction_local_id _ _ _ _ _ Hq), (IH _ _ eq_refl).
    reflexivity.
Qed.

Lemma sequential_map (ledger ledger' : list Prediction) :
  map local_id ledger' = map local_id ledger ->
  sequential ledger -> sequential ledger'.
Proof.
  intros Hmap Hseq i q Hi.
  assert (H : nth_error (map local_id ledger') i = Some (local_id q))
    by (rewrite nth_error_map, Hi; reflexivity).
  rewrite Hmap, nth_error_map in H.
  destruct (nth_error ledger i) as [q0 |] eqn:Hq0; [| discriminate].
  injection H as <-. now apply Hseq.
Qed.

Lemma run_scan_sequential (s : Scan) (ledger : list Prediction) :
  sequential ledger -> sequential (run_scan s ledger).
Proof.
  destruct s as [t | hermes clk]; simpl.
  - apply sequential_map. unfold verify_predictions. rewrite map_map.
    apply map_ext. intros p. unfold mark_expired.
    destruct (negb _); [reflexivity |]. destruct (geb _ _); reflexivity.
  - unfold process_expired_predictions.
    destruct (process_loop hermes clk ledger) as [[ledger' n] |] eqn:Hrun; [| auto].
    apply sequential_map. eapply process_loop_local_id; eauto.
Qed.

(* ------------------------------------------------------------------ *)
(** ** Order facts on doubles *)
(* ------------------------------------------------------------------ *)

Lemma SFcompare_antisym (x y : spec_float) (c : comparison) :
  SFcompare x y = Some c -> SFcompare y x = Some (CompOpp c).
Proof.
  destruct x as [sx | sx | | sx mx ex], y as [sy | sy | | sy my ey]; simpl;
    try discriminate; intros [= <-]; f_equal;
    try (destruct sx; reflexivity); try (destruct sy; reflexivity);
    try (destruct sx, sy; reflexivity).
  destruct sx, sy; try reflexivity; rewrite (Z.compare_antisym ex ey);
    destruct (ex ?= ey); simpl; try reflexivity;
    rewrite (Pos.compare_cont_antisym mx my Eq); reflexivity.
Qed.

Lemma leb_true_ltb_false (x y : float) :
  (x <=? y)%float = true -> (y <? x)%float = false.
Proof.
  rewrite FloatAxioms.leb_spec, FloatAxioms.ltb_spec. unfold SFleb, SFltb.
  destruct (SFcompare (Prim2SF x) (Prim2SF y)) as [c |] eqn:E; [| discriminate].
  rewrite (SFcompare_antisym _ _ _ E).
  destruct c; simpl; congruence.
Qed.

Lemma ltb_true_not_nan_r (x y : float) :
  (x <? y)%float = true -> Prim2SF y <> S754_nan.
Proof.
  rewrite FloatAxioms.ltb_spec. unfold SFltb. intros H E. rewrite E in H.
  destruct (Prim2SF x); simpl in H; discriminate.
Qed.

Lemma ltb_false_leb_true (x y : float) :
  Prim2SF x <> S754_nan -> Prim2SF y <> S754_nan ->
  (x <? y)%float = false -> (y <=? x)%float = true.
Proof.
  rewrite FloatAxioms.leb_spec, FloatAxioms.ltb_spec. unfold SFleb, SFltb. intros Hx Hy.
  destruct (SFcompare (Prim2SF x) (Prim2SF y)) as [c |] eqn:E.
  - rewrite (SFcompare_antisym _ _ _ E). destruct c; simpl; congruence.
  - destruct (Prim2SF x), (Prim2SF y); simpl in E; congruence.
Qed.

(** A double at or above a positive constant is above zero. *)
Lemma leb_pos_ltb_zero (c t : float) :
  (0 <? c)%float = true -> (c <=? t)%float = true -> (0 <? t)%float = true.
Proof.
  rewrite !FloatAxioms.ltb_spec, FloatAxioms.leb_spec. unfold SFltb, SFleb.
  change (Prim2SF 0) with (S754_zero false).
  destruct (Prim2SF c) as [sc | sc | | sc mc ec], (Prim2SF t) as [st | st | | st mt et];
    simpl; try discriminate;
    try (destruct sc; discriminate);
    try (destruct sc, st; simpl; congruence);
    try (destruct st; simpl; congruence).
Qed.

Lemma const_not_nan (c : float) :
  (c =? c)%float = true -> Prim2SF c <> S754_nan.
Proof.
  rewrite FloatAxioms.eqb_spec. unfold SFeqb. intros H E. rewrite E in H. discriminate.
Qed.

(* ------------------------------------------------------------------ *)
(** ** Membership in the analysers' output *)
(* ------------------------------------------------------------------ *)

Section ListFacts.
Context {A B : Type}.

Lemma insert_desc_perm (key : A -> float) (x : A) (l : list A) :
  Permutation (x :: l) (Nansen.insert_desc key x l).
Proof.
  induction l as [| y l IH]; simpl.
  - apply Permutation_refl.
  - destruct (key x <? key y)%float.
    + eapply perm_trans; [apply perm_swap |]. now apply perm_skip.
    + apply Permutation_refl.
Qed.

Lemma sort_desc_perm (key : A -> float) (l : list A) :
  Permutation l (Nansen.sort_desc key l).
Proof.
  induction l as [| x l IH]; simpl.
  - apply perm_nil.
  - eapply perm_trans; [| apply insert_desc_perm]. now apply perm_skip.
Qed.

Lemma sort_desc_In (key : A -> float) (l : list A) (x : A) :
  In x (Nansen.sort_desc key l) <-> In x l.
Proof.
  split; apply Permutation_in;
    [apply Permutation_sym |]; apply sort_desc_perm.
Qed.

Lemma filter_map_In (f : A -> option B) (l : list A) (y : B) :
  In y (Nansen.filter_map f l) <-> exists x, In x l /\ f x = Some y.
Proof.
  induction l as [| a l IH]; simpl.
  - split; [tauto | intros (x & [] & _)].
  - destruct (f a) as [b |] eqn:E; simpl; rewrite IH; split.
    + intros [<- | (x & Hx & Hfx)]; eauto.
    + intros (x & [<- | Hx] & Hfx); [left; congruence | right; eauto].
    + intros (x & Hx & Hfx); eauto.
    + intros (x & [<- | Hx] & Hfx); [congruence | eauto].
Qed.

End ListFacts.

(* ------------------------------------------------------------------ *)
(** ** The flow normalizer and the trade aggregator *)
(* ------------------------------------------------------------------ *)

Section Analysers.
Import Nansen.

Lemma analyze_netflows_In (now : string)
  (all_netflows : list (string * list NetflowRecord)) (s : FlowSignal) :
  In s (analyze_netflows now all_netflows) <->
  exists chain flows r,
    In (chain, flows) all_netflows /\ In r flows /\
    netflow_signal now chain r = Some s.
Proof.
  unfold analyze_netflows. rewrite sort_desc_In, in_flat_map. split.
  - intros ([chain flows] & Hin & Hs). apply filter_map_In in Hs.
    destruct Hs as (r & Hr & Hsig). exists chain, flows, r. auto.
  - intros (chain & flows & r & Hin & Hr & Hsig).
    exists (chain, flows). split; [exact Hin |].
    apply filter_map_In. exists r. auto.
Qed.

Lemma analyze_dex_trades_In (now : string)
  (all_trades : list (string * list TradeRecord)) (s : FlowSignal) :
  In s (analyze_dex_trades now all_trades) <->
  exists key agg,
    In (key, agg) (aggregate_trades all_trades) /\ dex_signal now agg = Some s.
Proof.
  unfold analyze_dex_trades. rewrite sort_desc_In, filter_map_In. split.
  - intros ([key agg] & Hin & Hs). exists key, agg. auto.
  - intros (key & agg & Hin & Hs). exists (key, agg). auto.
Qed.

Lemma netflow_signal_flow (now chain : string) (r : NetflowRecord) (s : FlowSignal) :
  netflow_signal now chain r = Some s ->
  net_flow_usd s = py_round (primary_flow r) 2 /\
  (direction s = "LONG" <-> gtb (primary_flow r) 0 = true).
Proof.
  unfold netflow_signal.
  destruct (String.eqb _ _); [discriminate |].
  destruct (negb _); [discriminate |].
  destruct (_ || _); [| discriminate].
  intros [= <-]. simpl. split; [reflexivity |].
  destruct (gtb (primary_flow r) 0); split; congruence.
Qed.

Lemma dex_signal_flow (now : string) (agg : TokenAgg) (s : FlowSignal) :
  dex_signal now agg = Some s ->
  net_flow_usd s = py_round (buys agg - sells agg) 2 /\
  (direction s = "LONG" <-> gtb (buys agg - sells agg) 0 = true).
Proof.
  unfold dex_signal.
  destruct (_ <? _)%float; [discriminate |].
  destruct (_ || _); [| discriminate].
  intros [= <-]. simpl. split; [reflexivity |].
  destruct (gtb (buys agg - sells agg) 0); split; congruence.
Qed.

(** C4, as amended.  Every signal of either analyser comes from one record
    (one aggregation key); its direction is "LONG" exactly when the flow of
    that record before rounding -- the primary flow, or buys minus sells --
    is above zero, and its [net_flow_usd] is that flow rounded to two
    decimals. *)
Theorem direction_follows_unrounded_flow (now : string)
  (all_netflows : list (string * list NetflowRecord))
  (all_trades : list (string * list TradeRecord)) (s : FlowSignal) :
  (In s (analyze_netflows now all_netflows) ->
   exists chain flows r,
     In (chain, flows) all_netflows /\ In r flows /\
     netflow_signal now chain r = Some s /\
     net_flow_usd s = py_round (primary_flow r) 2 /\
     (direction s = "LONG" <-> gtb (primary_flow r) 0 = true)) /\
  (In s (analyze_dex_trades now all_trades) ->
   exists key agg,
     In (key, agg) (aggregate_trades all_trades) /\
     dex_signal now agg = Some s /\
     net_flow_usd s = py_round (buys agg - sells agg) 2 /\
     (direction s = "LONG" <-> gtb (buys agg - sells agg) 0 = true)).
Proof.
  split.
  - intros H. apply analyze_netflows_In in H.
    destruct H as (chain & flows & r & Hin & Hr & Hs).
    exists chain, flows, r. repeat split; auto; now apply (netflow_signal_flow _ _ _ _ Hs).
  - intros H. apply analyze_dex_trades_In in H.
    destruct H as (key & agg & Hin & Hs).
    exists key, agg. repeat split; auto; now apply (dex_signal_flow _ _ _ Hs).
Qed.

Example dust_is_emitted :
  analyze_netflows "2026-01-01T00:00:00+00:00" [("base", [dust_record])]
  = [dust_signal].
Proof. vm_compute. reflexivity. Qed.

(** C4 as stated fails: a LONG signal whose emitted flow is not above
    zero. *)
Lemma long_direction_zero_flow :
  ~ (forall now all_netflows s,
       In s (analyze_netflows now all_netflows) ->
       (direction s = "LONG" <-> gtb (net_flow_usd s) 0 = true)).
Proof.
  intros H.
  specialize (H "2026-01-01T00:00:00+00:00" [("base", [dust_record])] dust_signal).
  rewrite dust_is_emitted in H.
  destruct (H (or_introl eq_refl)) as [H1 _].
  specialize (H1 eq_refl). vm_compute in H1. discriminate.
Qed.

Lemma direction_follows_unrounded_flow_witness :
  In dust_signal
     (analyze_netflows "2026-01-01T00:00:00+00:00" [("base", [dust_record])]) /\
  exists chain flows r,
    In (chain, flows) [("base", [dust_record])] /\ In r flows /\
    net_flow_usd dust_signal = py_round (primary_flow r) 2 /\
    (direction dust_signal = "LONG" <-> gtb (primary_flow r) 0 = true).
Proof.
  assert (Hin : In dust_signal
     (analyze_netflows "2026-01-01T00:00:00+00:00" [("base", [dust_record])]))
    by (rewrite dust_is_emitted; left; reflexivity).
  split; [exact Hin |].
  destruct (direction_follows_unrounded_flow "2026-01-01T00:00:00+00:00"
              [("base", [dust_record])] [] dust_signal) as [H _].
  destruct (H Hin) as (chain & flows & r & H1 & H2 & _ & H4 & H5).
  exists chain, flows, r. auto.
Defined.

End Analysers.

Section TradeAggregator.
Import Nansen.

Lemma dex_signal_emits (now : string) (agg : TokenAgg) :
  (exists s, dex_signal now agg = Some s) <-> emits agg = true.
Proof.
  unfold dex_signal, emits, geb, gtb.
  set (total := (buys agg + sells agg)%float).
  destruct (total <? 5000)%float eqn:Hlt.
  - split; [intros (s & Hs); discriminate |].
    intros H. apply andb_prop in H. destruct H as [H _].
    apply leb_true_ltb_false in H. congruence.
  - destruct (0 <? total)%float eqn:Hpos.
    + assert (Hge : (5000 <=? total)%float = true).
      { apply ltb_false_leb_true; [| apply const_not_nan; reflexivity | exact Hlt].
        now apply (ltb_true_not_nan_r 0). }
      rewrite Hge. simpl andb.
      destruct ((0.6 <? buys agg / total)%float || (buys agg / total <? 0.4)%float).
      * split; [reflexivity | eauto].
      * split; [intros (s & Hs) |]; discriminate.
    + replace ((0.6 <? 0.5)%float || (0.5 <? 0.4)%float) with false by reflexivity.
      split; [intros (s & Hs); discriminate |].
      intros H. apply andb_prop in H. destruct H as [H _].
      apply (leb_pos_ltb_zero 5000) in H; [congruence | reflexivity].
Qed.

Lemma dex_signal_confidence (now : string) (agg : TokenAgg) (s : FlowSignal) :
  dex_signal now agg = Some s ->
  confidence s = py_round (raw_confidence agg) 2.
Proof.
  intros Hs.
  assert (He : emits agg = true) by (apply (dex_signal_emits now); eauto).
  unfold emits in He. apply andb_prop in He. destruct He as [Hge _].
  apply (leb_pos_ltb_zero 5000) in Hge; [| reflexivity].
  revert Hs. unfold dex_signal, raw_confidence, dex_conf, gtb. rewrite Hge.
  destruct (_ <? 5000)%float; [discriminate |].
  destruct (_ || _); [| discriminate].
  intros [= <-]. reflexivity.
Qed.

(** C5, as amended.  For every aggregation key a signal is emitted exactly
    when buys + sells is at least 5000 and the buy ratio buys / (buys +
    sells) is above 0.6 or below 0.4; the confidence of the emitted signal
    is min(|buy_ratio - 0.5| * 2 + 0.2, 1.0), plus 0.10 re-capped at 1.0 when
    the key has at least three trades, rounded to two decimals. *)
Theorem dex_signal_rule (now : string)
  (all_trades : list (string * list TradeRecord)) (key : string) (agg : TokenAgg) :
  In (key, agg) (aggregate_trades all_trades) ->
  ((exists s, In s (analyze_dex_trades now all_trades) /\
              dex_signal now agg = Some s)
   <-> emits agg = true) /\
  (forall s, dex_signal now agg = Some s ->
             confidence s = py_round (raw_confidence agg) 2).
Proof.
  intros Hin. split.
  - rewrite <- (dex_signal_emits now). split.
    + intros (s & _ & Hs). eauto.
    + intros (s & Hs). exists s. split; [| exact Hs].
      apply analyze_dex_trades_In. eauto.
  - intros s. apply dex_signal_confidence.
Qed.

Example two_thirds_aggregate :
  aggregate_trades two_thirds_trades =
  [("A_base", agg_A); ("B_base", mkTokenAgg "B" "base" 5000 10000 2)].
Proof. vm_compute. reflexivity. Qed.

Example two_thirds_signal :
  dex_signal "2026-01-01T00:00:00+00:00" agg_A = Some signal_A.
Proof. vm_compute. reflexivity. Qed.

(** C5 as stated fails: the emitted confidence is 0.53, the formula gives
    0.5333333333333333. *)
Lemma emitted_confidence_is_rounded :
  ~ (forall now all_trades key agg s,
       In (key, agg) (aggregate_trades all_trades) ->
       dex_signal now agg = Some s ->
       confidence s = raw_confidence agg).
Proof.
  intros H.
  specialize (H "2026-01-01T00:00:00+00:00" two_thirds_trades "A_base" agg_A signal_A).
  rewrite two_thirds_aggregate in H.
  specialize (H (or_introl eq_refl) two_thirds_signal).
  vm_compute in H.
  apply (f_equal (fun x => (x <? 0.531)%float)) in H.
  vm_compute in H. discriminate.
Qed.

Lemma dex_signal_rule_witness :
  In ("A_base", agg_A) (aggregate_trades two_thirds_trades) /\
  emits agg_A = true /\
  exists s, In s (analyze_dex_trades "2026-01-01T00:00:00+00:00" two_thirds_trades) /\
            dex_signal "2026-01-01T00:00:00+00:00" agg_A = Some s /\
            confidence s = py_round (raw_confidence agg_A) 2.
Proof.
  assert (Hin : In ("A_base", agg_A) (aggregate_trades two_thirds_trades))
    by (rewrite two_thirds_aggregate; left; reflexivity).
  split; [exact Hin |]. split; [reflexivity |].
  destruct (dex_signal_rule "2026-01-01T00:00:00+00:00" two_thirds_trades
              "A_base" agg_A Hin) as [[_ Hemit] Hconf].
  destruct (Hemit eq_refl) as (s & Hs1 & Hs2).
  exists s. auto.
Defined.

Example scenario2_virtual :
  option_map confidence
    (dex_signal "2026-01-01T00:00:00+00:00" (mkTokenAgg "VIRTUAL" "base" 8000 2000 4))
  = Some 0.9%float.
Proof. vm_compute. reflexivity. Qed.

End TradeAggregator.

Section FlowNormalizer.
Import Nansen.

(** C3 at the failing input.  With a zero 24h flow and negative 1h and 7d
    flows the emitted confidence is 0.80: both agreement increments are
    added although the 24h flow is zero, where the specification gives
    0.30 + 0.20 + 0.10 = 0.60. *)
Theorem zero_day_flow_counts_as_agreement :
  option_map confidence (netflow_signal "2026-01-01T00:00:00+00:00" "ethereum"
                           zero_day_record) = Some 0.8%float /\
  cents (spec_confidence_cents zero_day_record) = 0.6%float.
Proof. split; vm_compute; reflexivity. Qed.

(** The mirrored record gets no agreement increment: a zero 24h flow
    agrees with outflows only. *)
Example zero_day_inflow_confidence :
  option_map confidence (netflow_signal "2026-01-01T00:00:00+00:00" "ethereum"
                           zero_day_inflow) = Some 0.6%float /\
  cents (spec_confidence_cents zero_day_inflow) = 0.6%float.
Proof. split; vm_compute; reflexivity. Qed.

Example scenario1_uni :
  option_map (fun s => (direction s, confidence s))
    (netflow_signal "2026-01-01T00:00:00+00:00" "ethereum"
       (mkNetflowRecord "UNI" (Some 60000%float) (Some 10000%float)
          (Some 5000%float) (Some 0%float) (Some 4)))
  = Some ("LONG", 0.8%float).
Proof. vm_compute. reflexivity. Qed.

(** A double that is not a NaN is below, equal to or above zero. *)
Lemma sign_cases (x : float) :
  Prim2SF x <> S754_nan ->
  ((x <? 0)%float = true /\ (x =? 0)%float = false /\ (0 <? x)%float = false) \/
  ((x <? 0)%float = false /\ (x =? 0)%float = true /\ (0 <? x)%float = false) \/
  ((x <? 0)%float = false /\ (x =? 0)%float = false /\ (0 <? x)%float = true).
Proof.
  rewrite !FloatAxioms.ltb_spec, FloatAxioms.eqb_spec. unfold SFltb, SFeqb.
  change (Prim2SF 0) with (S754_zero false).
  destruct (Prim2SF x) as [s | s | | s m e]; simpl; try congruence;
    try (destruct s; auto); auto.
Qed.

Lemma agreement_test (a b : float) :
  Prim2SF a <> S754_nan -> Prim2SF b <> S754_nan -> truthy b = true ->
  agrees_with_day a b = same_sign a b.
Proof.
  intros Ha Hb Hnz. unfold truthy in Hnz.
  unfold agrees_with_day, same_sign, gtb, neb.
  destruct (sign_cases a Ha) as [(A1 & A2 & A3) | [(A1 & A2 & A3) | (A1 & A2 & A3)]];
    destruct (sign_cases b Hb) as [(B1 & B2 & B3) | [(B1 & B2 & B3) | (B1 & B2 & B3)]];
    rewrite ?A1, ?A2, ?A3, ?B1, ?B2, ?B3 in *; try reflexivity; discriminate.
Qed.

(** What the code computes, on every input: the emitted confidence is the
    two-decimal value of 0.30 plus the increments, capped at 1.0, with the
    code's agreement test. *)
Lemma netflow_confidence_formula
  (now chain : string) (r : NetflowRecord) (s : FlowSignal) :
  netflow_signal now chain r = Some s ->
  confidence s = cents (code_confidence_cents r) /\
  30 <= code_confidence_cents r <= 100.
Proof.
  intros Hs. unfold netflow_signal in Hs.
  destruct (String.eqb _ _); [discriminate |].
  destruct (negb _); [discriminate |].
  destruct (_ || _); [| discriminate].
  injection Hs as <-. cbn [confidence].
  unfold code_confidence_cents, netflow_conf.
  destruct (gtb (abs (primary_flow r)) 50000),
           (gtb (abs (primary_flow r)) 200000),
           (int_or_0 (trader_count r) >=? 3),
           (agrees_with_day (float_or_0 (net_flow_1h_usd r))
                            (float_or_0 (net_flow_24h_usd r))),
           (agrees_with_day (float_or_0 (net_flow_7d_usd r))
                            (float_or_0 (net_flow_24h_usd r)));
    (split; [vm_compute; reflexivity | lia]).
Qed.

Lemma netflow_confidence_on_grid
  (now chain : string) (r : NetflowRecord) (s : FlowSignal) :
  netflow_signal now chain r = Some s -> on_cent_grid (confidence s).
Proof.
  intros Hs. destruct (netflow_confidence_formula _ _ _ _ Hs) as [Hc Hk].
  exists (code_confidence_cents r). split; [lia | exact Hc].
Qed.

(** Away from the zero 24h flow the code and the specification agree: for
    every emitted record whose 24h flow is a non-zero number and whose 1h
    and 7d flows are numbers, the emitted confidence is the decimal
    0.30 plus the increments, capped at 1.0. *)
Lemma netflow_confidence_nonzero_day
  (now chain : string) (r : NetflowRecord) (s : FlowSignal) :
  netflow_signal now chain r = Some s ->
  truthy (float_or_0 (net_flow_24h_usd r)) = true ->
  Prim2SF (float_or_0 (net_flow_24h_usd r)) <> S754_nan ->
  Prim2SF (float_or_0 (net_flow_1h_usd r)) <> S754_nan ->
  Prim2SF (float_or_0 (net_flow_7d_usd r)) <> S754_nan ->
  confidence s = cents (spec_confidence_cents r).
Proof.
  intros Hs Hnz H24 H1 H7.
  destruct (netflow_confidence_formula _ _ _ _ Hs) as [-> _].
  unfold code_confidence_cents, spec_confidence_cents.
  now rewrite (agreement_test _ _ H1 H24 Hnz), (agreement_test _ _ H7 H24 Hnz).
Qed.

End FlowNormalizer.

(* ------------------------------------------------------------------ *)
(** ** The signal merger *)
(* ------------------------------------------------------------------ *)

Section Merger.
Import Nansen.

Lemma merge_two (s1 s2 : FlowSignal) :
  symbol s1 = symbol s2 ->
  merge_signals [s1] [s2] = [merge_into s2 (merged_of s1)].
Proof.
  intros Hsym. unfold merge_signals.
  cbn [app fold_left]. unfold merge_step at 2. cbn [dict_get app].
  unfold merge_step. cbn [dict_get]. rewrite <- Hsym, String.eqb_refl.
  cbn [dict_modify]. rewrite String.eqb_refl. reflexivity.
Qed.

Lemma forallb_range (f : Z -> bool) (n : nat) (k : Z) :
  forallb f (map Z.of_nat (seq 0 n)) = true ->
  0 <= k < Z.of_nat n -> f k = true.
Proof.
  intros H Hk. rewrite forallb_forall in H. apply H.
  apply in_map_iff. exists (Z.to_nat k). split; [lia |].
  apply in_seq. lia.
Qed.

Lemma cent_grid_bounds (k : Z) :
  0 <= k <= 100 -> boost_ok k = true /\ penalty_ok k = true.
Proof.
  intros Hk. split.
  - apply (forallb_range boost_ok 101); [vm_compute; reflexivity | lia].
  - apply (forallb_range penalty_ok 101); [vm_compute; reflexivity | lia].
Qed.

(** C2, as amended.  Merging two signals of one symbol gives one record
    with the direction of the first.  Its confidence is computed from the
    first signal's confidence [c] alone: min(c + 0.20, 1.0) when the
    directions agree, max(c - 0.30, 0.10) when they differ.  For a
    two-decimal [c] in [0, 1] the first is at least [c] and at most 1.0, the
    second at most c - 0.29 floored at 0.10 and at least 0.10. *)
Theorem merge_two_signals (s1 s2 : FlowSignal) :
  symbol s1 = symbol s2 ->
  exists m : MergedSignal,
    merge_signals [s1] [s2] = [m] /\
    m_direction m = direction s1 /\
    m_sources m = [source s1; source s2] /\
    (direction s1 = direction s2 ->
       m_confidence m = py_min (confidence s1 + 0.2)%float 1 /\
       (on_cent_grid (confidence s1) ->
          geb (m_confidence m) (confidence s1) = true /\
          (m_confidence m <=? 1)%float = true)) /\
    (direction s1 <> direction s2 ->
       m_confidence m = py_max (confidence s1 - 0.3)%float 0.1 /\
       (on_cent_grid (confidence s1) ->
          (m_confidence m <=? py_max (confidence s1 - 0.29)%float 0.1)%float = true /\
          (0.1 <=? m_confidence m)%float = true)).
Proof.
  intros Hsym. exists (merge_into s2 (merged_of s1)).
  split; [now apply merge_two |].
  unfold merge_into, merged_of. cbn [m_direction m_sources m_confidence app].
  split; [reflexivity |]. split; [reflexivity |]. split.
  - intros Hd. rewrite Hd, String.eqb_refl. split; [reflexivity |].
    intros (k & Hk & ->). destruct (cent_grid_bounds k Hk) as [Hb _].
    unfold boost_ok in Hb. now apply andb_prop in Hb.
  - intros Hd. apply String.eqb_neq in Hd. rewrite Hd. split; [reflexivity |].
    intros (k & Hk & ->). destruct (cent_grid_bounds k Hk) as [_ Hp].
    unfold penalty_ok in Hp. now apply andb_prop in Hp.
Qed.

Example scenario3_conflict :
  map (fun m => (m_direction m, m_confidence m))
    (merge_signals [sol_netflow "LONG" 0.5] [sol_dex "SHORT" 0.4])
  = [("LONG", 0.2%float)].
Proof. vm_compute. reflexivity. Qed.

(** C2 as stated fails on both sides: agreeing signals of confidence 0.30
    and 0.90 merge to 0.50, below the larger input; conflicting signals of
    confidence 0.90 and 0.30 merge to 0.60, above the smaller input. *)
Lemma merged_confidence_ignores_second :
  ~ (forall s1 s2 m,
       symbol s1 = symbol s2 ->
       merge_signals [s1] [s2] = [m] ->
       (direction s1 = direction s2 ->
          geb (m_confidence m)
              (py_min (py_max (confidence s1) (confidence s2)) 1) = true) /\
       (direction s1 <> direction s2 ->
          (m_confidence m <=?
             py_max (py_min (confidence s1) (confidence s2) - 0.29) 0.1)%float
          = true)).
Proof.
  intros H.
  destruct (H (sol_netflow "LONG" 0.3) (sol_dex "LONG" 0.9)
              (merge_into (sol_dex "LONG" 0.9) (merged_of (sol_netflow "LONG" 0.3)))
              eq_refl eq_refl) as [Hsame _].
  specialize (Hsame eq_refl). vm_compute in Hsame. discriminate.
Qed.

Example conflict_above_smaller_input :
  map m_confidence (merge_signals [sol_netflow "LONG" 0.9] [sol_dex "SHORT" 0.3])
  = [0.6000000000000001%float].
Proof. vm_compute. reflexivity. Qed.

Lemma merge_two_signals_witness :
  symbol (sol_netflow "LONG" 0.3) = symbol (sol_dex "LONG" 0.9) /\
  exists m : MergedSignal,
    merge_signals [sol_netflow "LONG" 0.3] [sol_dex "LONG" 0.9] = [m] /\
    m_confidence m = 0.5%float.
Proof.
  split; [reflexivity |].
  destruct (merge_two_signals (sol_netflow "LONG" 0.3) (sol_dex "LONG" 0.9) eq_refl)
    as (m & Hm & _ & _ & Hsame & _).
  exists m. split; [exact Hm |].
  destruct (Hsame eq_refl) as [Hc _]. rewrite Hc. reflexivity.
Defined.

End Merger.

(* ------------------------------------------------------------------ *)
(** ** The fixed-point encoding *)
(* ------------------------------------------------------------------ *)

Example round_trip_whole_price : round_trip 105000000 = Some 105000000.
Proof. vm_compute. reflexivity. Qed.

Example price_to_u64_truncates : price_to_u64 0.000249 = Some 248.
Proof. vm_compute. reflexivity. Qed.

Example round_trip_249 :
  micro_units (Some 249) = Some 0.000249%float /\
  (0.000249 * 1000000 <? 249)%float = true /\
  round_trip 249 = Some 248.
Proof. repeat split; vm_compute; reflexivity. Qed.

(** C9 as stated fails: the stored integer 249 decodes to the double
    nearest to 0.000249; that double times 1,000,000 is
    248.99999999999997, which truncates to 248. *)
Lemma round_trip_not_identity :
  ~ (forall x : Z, 0 <= x -> round_trip x = Some x).
Proof.
  intros H. specialize (H 249 ltac:(lia)).
  vm_compute in H. discriminate.
Qed.

(** *** Rounding in the standard library's binary64 specification

    The two roundings of the round trip are followed through
    [binary_round_aux]: in the normal range it keeps the 53 leading bits of
    its integer mantissa and adds at most one unit in the last place. *)

(** The digit count of the specification is the binary logarithm plus
    one. *)
Lemma digits2_pos_log2 (p : positive) :
  Zpos (digits2_pos p) = Z.log2 (Zpos p) + 1.
Proof.
  induction p as [p IH | p IH |]; simpl; try reflexivity.
  - destruct p; simpl in *; lia.
  - destruct p; simpl in *; lia.
Qed.

Lemma Zdigits2_bounds (m : Z) :
  0 < m -> 2 ^ (Zdigits2 m - 1) <= m < 2 ^ Zdigits2 m.
Proof.
  intros Hm. destruct m as [| p | p]; try lia.
  unfold Zdigits2. rewrite digits2_pos_log2.
  replace (Z.log2 (Zpos p) + 1 - 1) with (Z.log2 (Zpos p)) by lia.
  pose proof (Z.log2_spec (Zpos p) Hm). unfold Z.succ in *. lia.
Qed.

Lemma Zdigits2_unique (m d : Z) :
  2 ^ (d - 1) <= m < 2 ^ d -> 0 < d -> Zdigits2 m = d.
Proof.
  intros [Hlo Hhi] Hd.
  assert (Hm : 0 < m).
  { eapply Z.lt_le_trans; [| exact Hlo]. apply Z.pow_pos_nonneg; lia. }
  destruct m as [| p | p]; try lia.
  unfold Zdigits2. rewrite digits2_pos_log2.
  assert (Z.log2 (Zpos p) = d - 1); [| lia].
  apply Z.log2_unique; [lia |]. unfold Z.succ.
  replace (d - 1 + 1) with d by lia. lia.
Qed.

Lemma shr_1_m (mrs : shr_record) :
  0 <= shr_m mrs -> shr_m (shr_1 mrs) = shr_m mrs / 2.
Proof.
  destruct mrs as [m r s]. simpl. intros Hm.
  destruct m as [| [p | p |] | p]; simpl; try lia; try reflexivity.
  - rewrite Pos2Z.inj_xI. 
    replace (2 * Zpos p + 1) with (1 + Zpos p * 2) by lia.
    rewrite Z.div_add by lia. reflexivity.
  - rewrite Pos2Z.inj_xO. 
    replace (2 * Zpos p) with (Zpos p * 2) by lia.
    rewrite Z.div_mul by lia. reflexivity.
Qed.

(** Shifting a rounding record right by [n] bits divides its mantissa by
    [2^n]. *)
Lemma iter_shr_m (n : positive) : forall mrs : shr_record,
  0 <= shr_m mrs ->
  shr_m (iter_pos shr_1 n mrs) = shr_m mrs / 2 ^ Zpos n.
Proof.
  induction n as [n IH | n IH |]; intros mrs Hm; simpl iter_pos.
  - assert (H1 : 0 <= shr_m (shr_1 mrs)).
    { rewrite shr_1_m by exact Hm. apply Z.div_pos; lia. }
    assert (H2 : 0 <= shr_m (iter_pos shr_1 n (shr_1 mrs))).
    { rewrite IH by exact H1. apply Z.div_pos; [lia |]. apply Z.pow_pos_nonneg; lia. }
    rewrite IH by exact H2. rewrite IH by exact H1. rewrite shr_1_m by exact Hm.
    rewrite !Z.div_div by (try apply Z.pow_pos_nonneg; lia).
    f_equal.
    replace (Zpos n~1) with (1 + Zpos n + Zpos n) by lia.
    rewrite !Z.pow_add_r by lia. lia.
  - assert (H2 : 0 <= shr_m (iter_pos shr_1 n mrs)).
    { rewrite IH by exact Hm. apply Z.div_pos; [lia |]. apply Z.pow_pos_nonneg; lia. }
    rewrite IH by exact H2. rewrite IH by exact Hm.
    rewrite !Z.div_div by (try apply Z.pow_pos_nonneg; lia).
    f_equal.
    replace (Zpos n~0) with (Zpos n + Zpos n) by lia.
    rewrite !Z.pow_add_r by lia. lia.
  - now apply shr_1_m.
Qed.

Lemma shr_m_value (mrs : shr_record) (e n : Z) :
  0 <= shr_m mrs -> 0 <= n ->
  shr_m (fst (shr mrs e n)) = shr_m mrs / 2 ^ n /\ snd (shr mrs e n) = e + n.
Proof.
  intros Hm Hn. destruct n as [| p | p]; simpl; try lia.
  - rewrite Z.div_1_r. split; [reflexivity | lia].
  - split; [now apply iter_shr_m | reflexivity].
Qed.

Lemma shr_record_of_loc_m (m : Z) (l : location) :
  shr_m (shr_record_of_loc m l) = m.
Proof. destruct l as [| []]; reflexivity. Qed.

Lemma round_nearest_even_range (m : Z) (l : location) :
  round_nearest_even m l = m \/ round_nearest_even m l = m + 1.
Proof.
  destruct l as [| []]; simpl; auto. destruct (Z.even m); auto.
Qed.

Lemma div_pow2_digits (mx d : Z) :
  2 ^ (d - 1) <= mx < 2 ^ d -> 53 <= d ->
  2 ^ 52 <= mx / 2 ^ (d - 53) < 2 ^ 53.
Proof.
  intros [Hlo Hhi] Hd.
  assert (Hp : 0 < 2 ^ (d - 53)) by (apply Z.pow_pos_nonneg; lia).
  split.
  - apply Z.div_le_lower_bound; [exact Hp |].
    rewrite <- Z.pow_add_r by lia. now replace (d - 53 + 52) with (d - 1) by lia.
  - apply Z.div_lt_upper_bound; [exact Hp |].
    rewrite <- Z.pow_add_r by lia. now replace (d - 53 + 53) with d by lia.
Qed.

Lemma fexp_normal (k : Z) : -1074 <= k - 53 -> fexp prec emax k = k - 53.
Proof. unfold fexp, SpecFloat.emin, prec, emax. lia. Qed.

(** The rounding step on a mantissa of at least 53 bits, away from
    underflow and overflow: the result is a valid finite double; it is the
    mantissa shifted down to 53 bits, or that plus one, and a carry into
    2^53 is renormalised to 2^52 with the exponent one higher. *)
Lemma binary_round_aux_normal (sx : bool) (mx ex : Z) (lx : location) :
  0 < mx -> 53 <= Zdigits2 mx ->
  -1074 <= ex + (Zdigits2 mx - 53) -> ex + (Zdigits2 mx - 53) + 1 <= 971 ->
  exists (m : positive) (e m1 : Z),
    binary_round_aux prec emax sx mx ex lx = S754_finite sx m e /\
    bounded prec emax m e = true /\
    (m1 = mx / 2 ^ (Zdigits2 mx - 53) \/ m1 = mx / 2 ^ (Zdigits2 mx - 53) + 1) /\
    ((e = ex + (Zdigits2 mx - 53) /\ Zpos m = m1 /\ 2 ^ 52 <= m1 < 2 ^ 53) \/
     (e = ex + (Zdigits2 mx - 53) + 1 /\ Zpos m = 2 ^ 52 /\ m1 = 2 ^ 53)).
Proof.
  intros Hm Hd Hlo Hhi.
  pose proof (Zdigits2_bounds mx Hm) as Hdig.
  set (d := Zdigits2 mx) in *. set (n := d - 53) in *.
  pose proof (div_pow2_digits mx d Hdig Hd) as Hm'. fold n in Hm'.
  unfold binary_round_aux, shr_fexp. fold d.
  rewrite (fexp_normal (d + ex)) by lia.
  replace (d + ex - 53 - ex) with n by lia.
  destruct (shr_m_value (shr_record_of_loc mx lx) ex n) as [Hv He];
    [rewrite shr_record_of_loc_m; lia | lia |].
  rewrite shr_record_of_loc_m in Hv.
  destruct (shr (shr_record_of_loc mx lx) ex n) as [mrs' e']. simpl in Hv, He.
  subst e'. set (m' := shr_m mrs') in *. rewrite Hv in *. clearbody m'. subst m'.
  set (m' := mx / 2 ^ n) in *.
  destruct (round_nearest_even_range m' (loc_of_shr_record mrs')) as [Hr | Hr];
    rewrite Hr.
  - (* rounded down *)
    assert (Hd' : Zdigits2 m' = 53) by (apply Zdigits2_unique; simpl; lia).
    rewrite Hd'. rewrite (fexp_normal (53 + (ex + n))) by lia.
    replace (53 + (ex + n) - 53 - (ex + n)) with 0 by lia.
    simpl shr. unfold shr_m, shr_record_of_loc.
    destruct m' as [| p | p] eqn:Ep; try lia.
    replace (ex + n <=? emax - prec) with true
      by (symmetry; apply Z.leb_le; unfold emax, prec; lia).
    exists p, (ex + n), (Zpos p). split; [reflexivity |]. split; [| split].
    + unfold bounded, canonical_mantissa.
      change (Zpos (digits2_pos p)) with (Zdigits2 (Zpos p)). rewrite Hd'.
      rewrite (fexp_normal (53 + (ex + n))) by lia.
      apply andb_true_intro. split; [apply Z.eqb_eq; lia |].
      apply Z.leb_le. unfold emax, prec. lia.
    + left. reflexivity.
    + left. split; [reflexivity |]. split; [reflexivity | exact Hm'].
  - (* rounded up *)
    destruct (Z.eq_dec (m' + 1) (2 ^ 53)) as [Hc | Hc].
    + rewrite Hc.
      change (Zdigits2 (2 ^ 53)) with 54.
      rewrite (fexp_normal (54 + (ex + n))) by lia.
      replace (54 + (ex + n) - 53 - (ex + n)) with 1 by lia.
      simpl.
      replace (ex + n + 1 <=? 971) with true by (symmetry; apply Z.leb_le; lia).
      exists (Z.to_pos (2 ^ 52)), (ex + n + 1), (m' + 1).
      split; [reflexivity |]. split; [| split].
      * unfold bounded, canonical_mantissa.
        change (Zpos (digits2_pos (Z.to_pos (2 ^ 52)))) with 53.
        rewrite (fexp_normal (53 + (ex + n + 1))) by lia.
        apply andb_true_intro. split; [apply Z.eqb_eq; lia |].
        apply Z.leb_le. unfold emax, prec. lia.
      * right. exact Hc.
      * right. split; [reflexivity |]. split; [reflexivity | exact Hc].
    + assert (Hd' : Zdigits2 (m' + 1) = 53) by (apply Zdigits2_unique; simpl; lia).
      rewrite Hd'. rewrite (fexp_normal (53 + (ex + n))) by lia.
      replace (53 + (ex + n) - 53 - (ex + n)) with 0 by lia.
      simpl shr. unfold shr_m, shr_record_of_loc.
      destruct (m' + 1) as [| p | p] eqn:Ep; try lia.
      replace (ex + n <=? emax - prec) with true
        by (symmetry; apply Z.leb_le; unfold emax, prec; lia).
      exists p, (ex + n), (Zpos p). split; [reflexivity |]. split; [| split].
      * unfold bounded, canonical_mantissa.
        change (Zpos (digits2_pos p)) with (Zdigits2 (Zpos p)). rewrite Hd'.
        rewrite (fexp_normal (53 + (ex + n))) by lia.
        apply andb_true_intro. split; [apply Z.eqb_eq; lia |].
        apply Z.leb_le. unfold emax, prec. lia.
      * right. lia.
      * left. split; [reflexivity |]. split; [reflexivity |]. simpl in *; lia.
Qed.

Lemma Zdigits2_range (m a b : Z) :
  2 ^ a <= m < 2 ^ b -> 0 <= a -> a < Zdigits2 m <= b.
Proof.
  intros [Hlo Hhi] Ha.
  assert (Hm : 0 < m).
  { eapply Z.lt_le_trans; [| exact Hlo]. apply Z.pow_pos_nonneg; lia. }
  pose proof (Zdigits2_bounds m Hm) as [Hd1 Hd2].
  split.
  - destruct (Z_lt_le_dec a (Zdigits2 m)) as [H | H]; [exact H |].
    assert (0 <= Zdigits2 m).
    { destruct m; simpl; lia. }
    pose proof (Z.pow_le_mono_r 2 (Zdigits2 m) a ltac:(lia) H). lia.
  - destruct (Z_le_gt_dec (Zdigits2 m) b) as [H | H]; [exact H |].
    assert (0 <= b).
    { destruct (Z_le_gt_dec 0 b); [assumption |].
      rewrite (Z.pow_neg_r 2 b) in Hhi by lia. lia. }
    pose proof (Z.pow_le_mono_r 2 b (Zdigits2 m - 1) ltac:(lia) ltac:(lia)). lia.
Qed.

Lemma match_Zpos {A : Type} (t : Z) (a b c : A) :
  0 < t ->
  match t with Z0 => b | Zpos _ => a | Zneg _ => c end = a.
Proof. destruct t; lia || reflexivity. Qed.

(** The decoding step on a stored integer below 2^51. *)
Lemma SF_ratio_micro (x : positive) :
  Zpos x < 2 ^ 51 ->
  let t := 73 - Zdigits2 (Zpos x) in
  let X := Zpos x * 2 ^ t in
  let q := X / 1000000 in
  22 <= t <= 72 /\ 2 ^ 72 <= X < 2 ^ 73 /\
  exists (m : positive) (e n1 m1 : Z),
    SF_ratio false x 1000000 = S754_finite false m e /\
    bounded prec emax m e = true /\
    ((n1 = 0 /\ q < 2 ^ 53) \/ (n1 = 1 /\ 2 ^ 53 <= q)) /\
    (m1 = q / 2 ^ n1 \/ m1 = q / 2 ^ n1 + 1) /\
    ((e + t = n1 /\ Zpos m = m1 /\ 2 ^ 52 <= m1 < 2 ^ 53) \/
     (e + t = n1 + 1 /\ Zpos m = 2 ^ 52 /\ m1 = 2 ^ 53)).
Proof.
  intros Hx t X q.
  pose proof (Zdigits2_bounds (Zpos x) ltac:(lia)) as Hdx.
  assert (Hd1 : 0 < Zdigits2 (Zpos x) <= 51).
  { split; [simpl; lia |].
    apply (Zdigits2_range (Zpos x) 0 51); simpl in *; lia. }
  assert (Ht : 22 <= t <= 72) by (unfold t; lia).
  assert (HX : 2 ^ 72 <= X < 2 ^ 73).
  { unfold X.
    replace (2 ^ 72) with (2 ^ (Zdigits2 (Zpos x) - 1) * 2 ^ t)
      by (rewrite <- Z.pow_add_r by lia; f_equal; unfold t; lia).
    replace (2 ^ 73) with (2 ^ Zdigits2 (Zpos x) * 2 ^ t)
      by (rewrite <- Z.pow_add_r by lia; f_equal; unfold t; lia).
    assert (0 < 2 ^ t) by (apply Z.pow_pos_nonneg; lia).
    split; [apply Z.mul_le_mono_nonneg_r | apply Z.mul_lt_mono_pos_r]; lia. }
  split; [exact Ht |]. split; [exact HX |].
  assert (Hq : 2 ^ 52 <= q < 2 ^ 54).
  { unfold q. split.
    - apply Z.div_le_lower_bound; [lia |]. simpl in *; lia.
    - apply Z.div_lt_upper_bound; [lia |]. simpl in *; lia. }
  pose proof (Zdigits2_range q 52 54 Hq ltac:(lia)) as Hdq.
  unfold SF_ratio, SFdiv_core_binary.
  change (Zdigits2 (Zpos 1000000)) with 20.
  assert (He' : Z.min (fexp prec emax (Zdigits2 (Zpos x) + 0 - (20 + 0))) (0 - 0)
                = - t).
  { unfold fexp, SpecFloat.emin, prec, emax, t. lia. }
  rewrite He'. replace (0 - 0 - - t) with t by lia.
  rewrite match_Zpos by lia.
  rewrite Z.shiftl_mul_pow2 by lia.
  change (IntDef.Z.div_eucl (Zpos x * 2 ^ t) 1000000) with (Z.div_eucl X 1000000).
  destruct (Z.div_eucl X 1000000) as [q' r] eqn:Ediv.
  assert (Hq' : q' = q) by (unfold q, Z.div; rewrite Ediv; reflexivity).
  subst q'.
  destruct (binary_round_aux_normal false q (- t)
              (new_location 1000000 r)) as (m & e & m1 & Hres & Hb & Hm1 & Hme);
    try lia.
  exists m, e, (Zdigits2 q - 53), m1.
  split; [exact Hres |]. split; [exact Hb |]. split; [| split; [exact Hm1 |]].
  - destruct (Z.eq_dec (Zdigits2 q) 53) as [E | E].
    + left. split; [lia |].
      pose proof (Zdigits2_bounds q ltac:(simpl in *; lia)) as Hb2.
      rewrite E in Hb2. lia.
    + right. split; [lia |].
      pose proof (Zdigits2_bounds q ltac:(simpl in *; lia)) as Hb2.
      replace (Zdigits2 q) with 54 in Hb2 by lia. simpl in *. lia.
  - destruct Hme as [(He & Hm & Hr) | (He & Hm & Hr)]; [left | right];
      (split; [lia | split; assumption]).
Qed.

Ltac close_pow :=
  repeat match goal with
         | |- context [2 ^ ?k] =>
             let v := eval vm_compute in (2 ^ k) in
             progress change (2 ^ k) with v
         | H : context [2 ^ ?k] |- _ =>
             let v := eval vm_compute in (2 ^ k) in
             progress change (2 ^ k) with v in H
         end.

Section RoundTripArithmetic.
#[local] Ltac Zify.zify_post_hook ::= Z.to_euclidean_division_equations.

(** The integer arithmetic of the two roundings.  [X] is the stored integer
    scaled into [2^72, 2^73) and [T] the scale; [q], [m1], [m] follow the
    division, [P], [m12], [m2] the multiplication, every branch of the two
    roundings included.  The product stays within one scaled unit of [X]. *)
Lemma round_trip_arith (X T q n1 m1 m ea P n2 m12 m2 c : Z) :
  2 ^ 72 <= X < 2 ^ 73 -> 2 ^ 22 <= T ->
  q = X / 1000000 ->
  (n1 = 0 /\ q < 2 ^ 53) \/ (n1 = 1 /\ 2 ^ 53 <= q) ->
  m1 = q / 2 ^ n1 \/ m1 = q / 2 ^ n1 + 1 ->
  (ea = n1 /\ m = m1 /\ 2 ^ 52 <= m1 < 2 ^ 53) \/
  (ea = n1 + 1 /\ m = 2 ^ 52 /\ m1 = 2 ^ 53) ->
  P = m * million_mantissa ->
  (n2 = 52 /\ P < 2 ^ 105) \/ (n2 = 53 /\ 2 ^ 105 <= P) ->
  m12 = P / 2 ^ n2 \/ m12 = P / 2 ^ n2 + 1 ->
  (c = ea - 33 + n2 /\ m2 = m12 /\ 2 ^ 52 <= m12 < 2 ^ 53) \/
  (c = ea - 33 + n2 + 1 /\ m2 = 2 ^ 52 /\ m12 = 2 ^ 53) ->
  19 <= c <= 21 /\ X - T < m2 * 2 ^ c < X + T /\ 2 ^ 52 <= m2.
Proof.
  intros HX HT Hq Hn1 Hm1 Hea HP Hn2 Hm12 Hc. unfold million_mantissa in HP.
  destruct Hn1 as [[-> Hq1] | [-> Hq1]];
  destruct Hea as [(-> & Hm & Hmr) | (-> & Hm & Hmr)];
  destruct Hn2 as [[-> HP1] | [-> HP1]];
  destruct Hc as [(-> & Hm2 & Hm2r) | (-> & Hm2 & Hm2r)];
  destruct Hm1 as [Hm1 | Hm1];
  destruct Hm12 as [Hm12 | Hm12];
  close_pow; lia.
Qed.
End RoundTripArithmetic.

(** The decoding step in terms of the specification of the division. *)
Lemma micro_units_pos (x : positive) :
  Zpos x < 2 ^ 51 ->
  micro_units (Some (Zpos x)) = Some (SF2Prim (SF_ratio false x 1000000)).
Proof.
  intros Hx. unfold micro_units, int_true_div, int_or_0.
  replace (overflow_threshold * Z.abs 1000000 <=? Z.abs (Zpos x)) with false.
  - reflexivity.
  - symmetry. apply Z.leb_gt. simpl Z.abs.
    eapply Z.lt_le_trans; [exact Hx |]. vm_compute. discriminate.
Qed.

(** The encoding step on a valid positive double [m * 2^e]: through the
    specification of the multiplication, the product with 1000000.0 is
    rounded from [m * million_mantissa] and then truncated. *)
Lemma price_to_u64_finite (m : positive) (e : Z) :
  bounded prec emax m e = true ->
  2 ^ 52 <= Zpos m < 2 ^ 53 ->
  -1000 <= e <= 900 ->
  exists (m2 : positive) (e2 n2 m12 : Z),
    price_to_u64 (SF2Prim (S754_finite false m e)) = Some (Z.shiftl (Zpos m2) e2) /\
    ((n2 = 52 /\ Zpos m * million_mantissa < 2 ^ 105) \/
     (n2 = 53 /\ 2 ^ 105 <= Zpos m * million_mantissa)) /\
    (m12 = Zpos m * million_mantissa / 2 ^ n2 \/
     m12 = Zpos m * million_mantissa / 2 ^ n2 + 1) /\
    ((e2 = e - 33 + n2 /\ Zpos m2 = m12 /\ 2 ^ 52 <= m12 < 2 ^ 53) \/
     (e2 = e - 33 + n2 + 1 /\ Zpos m2 = 2 ^ 52 /\ m12 = 2 ^ 53)).
Proof.
  intros Hb Hm He.
  unfold price_to_u64, py_int.
  change (Z2f PRICE_MULTIPLIER) with 1000000%float.
  rewrite FloatAxioms.mul_spec.
  rewrite Prim2SF_SF2Prim by exact Hb.
  change (Prim2SF 1000000) with (S754_finite false 8589934592000000 (-33)).
  unfold SF64mul, SFmul. change (xorb false false) with false.
  change (Zpos (m * 8589934592000000)) with (Zpos m * million_mantissa).
  set (P := Zpos m * million_mantissa).
  assert (HP : 2 ^ 104 <= P < 2 ^ 106)
    by (unfold P, million_mantissa; simpl in *; lia).
  pose proof (Zdigits2_range P 104 106 HP ltac:(lia)) as HdP.
  destruct (binary_round_aux_normal false P (e + -33) loc_Exact)
    as (m2 & e2 & m12 & Hres & _ & Hm12 & Hme); try lia.
  rewrite Hres.
  exists m2, e2, (Zdigits2 P - 53), m12.
  split; [reflexivity |]. split; [| split; [exact Hm12 |]].
  - pose proof (Zdigits2_bounds P ltac:(lia)) as Hb2.
    destruct (Z.eq_dec (Zdigits2 P) 105) as [E | E].
    + left. split; [lia |]. rewrite E in Hb2. lia.
    + right. split; [lia |].
      replace (Zdigits2 P) with 106 in Hb2 by lia. simpl in *. lia.
  - destruct Hme as [(He2 & Hm2 & Hr) | (He2 & Hm2 & Hr)]; [left | right];
      (split; [lia | split; assumption]).
Qed.

(** C9, as amended.  For every stored integer [x] with [0 <= x < 2^51],
    dividing by 1,000,000 and encoding the quotient again (multiply by
    1,000,000, truncate) returns, and what it returns is [x] or [x - 1]. *)
Theorem round_trip_within_one (x : Z) :
  0 <= x < 2 ^ 51 ->
  round_trip x = Some x \/ round_trip x = Some (x - 1).
Proof.
  intros [Hx0 Hx]. destruct x as [| x | x]; try lia.
  - left. vm_compute. reflexivity.
  - unfold round_trip. rewrite micro_units_pos by exact Hx.
    destruct (SF_ratio_micro x Hx)
      as (Ht & HX & m & e & n1 & m1 & Hres & Hb & Hn1 & Hm1 & Hme).
    set (t := 73 - Zdigits2 (Zpos x)) in *.
    set (X := Zpos x * 2 ^ t) in *.
    rewrite Hres.
    assert (Hm : 2 ^ 52 <= Zpos m < 2 ^ 53).
    { destruct Hme as [(_ & -> & Hr) | (_ & -> & _)]; simpl in *; lia. }
    assert (He : -1000 <= e <= 900)
      by (destruct Hn1 as [[-> _] | [-> _]];
          destruct Hme as [(He & _) | (He & _)]; lia).
    destruct (price_to_u64_finite m e Hb Hm He)
      as (m2 & e2 & n2 & m12 & Hrun & Hn2 & Hm12 & Hme2).
    rewrite Hrun.
    assert (HT : 2 ^ 22 <= 2 ^ t) by (apply Z.pow_le_mono_r; lia).
    destruct (round_trip_arith X (2 ^ t) (X / 1000000) n1 m1 (Zpos m) (e + t)
                (Zpos m * million_mantissa) n2 m12 (Zpos m2) (e2 + t))
      as (Hc & Hval & Hm2); try assumption; try reflexivity.
    { destruct Hme2 as [(He2 & H1 & H2) | (He2 & H1 & H2)]; [left | right];
        (split; [lia | split; assumption]). }
    set (c := e2 + t) in *.
    assert (Hsh : Z.shiftl (Zpos m2) e2 = Zpos m2 / 2 ^ (t - c)).
    { replace e2 with (- (t - c)) by (unfold c; lia).
      rewrite Z.shiftl_opp_r, Z.shiftr_div_pow2 by lia. reflexivity. }
    rewrite Hsh.
    set (K := 2 ^ (t - c)).
    assert (HK : 0 < K) by (apply Z.pow_pos_nonneg; lia).
    assert (HC : 0 < 2 ^ c) by (apply Z.pow_pos_nonneg; lia).
    assert (HTK : 2 ^ t = K * 2 ^ c).
    { unfold K. rewrite <- Z.pow_add_r by lia. f_equal. lia. }
    unfold X in Hval. rewrite HTK in Hval.
    assert (Hlo : (Zpos x - 1) * K < Zpos m2).
    { apply (Z.mul_lt_mono_pos_r (2 ^ c)); [exact HC |]. lia. }
    assert (Hhi : Zpos m2 < (Zpos x + 1) * K).
    { apply (Z.mul_lt_mono_pos_r (2 ^ c)); [exact HC |]. lia. }
    assert (H1 : Zpos x - 1 <= Zpos m2 / K)
      by (apply Z.div_le_lower_bound; lia).
    assert (H2 : Zpos m2 / K < Zpos x + 1)
      by (apply Z.div_lt_upper_bound; lia).
    destruct (Z.eq_dec (Zpos m2 / K) (Zpos x)) as [E | E];
      [left | right]; f_equal; lia.
Qed.

Lemma round_trip_within_one_witness :
  0 <= 1001 < 2 ^ 51 /\
  (round_trip 1001 = Some 1001 \/ round_trip 1001 = Some (1001 - 1)).
Proof.
  assert (H : 0 <= 1001 < 2 ^ 51) by (split; [lia | reflexivity]).
  split; [exact H |]. exact (round_trip_within_one 1001 H).
Defined.

(* ================================================================== *)
(** * The ledger file over the runs of the two programs *)
(* ================================================================== *)

(* ------------------------------------------------------------------ *)
(** ** The price scan, record by record *)
(* ------------------------------------------------------------------ *)

Lemma verify_prediction_decides (p : Prediction) (current : float) (r : string) :
  verify_prediction p current = Some r -> r = "won" \/ r = "lost".
Proof.
  unfold verify_prediction.
  destruct (micro_units (entry_price p)); [| discriminate].
  destruct (micro_units (take_profit p)); [| discriminate].
  destruct (micro_units (stop_loss p)); [| discriminate].
  intros [= <-].
  repeat match goal with |- context [if ?b then _ else _] => destruct b end; auto.
Qed.


Lemma process_prediction_step (hermes : Hermes) (clk : Clock)
  (p p' : Prediction) (b : bool) :
  process_prediction hermes clk p = Some (p', b) -> price_step hermes clk p p' b.
Proof.
  unfold process_prediction.
  destruct (String.eqb (status p) "active") eqn:Hst; simpl.
  2: { intros [= <- <-]. apply step_skip. left. now apply String.eqb_neq. }
  apply String.eqb_eq in Hst.
  destruct (current_time clk <? expires_at p)%float eqn:Hexp.
  { intros [= <- <-]. apply step_skip. now right. }
  destruct (get_pyth_price hermes (asset p)) as [price |] eqn:Hprice.
  2: { intros [= <- <-]. now apply step_manual. }
  destruct (verify_prediction p price) as [r |] eqn:Hr; [| discriminate].
  destruct (py_int (price * 1000000)%float) as [micro |] eqn:Hm; [| discriminate].
  intros [= <- <-]. eapply step_decide; eauto.
  eapply verify_prediction_decides; eauto.
Qed.

Lemma process_loop_cons (hermes : Hermes) (clk : Clock)
  (p : Prediction) (rest ledger' : list Prediction) (n : Z) :
  process_loop hermes clk (p :: rest) = Some (ledger', n) ->
  exists p' b rest' m,
    price_step hermes clk p p' b /\
    process_loop hermes clk rest = Some (rest', m) /\
    ledger' = p' :: rest' /\ n = (if b then m + 1 else m).
Proof.
  simpl.
  destruct (process_prediction hermes clk p) as [[p' b] |] eqn:Hp; [| discriminate].
  destruct (process_loop hermes clk rest) as [[rest' m] |]; [| discriminate].
  intros [= <- <-]. exists p', b, rest', m.
  repeat split. now apply process_prediction_step.
Qed.

Lemma count_status_cons (s : string) (p : Prediction) (l : list Prediction) :
  count_status s (p :: l) =
  (if String.eqb (status p) s then 1 else 0) + count_status s l.
Proof.
  unfold count_status. cbn [filter].
  destruct (String.eqb (status p) s); cbn [List.length]; lia.
Qed.

(** Decides the comparisons of literal strings in the goal. *)
Ltac decide_literals :=
  repeat match goal with
         | |- context [String.eqb ?a ?b] =>
             let v := eval vm_compute in (String.eqb a b) in
             match v with
             | true => change (String.eqb a b) with true
             | false => change (String.eqb a b) with false
             end
         end;
  cbv iota.

Lemma count_status_nonneg (s : string) (l : list Prediction) : 0 <= count_status s l.
Proof. unfold count_status. lia. Qed.

(** X1.  A price scan that completes keeps the length of the ledger; the
    count it returns is the number of records that it decided, which is the
    growth of the won and lost counts together; the records it could not
    price went from "active" to "needs_manual_verification", so the active
    and manual counts together drop by exactly the returned count; and the
    "needs_verification" count is untouched. *)
Theorem price_scan_accounting (hermes : Hermes) (clk : Clock) :
  forall (ledger ledger' : list Prediction) (n : Z),
    process_expired_predictions hermes clk ledger = Some (ledger', n) ->
    List.length ledger' = List.length ledger /\
    n = count_decided ledger' - count_decided ledger /\
    0 <= n <= count_status "active" ledger /\
    count_status "active" ledger' + count_status "needs_manual_verification" ledger' + n
    = count_status "active" ledger + count_status "needs_manual_verification" ledger /\
    count_status "needs_verification" ledger' = count_status "needs_verification" ledger.
Proof.
  unfold process_expired_predictions, count_decided.
  induction ledger as [| p rest IH]; intros ledger' n Hrun.
  - simpl in Hrun. injection Hrun as <- <-. unfold count_status. simpl. lia.
  - apply process_loop_cons in Hrun.
    destruct Hrun as (p' & b & rest' & m & Hstep & Hrest & -> & ->).
    destruct (IH _ _ Hrest) as (Hlen & Hn & Hle & Hsum & Hnv).
    rewrite !count_status_cons. cbn [List.length].
    destruct Hstep as [Hskip | Hst Hexp Hprice | price r micro Hst Hexp Hprice Hr Hwl Hm].
    + cbv iota.
      repeat match goal with |- context [if ?c then _ else _] => destruct c end; lia.
    + cbn [set_status status]. rewrite Hst. decide_literals. lia.
    + cbn [set_verified status]. rewrite Hst.
      destruct Hwl as [-> | ->]; decide_literals; lia.
Qed.

Lemma price_scan_accounting_witness :
  process_expired_predictions flat_feed clock_2027 three_expired = Some (three_priced, 2) /\
  List.length three_priced = List.length three_expired /\
  2 = count_decided three_priced - count_decided three_expired /\
  0 <= 2 <= count_status "active" three_expired /\
  count_status "active" three_priced
    + count_status "needs_manual_verification" three_priced + 2
  = count_status "active" three_expired
    + count_status "needs_manual_verification" three_expired /\
  count_status "needs_verification" three_priced
  = count_status "needs_verification" three_expired.
Proof.
  split; [reflexivity |].
  exact (price_scan_accounting flat_feed clock_2027 three_expired three_priced 2 eq_refl).
Defined.

Lemma price_step_settled (hermes : Hermes) (clk : Clock) (p p' : Prediction) (b : bool) :
  price_step hermes clk p p' b ->
  status p' = "active" -> (current_time clk <? expires_at p')%float = true.
Proof.
  intros [[Hna | Hexp] | Hst Hexp Hprice | price r micro Hst Hexp Hprice Hr Hwl Hm];
    cbn [set_status set_verified status expires_at]; intros H.
  - contradiction.
  - exact Hexp.
  - discriminate.
  - destruct Hwl; subst r; discriminate.
Qed.

Lemma process_loop_settled (hermes : Hermes) (clk : Clock) :
  forall (ledger ledger' : list Prediction) (n : Z),
    process_loop hermes clk ledger = Some (ledger', n) ->
    Forall (fun p' => status p' = "active" ->
                      (current_time clk <? expires_at p')%float = true) ledger'.
Proof.
  induction ledger as [| p rest IH]; intros ledger' n Hrun.
  - simpl in Hrun. injection Hrun as <- _. constructor.
  - apply process_loop_cons in Hrun.
    destruct Hrun as (p' & b & rest' & m & Hstep & Hrest & -> & _).
    constructor; [eapply price_step_settled; eauto | eapply IH; eauto].
Qed.

Lemma process_loop_nothing_due (hermes : Hermes) (clk : Clock) :
  forall ledger : list Prediction,
    Forall (fun p => status p = "active" ->
                     (current_time clk <? expires_at p)%float = true) ledger ->
    process_loop hermes clk ledger = Some (ledger, 0).
Proof.
  induction 1 as [| p rest Hp _ IH]; [reflexivity |].
  simpl. rewrite IH. unfold process_prediction.
  destruct (String.eqb (status p) "active") eqn:Hst; simpl; [| reflexivity].
  apply String.eqb_eq in Hst. now rewrite (Hp Hst).
Qed.

(** X2.  After a price scan that completes, every record that is still
    "active" is one the scan found unexpired; hence a second scan at the
    same clock time, on any price feed, verifies nothing and leaves the
    ledger as the first scan saved it. *)
Theorem price_scan_settles (hermes : Hermes) (clk : Clock)
  (ledger ledger' : list Prediction) (n : Z) :
  process_expired_predictions hermes clk ledger = Some (ledger', n) ->
  (forall p', In p' ledger' -> status p' = "active" ->
              (current_time clk <? expires_at p')%float = true) /\
  (forall (hermes2 : Hermes) (clk2 : Clock),
     current_time clk2 = current_time clk ->
     process_expired_predictions hermes2 clk2 ledger' = Some (ledger', 0)).
Proof.
  unfold process_expired_predictions. intros Hrun.
  pose proof (process_loop_settled _ _ _ _ _ Hrun) as Hall.
  split.
  - intros p' Hin. rewrite Forall_forall in Hall. now apply Hall.
  - intros hermes2 clk2 Hclk. apply process_loop_nothing_due.
    rewrite Hclk. exact Hall.
Qed.

Lemma price_scan_settles_witness :
  process_expired_predictions flat_feed clock_2027 three_expired = Some (three_priced, 2) /\
  (forall p', In p' three_priced -> status p' = "active" ->
              (current_time clock_2027 <? expires_at p')%float = true) /\
  (forall (hermes2 : Hermes) (clk2 : Clock),
     current_time clk2 = current_time clock_2027 ->
     process_expired_predictions hermes2 clk2 three_priced = Some (three_priced, 0)).
Proof.
  split; [reflexivity |].
  exact (price_scan_settles flat_feed clock_2027 three_expired three_priced 2 eq_refl).
Defined.

(** The two expiry tests, [current_time >= expires_at] in [oracle.py] and
    [not current_time < expires_at] in [verifier.py], agree on numbers. *)
Lemma expiry_tests_agree (t e : float) :
  is_number t = true -> is_number e = true ->
  geb t e = negb (t <? e)%float.
Proof.
  unfold is_number, geb. intros Ht He.
  apply const_not_nan in Ht. apply const_not_nan in He.
  destruct (t <? e)%float eqn:Hlt; simpl.
  - destruct (e <=? t)%float eqn:Hle; [| reflexivity].
    apply leb_true_ltb_false in Hle. congruence.
  - now apply ltb_false_leb_true.
Qed.

(** They differ on a record whose expiry time is a NaN: the expiry scan
    never marks it, the price scan always takes it as expired. *)
Example expiry_tests_differ_on_nan :
  geb 1800000000 nan = false /\ (1800000000 <? nan)%float = false.
Proof. split; reflexivity. Qed.

(** X3.  Once the expiry scan of [oracle.py] has run at time [t], a price
    scan of [verifier.py] at the same time [t] finds nothing to verify: the
    expired records are "needs_verification", which the price scan skips,
    so it returns 0 and saves the ledger unchanged, whatever the feed
    answers.  (Times are numbers, not NaN.) *)
Theorem expiry_scan_preempts_price_scan (t : float) (ledger : list Prediction)
  (hermes : Hermes) (clk : Clock) :
  is_number t = true ->
  forallb (fun p => is_number (expires_at p)) ledger = true ->
  current_time clk = t ->
  process_expired_predictions hermes clk (verify_predictions t ledger)
  = Some (verify_predictions t ledger, 0).
Proof.
  intros Ht Hall Hclk. unfold process_expired_predictions.
  apply process_loop_nothing_due. rewrite Hclk.
  unfold verify_predictions. apply Forall_map. apply Forall_forall.
  intros p Hin. rewrite forallb_forall in Hall. specialize (Hall p Hin).
  unfold mark_expired.
  destruct (String.eqb (status p) "active") eqn:Hst; simpl.
  2: { intros H. apply String.eqb_neq in Hst. contradiction. }
  rewrite (expiry_tests_agree t (expires_at p) Ht Hall).
  destruct (t <? expires_at p)%float eqn:Hlt; simpl; [intros _; exact Hlt | discriminate].
Qed.

Lemma expiry_scan_preempts_price_scan_witness :
  is_number 1800000000 = true /\
  forallb (fun p => is_number (expires_at p)) three_expired = true /\
  current_time clock_2027 = 1800000000%float /\
  process_expired_predictions flat_feed clock_2027
    (verify_predictions 1800000000 three_expired)
  = Some (verify_predictions 1800000000 three_expired, 0).
Proof.
  do 3 (split; [reflexivity |]).
  exact (expiry_scan_preempts_price_scan 1800000000 three_expired flat_feed clock_2027
           eq_refl eq_refl eq_refl).
Defined.

(* ------------------------------------------------------------------ *)
(** ** New signals *)
(* ------------------------------------------------------------------ *)

Lemma build_prediction_fields (signal : Signal) (hours : Z) (clk : CreationClock)
  (id : Z) (p : Prediction) :
  build_prediction signal hours clk id = Some p ->
  asset p = sig_symbol signal /\
  direction p = Some (signal_direction signal) /\
  entry_price p <> None /\ take_profit p <> None /\ stop_loss p <> None /\
  timeframe_hours p = hours /\ created_at p = created_iso clk /\
  status p = "active" /\ local_id p = id /\
  result_price p = None /\ verified_at p = None.
Proof.
  unfold build_prediction.
  destruct (price_to_u64 (sig_price signal)); [| discriminate].
  destruct (price_to_u64 (take_profit_input signal)); [| discriminate].
  destruct (price_to_u64 (stop_loss_input signal)); [| discriminate].
  destruct (float_of_int (hours * 3600)); [| discriminate].
  intros [= <-]. simpl. repeat split; discriminate.
Qed.

Lemma create_prediction_tx_inv (signal : Signal) (hours : Z) (clk : CreationClock)
  (ledger ledger' : list Prediction) (tx : MockTx) :
  create_prediction_tx signal hours clk ledger = Some (ledger', tx) ->
  exists p,
    build_prediction signal hours clk (Z.of_nat (List.length ledger)) = Some p /\
    ledger' = ledger ++ [p] /\
    tx = mkMockTx (Z.of_nat (List.length ledger)) (unix_seconds clk).
Proof.
  unfold create_prediction_tx.
  destruct (build_prediction _ _ _ _) as [p |]; [| discriminate].
  intros [= <- <-]. exists p. auto.
Qed.


Lemma create_each_appends :
  forall (actionable : list (ActionableSignal * CreationClock))
         (ledger : list Prediction) (tx_sigs : list MockTx),
  exists created : list Prediction,
    fst (create_each actionable ledger tx_sigs) = ledger ++ created /\
    (forall k p, nth_error created k = Some p ->
                 created_for actionable (List.length ledger) k p) /\
    match snd (create_each actionable ledger tx_sigs) with
    | Some all_sigs =>
        List.length created = List.length actionable /\
        exists new_sigs, all_sigs = tx_sigs ++ new_sigs /\
                         map tx_local_id new_sigs = map local_id created
    | None =>
        exists sc,
          nth_error actionable (List.length created) = Some sc /\
          (format_prediction_for_display (fst sc) = None \/
           create_prediction_tx (act_signal (fst sc)) 24 (snd sc) (ledger ++ created)
           = None)
    end.
Proof.
  induction actionable as [| [signal clk] rest IH]; intros ledger tx_sigs.
  - exists []. simpl. rewrite app_nil_r. split; [reflexivity |]. split.
    + intros [| k] p H; discriminate.
    + split; [reflexivity |]. exists []. now rewrite app_nil_r.
  - simpl.
    destruct (format_prediction_for_display signal) as [[] |] eqn:Hshow.
    2: { exists []. simpl. rewrite app_nil_r. split; [reflexivity |]. split.
         - intros [| k] p H; discriminate.
         - exists (signal, clk). auto. }
    destruct (create_prediction_tx (act_signal signal) 24 clk ledger)
      as [[ledger' tx] |] eqn:Hc.
    + apply create_prediction_tx_inv in Hc. destruct Hc as (p & Hb & -> & ->).
      apply build_prediction_fields in Hb.
      destruct Hb as (Ha & _ & _ & _ & _ & Hh & Hc & Hs & Hid & _).
      destruct (IH (ledger ++ [p]) (tx_sigs ++ [mkMockTx (Z.of_nat (List.length ledger))
                                                   (unix_seconds clk)]))
        as (created & Hfst & Hrec & Hsnd).
      exists (p :: created). split; [| split].
      * rewrite Hfst, <- app_assoc. reflexivity.
      * intros [| k] q Hq; simpl in Hq.
        -- injection Hq as <-. exists (signal, clk). simpl.
           rewrite Nat.add_0_r. auto 10.
        -- destruct (Hrec k q Hq) as (sc & Hn & H0 & H1 & H2 & H3 & H4 & H5).
           exists sc. simpl. rewrite H5. rewrite length_app. simpl.
           repeat split; auto. f_equal. lia.
      * destruct (snd (create_each rest _ _)) as [all_sigs |].
        -- destruct Hsnd as (Hlen & new_sigs & -> & Hids). split; [simpl; lia |].
           exists (mkMockTx (Z.of_nat (List.length ledger)) (unix_seconds clk) :: new_sigs).
           rewrite <- app_assoc. simpl. rewrite Hids, Hid. auto.
        -- destruct Hsnd as (sc & Hn & Hnone). exists sc. simpl.
           rewrite <- app_assoc in Hnone. auto.
    + exists []. simpl. rewrite app_nil_r. split; [reflexivity |]. split.
      * intros [| k] p H; discriminate.
      * exists (signal, clk). auto.
Qed.

(** X4.  [process_new_signals] only appends to the ledger.  The records it
    adds are, in the order of the actionable signals, one per signal up to
    the first whose display or creation raises: each is "active", has the
    time frame 24, the asset and creation time of its signal, which was
    displayed, and the id that is its position in the ledger.  When no call
    raises there is one record and one signature per signal, the signatures
    carrying the ids of the records; when one raises, it is the display or
    the creation of the next signal, and the records created before it are
    on file. *)
Theorem process_new_signals_appends
  (actionable : list (ActionableSignal * CreationClock)) (ledger : list Prediction) :
  exists created : list Prediction,
    fst (process_new_signals actionable ledger) = ledger ++ created /\
    (forall k p, nth_error created k = Some p ->
                 created_for actionable (List.length ledger) k p) /\
    match snd (process_new_signals actionable ledger) with
    | Some tx_sigs =>
        List.length created = List.length actionable /\
        map tx_local_id tx_sigs = map local_id created
    | None =>
        exists sc,
          nth_error actionable (List.length created) = Some sc /\
          (format_prediction_for_display (fst sc) = None \/
           create_prediction_tx (act_signal (fst sc)) 24 (snd sc) (ledger ++ created)
           = None)
    end.
Proof.
  destruct (create_each_appends actionable ledger []) as (created & Hfst & Hrec & Hsnd).
  assert (E : process_new_signals actionable ledger = create_each actionable ledger [])
    by (destruct actionable; reflexivity).
  rewrite E. exists created. split; [exact Hfst |]. split; [exact Hrec |].
  destruct (snd (create_each actionable ledger [])) as [all_sigs |]; [| exact Hsnd].
  destruct Hsnd as (Hlen & new_sigs & -> & Hids). auto.
Qed.

(** A creation that raises on a NaN price, and a display that raises on a
    [null] ratio, each after one signal was created: the later signal is
    never reached. *)
Example process_new_signals_partial :
  map asset (fst (process_new_signals
                    [(plain eth_signal, creation_clock); (plain nan_signal, creation_clock);
                     (plain btc_signal, creation_clock)] [scenario4]))
  = ["BTC"; "ETH"] /\
  snd (process_new_signals
         [(plain eth_signal, creation_clock); (plain nan_signal, creation_clock);
          (plain btc_signal, creation_clock)] [scenario4]) = None /\
  map asset (fst (process_new_signals
                    [(plain eth_signal, creation_clock);
                     (null_ratio btc_signal, creation_clock);
                     (plain btc_signal, creation_clock)] [scenario4]))
  = ["BTC"; "ETH"] /\
  snd (process_new_signals
         [(plain eth_signal, creation_clock);
          (null_ratio btc_signal, creation_clock);
          (plain btc_signal, creation_clock)] [scenario4]) = None.
Proof. repeat split; vm_compute; reflexivity. Qed.

(* ------------------------------------------------------------------ *)
(** ** Invariants of the ledger file *)
(* ------------------------------------------------------------------ *)

Section LedgerInvariant.
Variable Inv : list Prediction -> Prop.
Hypothesis Inv_create :
  forall signal clk ledger ledger' tx,
    Inv ledger -> create_prediction_tx signal 24 clk ledger = Some (ledger', tx) ->
    Inv ledger'.
Hypothesis Inv_expiry : forall t ledger, Inv ledger -> Inv (verify_predictions t ledger).
Hypothesis Inv_price :
  forall hermes clk ledger ledger' n,
    Inv ledger -> process_expired_predictions hermes clk ledger = Some (ledger', n) ->
    Inv ledger'.

Lemma create_each_invariant :
  forall (actionable : list (ActionableSignal * CreationClock))
         (ledger : list Prediction) (tx_sigs : list MockTx),
    Inv ledger -> Inv (fst (create_each actionable ledger tx_sigs)).
Proof.
  induction actionable as [| [signal clk] rest IH]; intros ledger tx_sigs HI; simpl.
  - exact HI.
  - destruct (format_prediction_for_display signal); [| exact HI].
    destruct (create_prediction_tx (act_signal signal) 24 clk ledger)
      as [[ledger' tx] |] eqn:Hc.
    + apply IH. eapply Inv_create; eauto.
    + exact HI.
Qed.

Lemma after_run_invariant (r : Run) (ledger : list Prediction) :
  Inv ledger -> Inv (after_run r ledger).
Proof.
  intros HI. destruct r as [actionable t | hermes clk]; simpl.
  - unfold Oracle.main.
    assert (E : process_new_signals actionable ledger = create_each actionable ledger [])
      by (destruct actionable; reflexivity).
    rewrite E.
    pose proof (create_each_invariant actionable ledger [] HI) as H1.
    destruct (create_each actionable ledger []) as [ledger1 [tx_sigs |]]; simpl in *.
    + destruct (get_oracle_stats _); simpl; now apply Inv_expiry.
    + exact H1.
  - unfold Verifier.main.
    destruct (process_expired_predictions hermes clk ledger) as [[ledger' n] |] eqn:Hp.
    + destruct (get_verification_stats ledger'); simpl; eapply Inv_price; eauto.
    + exact HI.
Qed.

Lemma after_runs_invariant : Inv [] -> forall rs : list Run, Inv (after_runs rs).
Proof.
  intros H0 rs. unfold after_runs. generalize (@nil Prediction) H0.
  induction rs as [| r rs IH]; intros ledger HI; simpl.
  - exact HI.
  - apply IH. now apply after_run_invariant.
Qed.

End LedgerInvariant.

Lemma sequential_NoDup (ledger : list Prediction) :
  sequential ledger -> NoDup (map local_id ledger).
Proof.
  intros Hseq. apply NoDup_nth_error. intros i j Hi Hij.
  rewrite length_map in Hi. rewrite !nth_error_map in Hij.
  destruct (nth_error ledger i) as [q |] eqn:Hq.
  2: { apply nth_error_None in Hq. lia. }
  destruct (nth_error ledger j) as [q' |] eqn:Hq'; [| discriminate].
  simpl in Hij. injection Hij as Hij.
  rewrite (Hseq _ _ Hq), (Hseq _ _ Hq') in Hij. lia.
Qed.

(** X5.  Whatever runs of [oracle.py] and [verifier.py] have written the
    ledger file, starting with no file: the record at position [i] has the
    id [i], so no two records share an id, also after runs in which a
    creation or a price scan raised. *)
Theorem ledger_ids_are_positions (rs : list Run) :
  sequential (after_runs rs) /\ NoDup (map local_id (after_runs rs)).
Proof.
  assert (H : sequential (after_runs rs)).
  { apply after_runs_invariant.
    - intros signal clk ledger ledger' tx HI Hc.
      apply create_prediction_tx_inv in Hc. destruct Hc as (p & Hb & -> & _).
      apply sequential_snoc; [exact HI |].
      now apply build_prediction_fields in Hb.
    - intros t ledger. exact (run_scan_sequential (ExpiryScan t) ledger).
    - intros hermes clk ledger ledger' n HI Hp.
      pose proof (run_scan_sequential (PriceScan hermes clk) ledger HI) as H.
      simpl in H. now rewrite Hp in H.
    - exact sequential_nil. }
  split; [exact H | now apply sequential_NoDup].
Qed.

Lemma mark_expired_well_formed (t : float) (p : Prediction) :
  well_formed p -> well_formed (mark_expired t p).
Proof.
  unfold mark_expired.
  destruct (String.eqb (status p) "active") eqn:Hst; simpl; [| auto].
  destruct (geb t (expires_at p)); [| auto].
  apply String.eqb_eq in Hst.
  unfold well_formed, decided. cbn [set_status status direction entry_price take_profit
    stop_loss timeframe_hours result_price verified_at].
  rewrite Hst. intros (_ & Hd & He & Ht & Hs & Hh & Hr & Hv).
  repeat split; auto; try (simpl; tauto);
    try (intros [H | H]; discriminate);
    intros H; [apply Hr in H | apply Hv in H]; destruct H; discriminate.
Qed.

Lemma price_step_well_formed (hermes : Hermes) (clk : Clock) (p p' : Prediction) (b : bool) :
  price_step hermes clk p p' b -> well_formed p -> well_formed p'.
Proof.
  intros [Hskip | Hst Hexp Hprice | price r micro Hst Hexp Hprice Hr Hwl Hm]; [auto | |];
    unfold well_formed, decided;
    cbn [set_status set_verified status direction entry_price take_profit
         stop_loss timeframe_hours result_price verified_at];
    rewrite Hst; intros (_ & Hd & He & Ht & Hs & Hh & Hrp & Hv).
  - repeat split; auto; try (simpl; tauto);
      try (intros [H | H]; discriminate);
      intros H; [apply Hrp in H | apply Hv in H]; destruct H; discriminate.
  - repeat split; auto; try discriminate.
    destruct Hwl; subst r; simpl; tauto.
Qed.

Lemma after_runs_well_formed (rs : list Run) :
  Forall well_formed (after_runs rs).
Proof.
  apply after_runs_invariant.
  - intros signal clk ledger ledger' tx HI Hc.
    apply create_prediction_tx_inv in Hc. destruct Hc as (p & Hb & -> & _).
    apply Forall_app. split; [exact HI |]. constructor; [| constructor].
    apply build_prediction_fields in Hb.
    destruct Hb as (_ & Hd & He & Ht & Hs & Hh & _ & Hst & _ & Hr & Hv).
    unfold well_formed, decided. rewrite Hst, Hd, Hr, Hv.
    repeat split; auto; try (simpl; tauto);
      try (intros [H | H]; discriminate); try (intros H; now contradiction H).
    unfold signal_direction. destruct (sig_signal signal) as [[| [p0 | p0 |] |] |]; auto.
  - intros t ledger HI. unfold verify_predictions. apply Forall_map.
    eapply Forall_impl; [| exact HI]. intros p. apply mark_expired_well_formed.
  - intros hermes clk. unfold process_expired_predictions.
    induction ledger as [| p rest IH]; intros ledger' n HI Hrun.
    + simpl in Hrun. injection Hrun as <- _. constructor.
    + apply process_loop_cons in Hrun.
      destruct Hrun as (p' & b & rest' & m & Hstep & Hrest & -> & _).
      inversion HI as [| ? ? Hp Hrest']; subst.
      constructor; [eapply price_step_well_formed; eauto | eapply IH; eauto].
  - constructor.
Qed.

(** X6.  Every record of a ledger file written by runs of the two programs
    has one of the five statuses active, needs_verification,
    needs_manual_verification, won and lost; it has a direction LONG or
    SHORT, its three prices and the time frame 24, so the defaults that
    [verify_prediction] reads for absent keys are never used on it; and it
    carries a result price, and a verification time, exactly when its
    status is won or lost. *)
Theorem ledger_records_well_formed (rs : list Run) (p : Prediction) :
  In p (after_runs rs) -> well_formed p.
Proof.
  intros Hin. pose proof (after_runs_well_formed rs) as H.
  rewrite Forall_forall in H. now apply H.
Qed.

Lemma ledger_records_well_formed_witness :
  In btc_decided (after_runs sample_runs) /\ well_formed btc_decided.
Proof.
  assert (H : In btc_decided (after_runs sample_runs))
    by (vm_compute; left; reflexivity).
  split; [exact H |].
  exact (ledger_records_well_formed sample_runs btc_decided H).
Defined.

Example sample_runs_ledger :
  map (fun p => (asset p, status p, local_id p)) (after_runs sample_runs)
  = [("BTC", "won", 0); ("ETH", "needs_manual_verification", 1)].
Proof. vm_compute. reflexivity. Qed.

(* ------------------------------------------------------------------ *)
(** ** The statistics *)
(* ------------------------------------------------------------------ *)

Lemma SF_ratio_same (p : positive) :
  SF_ratio false p p = S754_finite false one_mantissa (-52).
Proof.
  unfold SF_ratio, SFdiv_core_binary.
  replace (Zdigits2 (Zpos p) + 0 - (Zdigits2 (Zpos p) + 0)) with 0 by lia.
  change (Z.min (fexp prec emax 0) (0 - 0)) with (-53).
  change (0 - 0 - -53) with 53.
  rewrite match_Zpos by lia.
  rewrite Z.shiftl_mul_pow2 by lia.
  change (IntDef.Z.div_eucl (Zpos p * 2 ^ 53) (Zpos p))
    with (Z.div_eucl (Zpos p * 2 ^ 53) (Zpos p)).
  destruct (Z.div_eucl (Zpos p * 2 ^ 53) (Zpos p)) as [q r] eqn:Ediv.
  assert (Hq : q = 2 ^ 53).
  { transitivity (Zpos p * 2 ^ 53 / Zpos p);
      [unfold Z.div; rewrite Ediv; reflexivity |].
    rewrite Z.mul_comm. apply Z.div_mul. lia. }
  assert (Hr : r = 0).
  { transitivity ((Zpos p * 2 ^ 53) mod Zpos p);
      [unfold Z.modulo; rewrite Ediv; reflexivity |].
    rewrite Z.mul_comm. apply Z.mod_mul. lia. }
  subst q r.
  unfold new_location, new_location_even, new_location_odd.
  destruct (Z.even (Zpos p)); vm_compute; reflexivity.
Qed.

(** [n / n] is [1.0] for every positive [int] below the overflow
    threshold. *)
Lemma int_true_div_same (n : Z) :
  0 < n -> int_true_div n n = Some 1%float.
Proof.
  intros Hn. unfold int_true_div.
  destruct n as [| p | p]; try lia.
  assert (Hov : (overflow_threshold * Z.abs (Zpos p) <=? Z.abs (Zpos p)) = false).
  { apply Z.leb_gt.
    assert (H1 : 1 < overflow_threshold) by (vm_compute; reflexivity).
    revert H1. generalize overflow_threshold. intros T HT.
    change (Z.abs (Zpos p)) with (Zpos p). nia. }
  rewrite Hov. cbn [Zsign_bit xorb Z.abs Z.to_pos].
  rewrite SF_ratio_same. vm_compute. reflexivity.
Qed.

Lemma int_true_div_zero (n : Z) :
  0 < n -> int_true_div 0 n = Some 0%float.
Proof.
  intros Hn. unfold int_true_div.
  destruct n as [| p | p]; try lia.
  assert (Hov : (overflow_threshold * Z.abs (Zpos p) <=? Z.abs 0) = false).
  { apply Z.leb_gt.
    assert (H1 : 1 < overflow_threshold) by (vm_compute; reflexivity).
    revert H1. generalize overflow_threshold. intros T HT.
    change (Z.abs (Zpos p)) with (Zpos p). change (Z.abs 0) with 0. nia. }
  rewrite Hov. reflexivity.
Qed.

Lemma int_true_div_fraction (a b : Z) :
  0 <= a <= b -> 0 < b -> exists q, int_true_div a b = Some q.
Proof.
  intros Ha Hb. unfold int_true_div.
  destruct b as [| p | p]; try lia.
  assert (Hov : (overflow_threshold * Z.abs (Zpos p) <=? Z.abs a) = false).
  { apply Z.leb_gt.
    assert (H1 : 1 < overflow_threshold) by (vm_compute; reflexivity).
    revert H1. generalize overflow_threshold. intros T HT.
    change (Z.abs (Zpos p)) with (Zpos p). rewrite Z.abs_eq by lia. nia. }
  rewrite Hov. destruct a; eauto.
Qed.

Lemma win_rate_of_returns (won lost : Z) :
  0 <= won -> 0 <= lost ->
  exists w text, win_rate_of won lost = Some w /\ format_number_1f w = Some text.
Proof.
  intros Hw Hl. unfold win_rate_of.
  destruct (won + lost >? 0) eqn:Hpos.
  - apply Z.gtb_lt in Hpos.
    destruct (int_true_div_fraction won (won + lost)) as [q Hq]; try lia.
    rewrite Hq. eexists. eexists. split; reflexivity.
  - eexists. eexists. split; reflexivity.
Qed.

Lemma status_partition (predictions : list Prediction) :
  Z.of_nat (List.length predictions)
  = count_status "active" predictions + count_status "won" predictions
    + count_status "lost" predictions + count_pending predictions
    + count_other predictions.
Proof.
  unfold count_status, count_pending, count_other, lifecycle_statuses.
  cbn [existsb].
  induction predictions as [| p rest IH]; [reflexivity |].
  cbn [filter List.length].
  destruct (String.eqb (status p) "active") eqn:Ha.
  { apply String.eqb_eq in Ha. rewrite Ha. decide_literals.
    cbn [orb negb List.length]. lia. }
  destruct (String.eqb (status p) "won") eqn:Hw.
  { apply String.eqb_eq in Hw. rewrite Hw. decide_literals.
    cbn [orb negb List.length]. lia. }
  destruct (String.eqb (status p) "lost") eqn:Hl.
  { apply String.eqb_eq in Hl. rewrite Hl. decide_literals.
    cbn [orb negb List.length]. lia. }
  destruct (String.eqb (status p) "needs_verification") eqn:Hv.
  { cbn [orb negb List.length]. lia. }
  destruct (String.eqb (status p) "needs_manual_verification") eqn:Hm;
    cbn [orb negb List.length]; lia.
Qed.

Lemma count_key_status_keys (s : string) (predictions : list Prediction) :
  count_key s (status_keys predictions) = count_status s predictions.
Proof.
  unfold count_key, count_status, status_keys.
  induction predictions as [| p l IH]; [reflexivity |].
  cbn [map filter key_is]. destruct (String.eqb (status p) s); cbn [List.length]; lia.
Qed.

Lemma count_pending_status_keys (predictions : list Prediction) :
  count_pending_keys (status_keys predictions) = count_pending predictions.
Proof.
  unfold count_pending_keys, count_pending, status_keys.
  induction predictions as [| p l IH]; [reflexivity |].
  cbn [map filter key_is]. destruct (_ || _); cbn [List.length]; lia.
Qed.

Lemma status_keys_have_key (predictions : list Prediction) :
  forallb has_key (status_keys predictions) = true.
Proof. induction predictions as [| p l IH]; [reflexivity | exact IH]. Qed.

(** The two statistics functions on a ledger of [Prediction] records. *)
Lemma get_verification_stats_unfold (predictions : list Prediction) :
  get_verification_stats predictions =
  match win_rate_of (count_status "won" predictions) (count_status "lost" predictions) with
  | None => None
  | Some win_rate =>
      match format_number_1f win_rate with
      | None => None
      | Some text =>
          Some (mkVerificationStats (Z.of_nat (List.length predictions))
                  (count_status "active" predictions) (count_status "won" predictions)
                  (count_status "lost" predictions) (count_pending predictions)
                  (text ++ "%"))
      end
  end.
Proof.
  unfold get_verification_stats, get_verification_stats_keys.
  rewrite !count_key_status_keys, count_pending_status_keys.
  unfold status_keys. rewrite length_map. reflexivity.
Qed.

Lemma get_oracle_stats_unfold (predictions : list Prediction) :
  get_oracle_stats predictions =
  match win_rate_of (count_status "won" predictions) (count_status "lost" predictions) with
  | None => None
  | Some win_rate =>
      Some (mkOracleStats (Z.of_nat (List.length predictions))
              (count_status "active" predictions) (count_status "won" predictions)
              (count_status "lost" predictions) win_rate)
  end.
Proof.
  unfold get_oracle_stats, get_oracle_stats_keys.
  rewrite status_keys_have_key, !count_key_status_keys.
  unfold status_keys. rewrite length_map. reflexivity.
Qed.

Lemma count_key_nonneg (s : string) (keys : list (option string)) : 0 <= count_key s keys.
Proof. unfold count_key. lia. Qed.

Lemma keys_partition (keys : list (option string)) :
  Z.of_nat (List.length keys)
  = count_key "active" keys + count_key "won" keys + count_key "lost" keys
    + count_pending_keys keys + count_other_keys keys.
Proof.
  unfold count_key, count_pending_keys, count_other_keys, lifecycle_statuses.
  cbn [existsb].
  induction keys as [| k rest IH]; [reflexivity |].
  cbn [filter List.length].
  destruct k as [v |]; cbn [key_is]; [| cbn [orb negb List.length]; lia].
  destruct (String.eqb v "active") eqn:Ha.
  { apply String.eqb_eq in Ha. rewrite Ha. decide_literals.
    cbn [orb negb List.length]. lia. }
  destruct (String.eqb v "won") eqn:Hw.
  { apply String.eqb_eq in Hw. rewrite Hw. decide_literals.
    cbn [orb negb List.length]. lia. }
  destruct (String.eqb v "lost") eqn:Hl.
  { apply String.eqb_eq in Hl. rewrite Hl. decide_literals.
    cbn [orb negb List.length]. lia. }
  destruct (String.eqb v "needs_verification") eqn:Hv.
  { cbn [orb negb List.length]. lia. }
  destruct (String.eqb v "needs_manual_verification") eqn:Hm;
    cbn [orb negb List.length]; lia.
Qed.

Lemma forallb_has_key (keys : list (option string)) :
  forallb has_key keys = true <-> ~ In None keys.
Proof.
  rewrite forallb_forall. split.
  - intros H Hin. specialize (H None Hin). discriminate.
  - intros H [v |] Hin; [reflexivity | contradiction].
Qed.

(** X7.  On any ledger file, [get_verification_stats] does not raise, and
    its total is the sum of the active, won, lost and pending counts and of
    the records that have no status key or a status that is none of the
    five lifecycle statuses.  [get_oracle_stats] raises exactly when a
    record has no status key, which it indexes where the verifier reads it
    with a default; on every other file it returns, and the two report the
    same total, active, won and lost counts. *)
Theorem statistics_partition (keys : list (option string)) :
  (exists vs : VerificationStats,
     get_verification_stats_keys keys = Some vs /\
     vs_total vs = vs_active vs + vs_won vs + vs_lost vs
                   + vs_pending_verification vs + count_other_keys keys) /\
  (In None keys -> get_oracle_stats_keys keys = None) /\
  (~ In None keys ->
   exists (vs : VerificationStats) (os : OracleStats),
     get_verification_stats_keys keys = Some vs /\
     get_oracle_stats_keys keys = Some os /\
     vs_total vs = total_predictions os /\
     vs_active vs = os_active os /\
     vs_won vs = os_won os /\
     vs_lost vs = os_lost os).
Proof.
  unfold get_verification_stats_keys, get_oracle_stats_keys.
  destruct (win_rate_of_returns (count_key "won" keys) (count_key "lost" keys))
    as (w & text & Hw & Ht); try apply count_key_nonneg.
  rewrite Hw, Ht. split; [| split].
  - eexists. split; [reflexivity |]. simpl. apply keys_partition.
  - intros Hin. destruct (forallb has_key keys) eqn:E; [| reflexivity].
    apply forallb_has_key in E. contradiction.
  - intros Hnone. apply forallb_has_key in Hnone. rewrite Hnone.
    eexists. eexists. repeat split.
Qed.

Example statistics_on_a_gap :
  option_map (fun vs => (vs_total vs, vs_active vs, vs_won vs, vs_win_rate vs))
    (get_verification_stats_keys keys_with_gap)
  = Some (4, 1, 1, "100.0%") /\
  get_oracle_stats_keys keys_with_gap = None /\
  count_other_keys keys_with_gap = 2.
Proof. repeat split; vm_compute; reflexivity. Qed.

Lemma count_other_lifecycle (predictions : list Prediction) :
  Forall (fun p => In (status p) lifecycle_statuses) predictions ->
  count_other predictions = 0.
Proof.
  unfold count_other. induction 1 as [| p rest Hp _ IH]; [reflexivity |].
  cbn [filter].
  assert (E : existsb (String.eqb (status p)) lifecycle_statuses = true).
  { apply existsb_exists. exists (status p). split; [exact Hp | apply String.eqb_refl]. }
  rewrite E. exact IH.
Qed.

(** X8.  On a ledger file written by runs of the two programs the
    verifier's statistics add up: the total is the sum of the active, won,
    lost and pending counts. *)
Theorem statistics_add_up (rs : list Run) :
  exists vs : VerificationStats,
    get_verification_stats (after_runs rs) = Some vs /\
    vs_total vs = vs_active vs + vs_won vs + vs_lost vs + vs_pending_verification vs.
Proof.
  rewrite get_verification_stats_unfold.
  destruct (win_rate_of_returns (count_status "won" (after_runs rs))
              (count_status "lost" (after_runs rs))) as (w & text & Hw & Ht);
    try apply count_status_nonneg.
  rewrite Hw, Ht. eexists. split; [reflexivity |]. simpl.
  rewrite (status_partition (after_runs rs)).
  rewrite count_other_lifecycle; [lia |].
  pose proof (after_runs_well_formed rs) as H.
  eapply Forall_impl; [| exact H]. intros p Hp. apply Hp.
Qed.

(** X9.  The win rate at its two ends.  With no won record the oracle
    reports 0 (the integer when nothing is decided) and the verifier
    "0.0%"; with at least one won record and no lost one they report 100.0
    and "100.0%". *)
Theorem win_rate_extremes (predictions : list Prediction) :
  (count_status "won" predictions = 0 ->
     exists vs os,
       get_verification_stats predictions = Some vs /\ vs_win_rate vs = "0.0%" /\
       get_oracle_stats predictions = Some os /\
       os_win_rate os = (if count_status "lost" predictions =? 0
                         then Int 0 else Float 0)) /\
  (0 < count_status "won" predictions -> count_status "lost" predictions = 0 ->
     exists vs os,
       get_verification_stats predictions = Some vs /\ vs_win_rate vs = "100.0%" /\
       get_oracle_stats predictions = Some os /\ os_win_rate os = Float 100).
Proof.
  rewrite get_verification_stats_unfold, get_oracle_stats_unfold.
  unfold win_rate_of. split.
  - intros Hw. rewrite Hw. cbn [Z.add].
    pose proof (count_status_nonneg "lost" predictions) as Hl.
    destruct (count_status "lost" predictions =? 0) eqn:E.
    + apply Z.eqb_eq in E. rewrite E. simpl.
      eexists. eexists. repeat split; reflexivity.
    + apply Z.eqb_neq in E.
      assert (Hpos : (count_status "lost" predictions >? 0) = true)
        by (apply Z.gtb_lt; lia).
      rewrite Hpos, int_true_div_zero by lia.
      eexists. eexists. repeat split; reflexivity.
  - intros Hw Hl. rewrite Hl, Z.add_0_r.
    assert (Hpos : (count_status "won" predictions >? 0) = true)
      by (apply Z.gtb_lt; lia).
    rewrite Hpos, int_true_div_same by lia.
    eexists. eexists. repeat split; reflexivity.
Qed.

Lemma dict_get_Some_In {V : Type} (k : string) (d : list (string * V)) (v : V) :
  dict_get k d = Some v -> In k (map fst d).
Proof.
  induction d as [| [k' v'] d IH]; simpl; [discriminate |].
  destruct (String.eqb k k') eqn:E.
  - apply String.eqb_eq in E. auto.
  - auto.
Qed.

Lemma get_pyth_price_listed (hermes : Hermes) (a : string) (price : float) :
  get_pyth_price hermes a = Some price -> In a (map fst PYTH_FEED_IDS).
Proof.
  unfold get_pyth_price.
  destruct (dict_get a PYTH_FEED_IDS) as [feed_id |] eqn:E; [| discriminate].
  intros _. eapply dict_get_Some_In; eauto.
Qed.

Lemma after_runs_decided_listed (rs : list Run) :
  Forall (fun p => decided p -> In (asset p) (map fst PYTH_FEED_IDS)) (after_runs rs).
Proof.
  apply after_runs_invariant.
  - intros signal clk ledger ledger' tx HI Hc.
    apply create_prediction_tx_inv in Hc. destruct Hc as (p & Hb & -> & _).
    apply Forall_app. split; [exact HI |]. constructor; [| constructor].
    apply build_prediction_fields in Hb.
    destruct Hb as (_ & _ & _ & _ & _ & _ & _ & Hst & _).
    unfold decided. rewrite Hst. intros [H | H]; discriminate.
  - intros t ledger HI. unfold verify_predictions. apply Forall_map.
    eapply Forall_impl; [| exact HI]. intros p Hp. unfold mark_expired.
    destruct (negb _); [exact Hp |].
    destruct (geb _ _); [| exact Hp].
    unfold decided. simpl. intros [H | H]; discriminate.
  - intros hermes clk. unfold process_expired_predictions.
    induction ledger as [| p rest IH]; intros ledger' n HI Hrun.
    + simpl in Hrun. injection Hrun as <- _. constructor.
    + apply process_loop_cons in Hrun.
      destruct Hrun as (p' & b & rest' & m & Hstep & Hrest & -> & _).
      inversion HI as [| ? ? Hp Hrest']; subst.
      constructor; [| eapply IH; eauto].
      destruct Hstep as [Hskip | Hst Hexp Hprice | price r micro Hst Hexp Hprice Hr Hwl Hm].
      * exact Hp.
      * unfold decided. simpl. intros [H | H]; discriminate.
      * intros _. simpl. eapply get_pyth_price_listed; eauto.
  - constructor.
Qed.

(** X10.  Only a prediction on one of the twenty assets of [PYTH_FEED_IDS]
    is ever decided: in a ledger file written by runs of the two programs,
    a record that is won or lost is on a listed asset.  A prediction on any
    other symbol, which [oracle.py] creates all the same, ends as
    needs_verification or needs_manual_verification. *)
Theorem decided_assets_are_listed (rs : list Run) (p : Prediction) :
  In p (after_runs rs) -> decided p -> In (asset p) (map fst PYTH_FEED_IDS).
Proof.
  intros Hin. pose proof (after_runs_decided_listed rs) as H.
  rewrite Forall_forall in H. now apply H.
Qed.

Lemma decided_assets_are_listed_witness :
  In btc_decided (after_runs sample_runs) /\
  decided btc_decided /\
  In (asset btc_decided) (map fst PYTH_FEED_IDS).
Proof.
  assert (H : In btc_decided (after_runs sample_runs))
    by (vm_compute; left; reflexivity).
  assert (Hd : decided btc_decided) by (left; reflexivity).
  split; [exact H |]. split; [exact Hd |].
  exact (decided_assets_are_listed sample_runs btc_decided H Hd).
Defined.

Lemma count_status_app (s : string) (l1 l2 : list Prediction) :
  count_status s (l1 ++ l2) = count_status s l1 + count_status s l2.
Proof.
  unfold count_status. rewrite filter_app, length_app. lia.
Qed.

Lemma count_status_mark_expired (s : string) (t : float) (l : list Prediction) :
  s = "won" \/ s = "lost" ->
  count_status s (verify_predictions t l) = count_status s l.
Proof.
  intros Hs. unfold verify_predictions.
  induction l as [| p l IH]; [reflexivity |].
  cbn [map]. rewrite !count_status_cons, IH. f_equal.
  unfold mark_expired.
  destruct (String.eqb (status p) "active") eqn:Hst; simpl; [| reflexivity].
  apply String.eqb_eq in Hst.
  destruct (geb t (expires_at p)); [| reflexivity].
  cbn [set_status status]. rewrite Hst.
  destruct Hs as [-> | ->]; reflexivity.
Qed.

Lemma count_status_created (s : string) (created : list Prediction) :
  s <> "active" ->
  (forall p, In p created -> status p = "active") ->
  count_status s created = 0.
Proof.
  intros Hs. induction created as [| p l IH]; intros Hall; [reflexivity |].
  rewrite count_status_cons, IH by (intros q Hq; apply Hall; now right).
  rewrite (Hall p (or_introl eq_refl)).
  destruct (String.eqb "active" s) eqn:E; [| reflexivity].
  apply String.eqb_eq in E. congruence.
Qed.

(** X11.  A run of [oracle.py] decides nothing: the ledger it leaves has
    the won and the lost counts it found, also when a display or a creation
    raised, so the win rate it prints changes only through runs of
    [verifier.py]. *)
Theorem oracle_run_decides_nothing
  (actionable : list (ActionableSignal * CreationClock)) (t : float)
  (ledger : list Prediction) :
  count_status "won" (fst (Oracle.main actionable t ledger)) = count_status "won" ledger /\
  count_status "lost" (fst (Oracle.main actionable t ledger)) = count_status "lost" ledger /\
  forall tx_sigs stats,
    snd (Oracle.main actionable t ledger) = Some (tx_sigs, stats) ->
    os_won stats = count_status "won" ledger /\
    os_lost stats = count_status "lost" ledger /\
    total_predictions stats
    = Z.of_nat (List.length ledger) + Z.of_nat (List.length tx_sigs).
Proof.
  unfold Oracle.main.
  assert (E : process_new_signals actionable ledger = create_each actionable ledger [])
    by (destruct actionable; reflexivity).
  rewrite E.
  destruct (create_each_appends actionable ledger []) as (created & Hfst & Hrec & Hsnd).
  assert (Hact : forall p, In p created -> status p = "active").
  { intros p Hp. apply In_nth_error in Hp. destruct Hp as [k Hk].
    destruct (Hrec k p Hk) as (sc & _ & _ & _ & _ & Hst & _). exact Hst. }
  assert (Hwon : count_status "won" (ledger ++ created) = count_status "won" ledger).
  { rewrite count_status_app, (count_status_created "won" created);
      [lia | discriminate | exact Hact]. }
  assert (Hlost : count_status "lost" (ledger ++ created) = count_status "lost" ledger).
  { rewrite count_status_app, (count_status_created "lost" created);
      [lia | discriminate | exact Hact]. }
  destruct (create_each actionable ledger []) as [ledger1 [all_sigs |]];
    simpl in Hfst, Hsnd; subst ledger1.
  - destruct Hsnd as (Hlen & new_sigs & Hsigs & Hids). simpl in Hsigs. subst all_sigs.
    assert (Hlen2 : List.length new_sigs = List.length created).
    { rewrite <- (length_map tx_local_id), Hids, length_map. reflexivity. }
    rewrite get_oracle_stats_unfold.
    destruct (win_rate_of _ _) as [w |]; cbn [fst snd];
      rewrite !count_status_mark_expired by auto;
      (split; [exact Hwon |]); (split; [exact Hlost |]);
      intros tx_sigs stats; [| discriminate].
    intros [= <- <-]. cbn [os_won os_lost total_predictions].
    rewrite ?count_status_mark_expired by auto.
    split; [exact Hwon |]. split; [exact Hlost |].
    unfold verify_predictions. rewrite length_map, length_app. lia.
  - cbn [fst snd]. split; [exact Hwon |]. split; [exact Hlost |].
    intros tx_sigs stats. discriminate.
Qed.

(* ------------------------------------------------------------------ *)
(** ** What was predicted stays *)
(* ------------------------------------------------------------------ *)

Lemma same_terms_refl (p : Prediction) : same_terms p p.
Proof. unfold same_terms. auto 10. Qed.

Lemma same_terms_trans (p q r : Prediction) :
  same_terms p q -> same_terms q r -> same_terms p r.
Proof.
  unfold same_terms.
  intros (A1 & A2 & A3 & A4 & A5 & A6 & A7 & A8 & A9 & A10)
         (B1 & B2 & B3 & B4 & B5 & B6 & B7 & B8 & B9 & B10).
  repeat split; congruence.
Qed.

Lemma mark_expired_same_terms (t : float) (p : Prediction) :
  same_terms p (mark_expired t p).
Proof.
  unfold mark_expired. destruct (negb _); [apply same_terms_refl |].
  destruct (geb _ _); [| apply same_terms_refl].
  unfold same_terms. simpl. auto 10.
Qed.

Lemma price_step_same_terms (hermes : Hermes) (clk : Clock) (p p' : Prediction) (b : bool) :
  price_step hermes clk p p' b -> same_terms p p'.
Proof.
  intros [H | H1 H2 H3 | price r micro H1 H2 H3 H4 H5 H6];
    [apply same_terms_refl | |]; unfold same_terms; simpl; auto 10.
Qed.

Lemma process_loop_nth (hermes : Hermes) (clk : Clock) :
  forall (ledger ledger' : list Prediction) (n : Z) (i : nat) (p : Prediction),
    process_loop hermes clk ledger = Some (ledger', n) ->
    nth_error ledger i = Some p ->
    exists p' b, nth_error ledger' i = Some p' /\ price_step hermes clk p p' b.
Proof.
  induction ledger as [| q rest IH]; intros ledger' n i p Hrun Hnth.
  - destruct i; discriminate.
  - apply process_loop_cons in Hrun.
    destruct Hrun as (q' & b & rest' & m & Hstep & Hrest & -> & _).
    destruct i as [| i]; simpl in *.
    + injection Hnth as <-. eauto.
    + eapply IH; eauto.
Qed.

Lemma after_run_keeps_terms (r : Run) (ledger : list Prediction) (i : nat)
  (p : Prediction) :
  nth_error ledger i = Some p ->
  exists p', nth_error (after_run r ledger) i = Some p' /\ same_terms p p'.
Proof.
  intros Hnth. destruct r as [actionable t | hermes clk]; simpl.
  - unfold Oracle.main.
    assert (E : process_new_signals actionable ledger = create_each actionable ledger [])
      by (destruct actionable; reflexivity).
    rewrite E.
    destruct (create_each_appends actionable ledger []) as (created & Hfst & _).
    assert (Hi : nth_error (ledger ++ created) i = Some p).
    { rewrite nth_error_app1; [exact Hnth |]. apply nth_error_Some. congruence. }
    destruct (create_each actionable ledger []) as [ledger1 [tx_sigs |]];
      simpl in Hfst; subst ledger1.
    + exists (mark_expired t p). split; [| apply mark_expired_same_terms].
      destruct (get_oracle_stats _); simpl; unfold verify_predictions;
        now rewrite nth_error_map, Hi.
    + exists p. split; [exact Hi | apply same_terms_refl].
  - unfold Verifier.main.
    destruct (process_expired_predictions hermes clk ledger) as [[ledger' n] |] eqn:Hp.
    + destruct (process_loop_nth _ _ _ _ _ _ _ Hp Hnth) as (p' & b & Hn' & Hstep).
      exists p'. split; [| eapply price_step_same_terms; eauto].
      destruct (get_verification_stats ledger'); exact Hn'.
    + exists p. split; [exact Hnth | apply same_terms_refl].
Qed.

(** X24.  What was predicted stays: whatever runs of the two programs
    follow, a record of the ledger keeps its place and its asset, direction,
    three prices, time frame, creation and expiry times, signal and id;
    runs change at most its status, result price and verification time. *)
Theorem predictions_keep_their_terms (rs : list Run) :
  forall (ledger : list Prediction) (i : nat) (p : Prediction),
    nth_error ledger i = Some p ->
    exists p', nth_error (runs_from ledger rs) i = Some p' /\ same_terms p p'.
Proof.
  unfold runs_from.
  induction rs as [| r rs IH]; intros ledger i p Hnth; simpl.
  - exists p. split; [exact Hnth | apply same_terms_refl].
  - destruct (after_run_keeps_terms r ledger i p Hnth) as (q & Hq & Hpq).
    destruct (IH _ _ _ Hq) as (p' & Hp' & Hqp').
    exists p'. split; [exact Hp' | eapply same_terms_trans; eauto].
Qed.

Lemma predictions_keep_their_terms_witness :
  nth_error three_expired 0 = Some scenario5 /\
  exists p', nth_error (runs_from three_expired sample_runs) 0 = Some p' /\
             same_terms scenario5 p'.
Proof.
  split; [reflexivity |].
  exact (predictions_keep_their_terms sample_runs three_expired 0 scenario5 eq_refl).
Defined.

(* ------------------------------------------------------------------ *)
(** ** Whole prices *)
(* ------------------------------------------------------------------ *)

Lemma shr_1_exact (q : Z) :
  0 <= q ->
  shr_1 (Build_shr_record (2 * q) false false) = Build_shr_record q false false.
Proof.
  intros Hq. destruct q as [| p | p]; try lia; reflexivity.
Qed.

(** Shifting out [n] zero bits loses nothing. *)
Lemma iter_shr_exact (n : positive) : forall q : Z,
  0 <= q ->
  iter_pos shr_1 n (Build_shr_record (q * 2 ^ Zpos n) false false)
  = Build_shr_record q false false.
Proof.
  induction n as [n IH | n IH |]; intros q Hq; cbn [iter_pos].
  - assert (Hp : 0 < 2 ^ Zpos n) by (apply Z.pow_pos_nonneg; lia).
    replace (q * 2 ^ Zpos n~1) with (2 * (q * 2 ^ Zpos n * 2 ^ Zpos n)).
    + rewrite shr_1_exact by nia. rewrite IH by nia. now apply IH.
    + replace (Zpos n~1) with (Zpos n + Zpos n + 1) by lia.
      rewrite !Z.pow_add_r by lia. ring.
  - assert (Hp : 0 < 2 ^ Zpos n) by (apply Z.pow_pos_nonneg; lia).
    replace (q * 2 ^ Zpos n~0) with (q * 2 ^ Zpos n * 2 ^ Zpos n).
    + rewrite IH by nia. now apply IH.
    + replace (Zpos n~0) with (Zpos n + Zpos n) by lia.
      rewrite !Z.pow_add_r by lia. ring.
  - change (2 ^ 1) with 2. rewrite Z.mul_comm. now apply shr_1_exact.
Qed.

(** The rounding step on an exact mantissa whose low bits are zero: the 53
    high bits are kept and nothing is rounded. *)
Lemma binary_round_aux_exact (sx : bool) (q : positive) (ex n : Z) :
  2 ^ 52 <= Zpos q < 2 ^ 53 -> 0 <= n ->
  -1074 <= ex + n <= 971 ->
  binary_round_aux prec emax sx (Zpos q * 2 ^ n) ex loc_Exact
  = S754_finite sx q (ex + n).
Proof.
  intros Hq Hn He.
  assert (Hp : 0 < 2 ^ n) by (apply Z.pow_pos_nonneg; lia).
  assert (Hd : Zdigits2 (Zpos q * 2 ^ n) = 53 + n).
  { apply Zdigits2_unique; [| lia].
    replace (53 + n - 1) with (52 + n) by lia.
    rewrite !Z.pow_add_r by lia. nia. }
  unfold binary_round_aux, shr_fexp. rewrite Hd.
  rewrite (fexp_normal (53 + n + ex)) by lia.
  replace (53 + n + ex - 53 - ex) with n by lia.
  assert (Hshr : shr (shr_record_of_loc (Zpos q * 2 ^ n) loc_Exact) ex n
                 = (Build_shr_record (Zpos q) false false, ex + n)).
  { unfold shr, shr_record_of_loc. destruct n as [| p | p]; try lia.
    - rewrite Z.mul_1_r. f_equal. lia.
    - rewrite iter_shr_exact by lia. reflexivity. }
  rewrite Hshr. cbn [shr_m loc_of_shr_record round_nearest_even].
  assert (Hd' : Zdigits2 (Zpos q) = 53) by (apply Zdigits2_unique; simpl; lia).
  rewrite Hd'. rewrite (fexp_normal (53 + (ex + n))) by lia.
  replace (53 + (ex + n) - 53 - (ex + n)) with 0 by lia.
  cbn [shr shr_record_of_loc shr_m].
  replace (ex + n <=? emax - prec) with true
    by (symmetry; apply Z.leb_le; unfold emax, prec; lia).
  reflexivity.
Qed.

Lemma bounded_53 (q : positive) (e : Z) :
  2 ^ 52 <= Zpos q < 2 ^ 53 -> -1074 <= e <= 971 ->
  bounded prec emax q e = true.
Proof.
  intros Hq He. unfold bounded, canonical_mantissa.
  change (Zpos (digits2_pos q)) with (Zdigits2 (Zpos q)).
  rewrite (Zdigits2_unique (Zpos q) 53) by (simpl; lia).
  rewrite (fexp_normal (53 + e)) by lia.
  apply andb_true_intro. split; [apply Z.eqb_eq; lia |].
  apply Z.leb_le. unfold emax, prec. lia.
Qed.

Lemma py_int_finite (q : positive) (k : Z) :
  0 <= k -> bounded prec emax q (- k) = true ->
  py_int (SF2Prim (S754_finite false q (- k))) = Some (Zpos q / 2 ^ k).
Proof.
  intros Hk Hb. unfold py_int. rewrite Prim2SF_SF2Prim by exact Hb.
  rewrite Z.shiftl_opp_r, Z.shiftr_div_pow2 by lia. reflexivity.
Qed.

(** A whole number of units [u], stored as [u * 1000000], decodes to the
    double [mu * 2^(du - 53)] that is exactly [u], and that double encodes
    to the stored integer. *)
Lemma whole_units_codec (u : positive) :
  Zpos u * 1000000 < 2 ^ 51 ->
  let du := Zdigits2 (Zpos u) in
  exists q : positive,
    Zpos q = Zpos u * 2 ^ (53 - du) /\
    bounded prec emax q (- (53 - du)) = true /\
    1 <= du <= 32 /\
    micro_units (Some (Zpos u * 1000000))
    = Some (SF2Prim (S754_finite false q (- (53 - du)))) /\
    price_to_u64 (SF2Prim (S754_finite false q (- (53 - du))))
    = Some (Zpos u * 1000000).
Proof.
  intros Hx du.
  pose proof (Zdigits2_bounds (Zpos u) ltac:(lia)) as Hdu. fold du in Hdu.
  assert (Hdu1 : 1 <= du) by (unfold du; simpl; lia).
  assert (Hdu2 : du <= 32).
  { destruct (Z_le_gt_dec du 32) as [H | H]; [exact H |].
    pose proof (Z.pow_le_mono_r 2 32 (du - 1) ltac:(lia) ltac:(lia)) as H32.
    change (2 ^ 51) with 2251799813685248 in Hx.
    change (2 ^ 32) with 4294967296 in H32. lia. }
  remember (Zpos u * 1000000) as x eqn:Hxdef.
  assert (Hxpos : 0 < x) by lia.
  assert (Hpu : 0 < 2 ^ (du - 1)) by (apply Z.pow_pos_nonneg; lia).
  assert (Hx2 : 2 ^ (du + 18) <= x < 2 ^ (du + 20)).
  { assert (E18 : 2 ^ (du + 18) = 2 ^ (du - 1) * 524288)
      by (replace (du + 18) with (du - 1 + 19) by lia;
          rewrite Z.pow_add_r by lia; reflexivity).
    assert (E20 : 2 ^ (du + 20) = 2 ^ (du - 1) * 2097152)
      by (replace (du + 20) with (du - 1 + 21) by lia;
          rewrite Z.pow_add_r by lia; reflexivity).
    assert (Edu : 2 ^ du = 2 ^ (du - 1) * 2)
      by (replace du with (du - 1 + 1) at 1 by lia;
          rewrite Z.pow_add_r by lia; reflexivity).
    rewrite E18, E20. rewrite Edu in Hdu. nia. }
  pose proof (Zdigits2_range x (du + 18) (du + 20) Hx2 ltac:(lia)) as Hd1.
  set (d1 := Zdigits2 x) in *.
  pose proof (Zdigits2_bounds x Hxpos) as Hbx. fold d1 in Hbx.
  (* the canonical mantissa of u *)
  assert (Hps : 0 < 2 ^ (53 - du)) by (apply Z.pow_pos_nonneg; lia).
  set (mu := Zpos u * 2 ^ (53 - du)).
  assert (Hmu : 2 ^ 52 <= mu < 2 ^ 53).
  { unfold mu.
    replace (2 ^ 52) with (2 ^ (du - 1) * 2 ^ (53 - du))
      by (rewrite <- Z.pow_add_r by lia; f_equal; lia).
    replace (2 ^ 53) with (2 ^ du * 2 ^ (53 - du))
      by (rewrite <- Z.pow_add_r by lia; f_equal; lia).
    split; [apply Z.mul_le_mono_nonneg_r | apply Z.mul_lt_mono_pos_r]; lia. }
  destruct mu as [| q | q] eqn:Emu; try (simpl in Hmu; lia).
  exists q. split; [reflexivity |].
  assert (Hb : bounded prec emax q (- (53 - du)) = true)
    by (apply bounded_53; [exact Hmu | lia]).
  split; [exact Hb |]. split; [lia |]. split.
  - (* decoding *)
    destruct x as [| px | px] eqn:Ex; try lia.
    rewrite micro_units_pos by exact Hx. f_equal. f_equal.
    unfold SF_ratio, SFdiv_core_binary.
    change (Zdigits2 (Zpos 1000000)) with 20. fold d1.
    set (t := 73 - d1).
    assert (He' : Z.min (fexp prec emax (d1 + 0 - (20 + 0))) (0 - 0) = - t).
    { unfold fexp, SpecFloat.emin, prec, emax, t. lia. }
    rewrite He'. replace (0 - 0 - - t) with t by lia.
    rewrite match_Zpos by (unfold t; lia).
    rewrite Z.shiftl_mul_pow2 by (unfold t; lia).
    change (IntDef.Z.div_eucl (Zpos px * 2 ^ t) 1000000)
      with (Z.div_eucl (Zpos px * 2 ^ t) 1000000).
    destruct (Z.div_eucl (Zpos px * 2 ^ t) 1000000) as [qd r] eqn:Ediv.
    assert (Hfac : Zpos px * 2 ^ t = Zpos u * 2 ^ t * 1000000)
      by (rewrite Hxdef; ring).
    assert (Hqd : qd = Zpos u * 2 ^ t).
    { transitivity (Zpos px * 2 ^ t / 1000000);
        [unfold Z.div; rewrite Ediv; reflexivity |].
      rewrite Hfac. apply Z.div_mul. lia. }
    assert (Hr : r = 0).
    { transitivity ((Zpos px * 2 ^ t) mod 1000000);
        [unfold Z.modulo; rewrite Ediv; reflexivity |].
      rewrite Hfac. apply Z.mod_mul. lia. }
    subst qd r.
    change (new_location 1000000 0) with loc_Exact.
    replace (Zpos u * 2 ^ t) with (Zpos q * 2 ^ (t - (53 - du))).
    + rewrite binary_round_aux_exact; [f_equal; lia | exact Hmu | unfold t; lia |
                                       unfold t; lia].
    + rewrite <- Emu. unfold mu. rewrite <- Z.mul_assoc, <- Z.pow_add_r by (unfold t; lia).
      do 2 f_equal. lia.
  - (* encoding *)
    unfold price_to_u64.
    change (Z2f PRICE_MULTIPLIER) with 1000000%float.
    assert (Hprod : Prim2SF (SF2Prim (S754_finite false q (- (53 - du))) * 1000000)
                    = S754_finite false (Z.to_pos (x * 2 ^ (53 - d1))) (- (53 - d1))).
    { rewrite FloatAxioms.mul_spec.
      rewrite Prim2SF_SF2Prim by exact Hb.
      change (Prim2SF 1000000) with (S754_finite false 8589934592000000 (-33)).
      unfold SF64mul, SFmul. change (xorb false false) with false.
      change (Zpos (q * 8589934592000000)) with (Zpos q * million_mantissa).
      assert (Hq2 : 2 ^ 52 <= x * 2 ^ (53 - d1) < 2 ^ 53).
      { assert (0 < 2 ^ (53 - d1)) by (apply Z.pow_pos_nonneg; lia).
        replace (2 ^ 52) with (2 ^ (d1 - 1) * 2 ^ (53 - d1))
          by (rewrite <- Z.pow_add_r by lia; f_equal; lia).
        replace (2 ^ 53) with (2 ^ d1 * 2 ^ (53 - d1))
          by (rewrite <- Z.pow_add_r by lia; f_equal; lia).
        split; [apply Z.mul_le_mono_nonneg_r | apply Z.mul_lt_mono_pos_r]; lia. }
      replace (Zpos q * million_mantissa)
        with (Zpos (Z.to_pos (x * 2 ^ (53 - d1))) * 2 ^ (33 - du + d1)).
      - rewrite binary_round_aux_exact;
          [f_equal; lia | rewrite Z2Pos.id by lia; exact Hq2 | lia | lia].
      - rewrite Z2Pos.id by lia. rewrite <- Emu, Hxdef. unfold mu, million_mantissa.
        change 8589934592000000 with (1000000 * 2 ^ 33).
        replace (2 ^ (33 - du + d1)) with (2 ^ 33 * 2 ^ (d1 - du))
          by (rewrite <- Z.pow_add_r by lia; f_equal; lia).
        replace (2 ^ (53 - du)) with (2 ^ (53 - d1) * 2 ^ (d1 - du))
          by (rewrite <- Z.pow_add_r by lia; f_equal; lia).
        ring. }
    unfold py_int. rewrite Hprod.
    assert (Hq2 : 0 < x * 2 ^ (53 - d1)).
    { apply Z.mul_pos_pos; [lia | apply Z.pow_pos_nonneg; lia]. }
    rewrite Z2Pos.id by lia.
    rewrite Z.shiftl_opp_r, Z.shiftr_div_pow2 by lia.
    rewrite Z.div_mul by (apply Z.pow_nonzero; lia). reflexivity.
Qed.

(** X12.  Whole prices survive the fixed-point round trip: a stored
    integer that is a whole number [u] of units, [u * 1000000] below 2^51,
    decodes to a price whose integer part is [u] and which encodes to the
    stored integer again, so the round trip returns it unchanged. *)
Theorem round_trip_whole_units (u : Z) :
  0 <= u -> u * 1000000 < 2 ^ 51 ->
  round_trip (u * 1000000) = Some (u * 1000000) /\
  exists price : float,
    micro_units (Some (u * 1000000)) = Some price /\
    py_int price = Some u /\
    price_to_u64 price = Some (u * 1000000).
Proof.
  intros Hu Hx. destruct u as [| u | u]; try lia.
  - split; [vm_compute; reflexivity |].
    exists 0%float. repeat split; vm_compute; reflexivity.
  - destruct (whole_units_codec u Hx) as (q & Hq & Hb & Hdu & Hdec & Henc).
    split.
    + unfold round_trip. rewrite Hdec. exact Henc.
    + eexists. split; [exact Hdec |]. split; [| exact Henc].
      rewrite py_int_finite by (lia || exact Hb).
      rewrite Hq. rewrite Z.div_mul; [reflexivity |].
      apply Z.pow_nonzero; lia.
Qed.

Lemma round_trip_whole_units_witness :
  0 <= 105 /\ 105 * 1000000 < 2 ^ 51 /\
  round_trip (105 * 1000000) = Some (105 * 1000000).
Proof.
  assert (H1 : 0 <= 105) by lia.
  assert (H2 : 105 * 1000000 < 2 ^ 51) by reflexivity.
  split; [exact H1 |]. split; [exact H2 |].
  exact (proj1 (round_trip_whole_units 105 H1 H2)).
Defined.

(* ================================================================== *)
(** * The scanner from the fetches to the output *)
(* ================================================================== *)

(* ------------------------------------------------------------------ *)
(** ** The order of the outputs *)
(* ------------------------------------------------------------------ *)

Lemma ltb_asym (x y : float) : (x <? y)%float = true -> (y <? x)%float = false.
Proof.
  rewrite !FloatAxioms.ltb_spec. unfold SFltb.
  destruct (SFcompare (Prim2SF x) (Prim2SF y)) as [c |] eqn:E; [| discriminate].
  rewrite (SFcompare_antisym _ _ _ E). destruct c; simpl; congruence.
Qed.

Section Ordering.
Context {A : Type} (key : A -> float).

Lemma insert_desc_descending (x : A) (l : list A) :
  descending key l -> descending key (Nansen.insert_desc key x l).
Proof.
  induction 1 as [| y | y z l Hyz Hl IH]; simpl.
  - constructor.
  - destruct (key x <? key y)%float eqn:E.
    + constructor; [now apply ltb_asym | constructor].
    + constructor; [exact E | constructor].
  - destruct (key x <? key y)%float eqn:E.
    + simpl in IH. destruct (key x <? key z)%float eqn:E2.
      * constructor; assumption.
      * constructor; [now apply ltb_asym | exact IH].
    + constructor; [exact E |]. now constructor.
Qed.

Lemma sort_desc_descending (l : list A) : descending key (Nansen.sort_desc key l).
Proof.
  induction l as [| x l IH]; simpl; [constructor |].
  now apply insert_desc_descending.
Qed.

End Ordering.

Section ScannerOrder.
Import Nansen.

(** X13.  The three outputs are ordered, largest first: in the netflow and
    DEX signals no signal is directly followed by one with a strictly
    larger absolute flow, in the merged signals none by one with a strictly
    larger confidence; and each output holds exactly the signals emitted,
    each as often as it was emitted. *)
Theorem outputs_are_ordered (now : string)
  (all_netflows : list (string * list NetflowRecord))
  (all_trades : list (string * list TradeRecord))
  (netflow_signals dex_signals : list FlowSignal) :
  (descending (fun s => abs (net_flow_usd s)) (analyze_netflows now all_netflows) /\
   Permutation
     (flat_map (fun cf => filter_map (netflow_signal now (fst cf)) (snd cf)) all_netflows)
     (analyze_netflows now all_netflows)) /\
  (descending (fun s => abs (net_flow_usd s)) (analyze_dex_trades now all_trades) /\
   Permutation
     (filter_map (fun kv => dex_signal now (snd kv)) (aggregate_trades all_trades))
     (analyze_dex_trades now all_trades)) /\
  descending m_confidence (merge_signals netflow_signals dex_signals).
Proof.
  unfold analyze_netflows, analyze_dex_trades, merge_signals.
  repeat split; try apply sort_desc_descending; apply sort_desc_perm.
Qed.

End ScannerOrder.

(* ------------------------------------------------------------------ *)
(** ** Symbols *)
(* ------------------------------------------------------------------ *)

Lemma upper_ascii_idempotent (c : ascii) :
  Nansen.upper_ascii (Nansen.upper_ascii c) = Nansen.upper_ascii c.
Proof. destruct c as [[] [] [] [] [] [] [] []]; vm_compute; reflexivity. Qed.

Lemma upper_idempotent (s : string) : Nansen.upper (Nansen.upper s) = Nansen.upper s.
Proof.
  induction s as [| c s IH]; simpl; [reflexivity |].
  now rewrite upper_ascii_idempotent, IH.
Qed.

Lemma upper_nonempty (s : string) : s <> "" -> Nansen.upper s <> "".
Proof. destruct s; [congruence | discriminate]. Qed.

Lemma upper_ascii_upper_case (c : ascii) :
  (nat_of_ascii c <? 128)%nat = true ->
  (nat_of_ascii (Nansen.upper_ascii c) <? 128)%nat
  && negb (lowercase_letter (Nansen.upper_ascii c)) = true.
Proof.
  destruct c as [[] [] [] [] [] [] [] []]; vm_compute; intros H;
    first [reflexivity | discriminate H].
Qed.

(** The upper case of an ASCII string is an ASCII string without a
    lower-case letter. *)
Lemma upper_upper_case (s : string) :
  isascii s = true -> upper_case (Nansen.upper s) = true.
Proof.
  induction s as [| c s IH]; [reflexivity |].
  cbn [isascii Nansen.upper upper_case]. intros H.
  apply andb_prop in H. destruct H as [Hc Hs].
  now rewrite (upper_ascii_upper_case c Hc), (IH Hs).
Qed.

(** On an ASCII string, being without a lower-case letter is being one's
    own upper case. *)
Lemma upper_case_fixed (s : string) :
  upper_case s = true -> Nansen.upper s = s.
Proof.
  induction s as [| c s IH]; [reflexivity |].
  cbn [Nansen.upper upper_case]. intros H.
  apply andb_prop in H. destruct H as [H Hs].
  apply andb_prop in H. destruct H as [_ Hc].
  rewrite (IH Hs). f_equal. unfold Nansen.upper_ascii.
  unfold lowercase_letter in Hc. apply negb_true_iff in Hc. now rewrite Hc.
Qed.

Lemma ascii_netflows_In (all_netflows : list (string * list Nansen.NetflowRecord))
  (chain0 : string) (flows : list Nansen.NetflowRecord) (r : Nansen.NetflowRecord) :
  ascii_netflows all_netflows = true ->
  In (chain0, flows) all_netflows -> In r flows ->
  isascii (Nansen.token_symbol r) = true.
Proof.
  unfold ascii_netflows. rewrite forallb_forall. intros H Hin Hr.
  specialize (H _ Hin). cbn [snd] in H. rewrite forallb_forall in H.
  exact (H _ Hr).
Qed.

Section NetflowShape.
Import Nansen.

Lemma netflow_signal_fields (now chain0 : string) (r : NetflowRecord) (s : FlowSignal) :
  netflow_signal now chain0 r = Some s ->
  token_symbol r <> "" /\ symbol s = upper (token_symbol r) /\
  chain s = chain0 /\
  (direction s = "LONG" \/ direction s = "SHORT") /\
  source s = "nansen_smart_money_netflow" /\
  timestamp s = now.
Proof.
  unfold netflow_signal.
  destruct (String.eqb (token_symbol r) "") eqn:Hsym; [discriminate |].
  apply String.eqb_neq in Hsym.
  destruct (negb _); [discriminate |].
  destruct (_ || _); [| discriminate].
  intros [= <-]. simpl. repeat split; try reflexivity; [exact Hsym |].
  destruct (gtb (primary_flow r) 0); auto.
Qed.

Lemma confidence_in_tenths (r : NetflowRecord) :
  exists k : Z, 3 <= k <= 10 /\ code_confidence_cents r = 10 * k.
Proof.
  unfold code_confidence_cents.
  destruct (gtb (abs (primary_flow r)) 50000),
           (gtb (abs (primary_flow r)) 200000),
           (int_or_0 (trader_count r) >=? 3),
           (agrees_with_day (float_or_0 (net_flow_1h_usd r))
                            (float_or_0 (net_flow_24h_usd r))),
           (agrees_with_day (float_or_0 (net_flow_7d_usd r))
                            (float_or_0 (net_flow_24h_usd r)));
    match goal with
    | |- exists k, _ /\ ?c = _ =>
        let v := eval vm_compute in (c / 10) in exists v
    end; (split; [lia | reflexivity]).
Qed.

(** X14.  When the symbols of the fetched netflow records are ASCII
    strings, every netflow signal comes from a record of its chain with a
    non-empty symbol and carries the upper case of that symbol, an ASCII
    string without a lower-case letter; its direction is LONG or SHORT; its
    source is the netflow analyser; and its confidence is one of the eight
    decimals 0.30, 0.40, ..., 1.00. *)
Theorem netflow_signal_shape (now : string)
  (all_netflows : list (string * list NetflowRecord)) (s : FlowSignal) :
  ascii_netflows all_netflows = true ->
  In s (analyze_netflows now all_netflows) ->
  (exists flows r,
     In (chain s, flows) all_netflows /\ In r flows /\
     token_symbol r <> "" /\ symbol s = upper (token_symbol r)) /\
  symbol s <> "" /\
  upper_case (symbol s) = true /\
  (direction s = "LONG" \/ direction s = "SHORT") /\
  source s = "nansen_smart_money_netflow" /\
  exists k : Z, 3 <= k <= 10 /\ confidence s = cents (10 * k).
Proof.
  intros Hascii Hin. apply analyze_netflows_In in Hin.
  destruct Hin as (chain0 & flows & r & Hin & Hr & Hs).
  destruct (netflow_confidence_formula _ _ _ _ Hs) as [Hc _].
  destruct (netflow_signal_fields _ _ _ _ Hs) as (H1 & H2 & H3 & H4 & H5 & _).
  pose proof (ascii_netflows_In _ _ _ _ Hascii Hin Hr) as Hr_ascii.
  subst chain0.
  split; [exists flows, r; auto |].
  split; [rewrite H2; now apply upper_nonempty |].
  split; [rewrite H2; now apply upper_upper_case |].
  do 2 (split; [assumption |]).
  destruct (confidence_in_tenths r) as (k & Hk & Ek). exists k. split; [exact Hk |].
  rewrite <- Ek. exact Hc.
Qed.

Lemma netflow_signal_shape_witness :
  ascii_netflows [("base", [dust_record])] = true /\
  In dust_signal (analyze_netflows "2026-01-01T00:00:00+00:00" [("base", [dust_record])]) /\
  symbol dust_signal <> "" /\
  upper_case (symbol dust_signal) = true /\
  exists k : Z, 3 <= k <= 10 /\ confidence dust_signal = cents (10 * k).
Proof.
  assert (H : In dust_signal
                (analyze_netflows "2026-01-01T00:00:00+00:00" [("base", [dust_record])]))
    by (vm_compute; left; reflexivity).
  split; [reflexivity |]. split; [exact H |].
  destruct (netflow_signal_shape "2026-01-01T00:00:00+00:00" [("base", [dust_record])]
              dust_signal eq_refl H) as (_ & Hs & Hu & _ & _ & Hk).
  repeat split; assumption.
Defined.

End NetflowShape.

(* ------------------------------------------------------------------ *)
(** ** Dictionaries *)
(* ------------------------------------------------------------------ *)

Section DictFacts.
Context {V : Type}.

Lemma dict_get_None (k : string) (d : list (string * V)) :
  dict_get k d = None <-> ~ In k (map fst d).
Proof.
  induction d as [| [k' v] d IH]; simpl.
  - tauto.
  - destruct (String.eqb k k') eqn:E.
    + apply String.eqb_eq in E. subst. split; [discriminate | tauto].
    + apply String.eqb_neq in E. rewrite IH. split; [intros H [H1 | H1] | ]; auto.
Qed.

Lemma dict_modify_keys (k : string) (f : V -> V) (d : list (string * V)) :
  map fst (dict_modify k f d) = map fst d.
Proof.
  induction d as [| [k' v] d IH]; simpl; [reflexivity |].
  destruct (String.eqb k k'); simpl; [reflexivity | now rewrite IH].
Qed.

Lemma dict_modify_Forall (P : string * V -> Prop) (k : string) (f : V -> V)
  (d : list (string * V)) :
  (forall v, P (k, v) -> P (k, f v)) ->
  Forall P d -> Forall P (dict_modify k f d).
Proof.
  intros Hf. induction 1 as [| [k' v] d Hp Hd IH]; simpl; [constructor |].
  destruct (String.eqb k k') eqn:E.
  - apply String.eqb_eq in E. subst. constructor; auto.
  - constructor; auto.
Qed.

Lemma dict_modify_In (k : string) (f : V -> V) (d : list (string * V))
  (k' : string) (v' : V) :
  NoDup (map fst d) ->
  In (k', v') (dict_modify k f d) ->
  (k' <> k /\ In (k', v') d) \/ (k' = k /\ exists v, In (k, v) d /\ v' = f v).
Proof.
  induction d as [| [k0 v0] d IH]; simpl; [tauto |].
  intros Hnd Hin. inversion Hnd as [| ? ? Hk0 Hnd']; subst.
  destruct (String.eqb k k0) eqn:E.
  - apply String.eqb_eq in E. subst k0. destruct Hin as [[= <- <-] | Hin].
    + right. split; [reflexivity |]. exists v0. auto.
    + left. split; [| auto]. intros ->. apply Hk0.
      apply in_map_iff. exists (k, v'). auto.
  - apply String.eqb_neq in E. destruct Hin as [[= <- <-] | Hin].
    + left. split; [congruence | auto].
    + destruct (IH Hnd' Hin) as [[Hne Hin'] | [-> (v & Hv & ->)]].
      * left. auto.
      * right. split; [reflexivity |]. exists v. auto.
Qed.

End DictFacts.

(* ------------------------------------------------------------------ *)
(** ** The first pass of the trade aggregator *)
(* ------------------------------------------------------------------ *)

Section AggregatorFacts.
Import Nansen.



Lemma sum_Z_app (l1 l2 : list Z) : sum_Z (l1 ++ l2) = sum_Z l1 + sum_Z l2.
Proof. unfold sum_Z. induction l1 as [| x l1 IH]; simpl; lia. Qed.

Lemma upsert_invariant (sym chain : string) (f : TokenAgg -> TokenAgg)
  (d : list (string * TokenAgg)) :
  (forall a, agg_symbol (f a) = agg_symbol a /\ agg_chain (f a) = agg_chain a /\
             trades (f a) = trades a + 1) ->
  counted_symbol sym = true ->
  isascii sym = true ->
  agg_invariant d ->
  agg_invariant (dict_upsert (agg_key sym chain) (mkTokenAgg (upper sym) chain 0 0 0) f d) /\
  total_trades (dict_upsert (agg_key sym chain) (mkTokenAgg (upper sym) chain 0 0 0) f d)
  = total_trades d + 1.
Proof.
  intros Hf Hsym Hascii [Hnd Hall]. unfold dict_upsert.
  unfold counted_symbol in Hsym. apply andb_prop in Hsym. destruct Hsym as [Hne Hst].
  apply negb_true_iff in Hne, Hst. apply String.eqb_neq in Hne.
  destruct (dict_get (agg_key sym chain) d) as [a |] eqn:Hget.
  - split; [split |].
    + now rewrite dict_modify_keys.
    + apply dict_modify_Forall; [| exact Hall].
      intros v (H1 & H2 & H3 & H4 & H5). destruct (Hf v) as (F1 & F2 & F3).
      unfold agg_entry_ok. cbn [fst snd] in *. rewrite F1, F2, F3.
      repeat split; auto. lia.
    + clear Hnd Hall. unfold total_trades. revert a Hget.
      induction d as [| [k0 v0] d IH]; simpl; [discriminate |].
      intros a. destruct (String.eqb (agg_key sym chain) k0).
      * intros _. simpl. unfold sum_Z in *. simpl.
        destruct (Hf v0) as (_ & _ & ->). lia.
      * intros Hget. simpl. unfold sum_Z in *. simpl.
        specialize (IH a Hget). lia.
  - apply dict_get_None in Hget. split; [split |].
    + rewrite map_app. simpl. apply NoDup_app; [exact Hnd | repeat constructor; auto |].
      intros k Hk [<- | []]. contradiction.
    + apply Forall_app. split; [exact Hall |]. constructor; [| constructor].
      destruct (Hf (mkTokenAgg (upper sym) chain 0 0 0)) as (F1 & F2 & F3).
      unfold agg_entry_ok. cbn [fst snd]. rewrite F1, F2, F3. simpl.
      repeat split; auto.
      * now apply upper_nonempty.
      * now apply upper_upper_case.
      * lia.
    + unfold total_trades. rewrite map_app, sum_Z_app. simpl.
      destruct (Hf (mkTokenAgg (upper sym) chain 0 0 0)) as (_ & _ & ->).
      unfold sum_Z. simpl. lia.
Qed.

Lemma add_buy_fields (usd : float) (a : TokenAgg) :
  agg_symbol (add_buy usd a) = agg_symbol a /\
  agg_chain (add_buy usd a) = agg_chain a /\
  trades (add_buy usd a) = trades a + 1.
Proof. repeat split. Qed.

Lemma add_sell_fields (usd : float) (a : TokenAgg) :
  agg_symbol (add_sell usd a) = agg_symbol a /\
  agg_chain (add_sell usd a) = agg_chain a /\
  trades (add_sell usd a) = trades a + 1.
Proof. repeat split. Qed.

Lemma aggregate_trade_invariant (chain : string) (d : list (string * TokenAgg))
  (trade : TradeRecord) :
  ascii_trade trade = true ->
  agg_invariant d ->
  agg_invariant (aggregate_trade chain d trade) /\
  total_trades (aggregate_trade chain d trade) = total_trades d + counted_legs trade.
Proof.
  intros Hascii Hd. apply andb_prop in Hascii. destruct Hascii as [Hab Has].
  unfold aggregate_trade, counted_legs.
  destruct (truthy (float_or_0 (trade_value_usd trade))); simpl; [| split; [auto | lia]].
  fold (counted_symbol (token_bought_symbol trade)).
  fold (counted_symbol (token_sold_symbol trade)).
  set (usd := float_or_0 (trade_value_usd trade)).
  assert (H1 : agg_invariant
                 (if counted_symbol (token_bought_symbol trade)
                  then dict_upsert (agg_key (token_bought_symbol trade) chain)
                         (mkTokenAgg (upper (token_bought_symbol trade)) chain 0 0 0)
                         (add_buy usd) d
                  else d) /\
               total_trades
                 (if counted_symbol (token_bought_symbol trade)
                  then dict_upsert (agg_key (token_bought_symbol trade) chain)
                         (mkTokenAgg (upper (token_bought_symbol trade)) chain 0 0 0)
                         (add_buy usd) d
                  else d)
               = total_trades d
                 + (if counted_symbol (token_bought_symbol trade) then 1 else 0)).
  { destruct (counted_symbol (token_bought_symbol trade)) eqn:Hb.
    - apply upsert_invariant; [apply add_buy_fields | exact Hb | exact Hab | exact Hd].
    - split; [auto | lia]. }
  destruct H1 as [Hinv1 Htot1].
  destruct (counted_symbol (token_sold_symbol trade)) eqn:Hs.
  - destruct (upsert_invariant (token_sold_symbol trade) chain (add_sell usd) _
                (add_sell_fields usd) Hs Has Hinv1) as [Hinv2 Htot2].
    split; [exact Hinv2 |]. rewrite Htot2, Htot1. lia.
  - split; [exact Hinv1 |]. rewrite Htot1. lia.
Qed.

Lemma aggregate_chain_invariant (chain : string) :
  forall (trades_of_chain : list TradeRecord) (d : list (string * TokenAgg)),
    forallb ascii_trade trades_of_chain = true ->
    agg_invariant d ->
    agg_invariant (fold_left (aggregate_trade chain) trades_of_chain d) /\
    total_trades (fold_left (aggregate_trade chain) trades_of_chain d)
    = total_trades d + sum_Z (map counted_legs trades_of_chain).
Proof.
  induction trades_of_chain as [| t rest IH]; intros d Hascii Hd;
    cbn [forallb] in Hascii; simpl.
  - split; [auto | unfold sum_Z; simpl; lia].
  - apply andb_prop in Hascii. destruct Hascii as [Ht Hrest].
    destruct (aggregate_trade_invariant chain d t Ht Hd) as [H1 H2].
    destruct (IH _ Hrest H1) as [H3 H4]. split; [exact H3 |].
    rewrite H4, H2. unfold sum_Z. simpl. lia.
Qed.

Lemma aggregate_trades_invariant (all_trades : list (string * list TradeRecord)) :
  ascii_trades all_trades = true ->
  agg_invariant (aggregate_trades all_trades) /\
  total_trades (aggregate_trades all_trades)
  = sum_Z (map counted_legs (flat_map snd all_trades)).
Proof.
  unfold aggregate_trades, ascii_trades. intros Hascii.
  assert (H : forall d, agg_invariant d ->
            agg_invariant
              (fold_left (fun acc ct => fold_left (aggregate_trade (fst ct)) (snd ct) acc)
                 all_trades d) /\
            total_trades
              (fold_left (fun acc ct => fold_left (aggregate_trade (fst ct)) (snd ct) acc)
                 all_trades d)
            = total_trades d + sum_Z (map counted_legs (flat_map snd all_trades))).
  { induction all_trades as [| [chain ts] rest IH]; intros d Hd;
      cbn [forallb snd] in Hascii; simpl.
    - split; [auto | unfold sum_Z; simpl; lia].
    - apply andb_prop in Hascii. destruct Hascii as [Hts Hrest].
      destruct (aggregate_chain_invariant chain ts d Hts Hd) as [H1 H2].
      destruct (IH Hrest _ H1) as [H3 H4]. split; [exact H3 |].
      rewrite H4, H2, map_app, sum_Z_app. lia. }
  destruct (H [] (conj (NoDup_nil _) (Forall_nil _))) as [H1 H2].
  split; [exact H1 |]. rewrite H2. reflexivity.
Qed.

(** X15.  When the symbols of the fetched trades are ASCII strings, the
    first pass of [analyze_dex_trades] keeps one entry per key: the keys
    are distinct, each is the symbol and the chain of its entry joined by
    an underscore, the symbol is a non-empty ASCII string without a
    lower-case letter and not one of the eight excluded tokens, and the
    entry has counted at least one trade. *)
Theorem aggregate_entries (all_trades : list (string * list TradeRecord)) :
  ascii_trades all_trades = true ->
  NoDup (map fst (aggregate_trades all_trades)) /\
  Forall agg_entry_ok (aggregate_trades all_trades).
Proof. intros Hascii. exact (proj1 (aggregate_trades_invariant all_trades Hascii)). Qed.

Lemma aggregate_entries_witness :
  ascii_trades two_thirds_trades = true /\
  NoDup (map fst (aggregate_trades two_thirds_trades)) /\
  Forall agg_entry_ok (aggregate_trades two_thirds_trades).
Proof.
  split; [reflexivity |]. apply (aggregate_entries two_thirds_trades). reflexivity.
Defined.

(** X16.  When the symbols of the fetched trades are ASCII strings, every
    counted side of a trade is counted once: the trade counts of all
    entries add up to the number of sides, over the trades with a non-zero
    value, whose token has a symbol and is not an excluded token.  A trade
    with no value, and a side on an excluded token, count nowhere. *)
Theorem trade_counts_add_up (all_trades : list (string * list TradeRecord)) :
  ascii_trades all_trades = true ->
  sum_Z (map (fun kv => trades (snd kv)) (aggregate_trades all_trades))
  = sum_Z (map counted_legs (flat_map snd all_trades)).
Proof. intros Hascii. exact (proj2 (aggregate_trades_invariant all_trades Hascii)). Qed.

Lemma trade_counts_add_up_witness :
  ascii_trades two_thirds_trades = true /\
  sum_Z (map (fun kv => trades (snd kv)) (aggregate_trades two_thirds_trades)) = 4.
Proof.
  split; [reflexivity |].
  rewrite (trade_counts_add_up two_thirds_trades); reflexivity.
Defined.

Lemma dex_signal_fields (now : string) (a : TokenAgg) (s : FlowSignal) :
  dex_signal now a = Some s ->
  symbol s = agg_symbol a /\ chain s = agg_chain a /\
  (direction s = "LONG" \/ direction s = "SHORT") /\
  source s = "nansen_smart_money_dex" /\ timestamp s = now /\
  trade_count_of s = trades a.
Proof.
  unfold dex_signal.
  destruct (_ <? _)%float; [discriminate |].
  destruct (_ || _); [| discriminate].
  intros [= <-]. unfold trade_count_of. simpl.
  repeat split; try reflexivity.
  destruct (gtb (buys a - sells a) 0); auto.
Qed.

Lemma dex_signal_key (now : string) (k : string) (a : TokenAgg) (s : FlowSignal) :
  agg_entry_ok (k, a) -> dex_signal now a = Some s -> signal_key s = k.
Proof.
  intros (Hk & _) Hs. apply dex_signal_fields in Hs.
  destruct Hs as (H1 & H2 & _). cbn [fst snd] in Hk.
  unfold signal_key. now rewrite H1, H2, Hk.
Qed.

Lemma dex_signal_keys_incl (now : string) (d : list (string * TokenAgg)) :
  Forall agg_entry_ok d ->
  forall k, In k (map signal_key (filter_map (fun kv => dex_signal now (snd kv)) d)) ->
            In k (map fst d).
Proof.
  induction 1 as [| [k0 a] d Hp _ IH]; simpl; [tauto |].
  intros k. destruct (dex_signal now a) as [s |] eqn:Hs; simpl.
  - intros [<- | H]; [left; symmetry; eapply dex_signal_key; eauto | right; auto].
  - intros H. right. auto.
Qed.

Lemma dex_signal_keys_NoDup (now : string) (d : list (string * TokenAgg)) :
  Forall agg_entry_ok d ->
  NoDup (map fst d) ->
  NoDup (map signal_key (filter_map (fun kv => dex_signal now (snd kv)) d)).
Proof.
  induction 1 as [| [k a] d Hp Hall IH]; simpl; [constructor |].
  intros Hnd. inversion Hnd as [| ? ? Hk Hnd']; subst.
  destruct (dex_signal now a) as [s |] eqn:Hs; simpl; [| now apply IH].
  constructor; [| now apply IH].
  rewrite (dex_signal_key _ _ _ _ Hp Hs).
  intros Hin. apply Hk. eapply dex_signal_keys_incl; eauto.
Qed.

(** X17.  When the symbols of the fetched trades are ASCII strings, every
    DEX signal is on a token whose symbol is a non-empty ASCII string
    without a lower-case letter and not one of the eight excluded tokens;
    its direction is LONG or SHORT; its source is the DEX analyser; it
    reports at least one trade; and there is at most one signal for a
    symbol and a chain. *)
Theorem dex_signal_shape (now : string)
  (all_trades : list (string * list TradeRecord)) :
  ascii_trades all_trades = true ->
  (forall s, In s (analyze_dex_trades now all_trades) ->
     symbol s <> "" /\
     upper_case (symbol s) = true /\
     in_stables (symbol s) = false /\
     (direction s = "LONG" \/ direction s = "SHORT") /\
     source s = "nansen_smart_money_dex" /\
     1 <= trade_count_of s) /\
  NoDup (map signal_key (analyze_dex_trades now all_trades)).
Proof.
  intros Hascii.
  destruct (aggregate_trades_invariant all_trades Hascii) as [[Hnd Hall] _]. split.
  - intros s Hin. apply analyze_dex_trades_In in Hin.
    destruct Hin as (key & agg & Hin & Hs).
    rewrite Forall_forall in Hall. destruct (Hall _ Hin) as (_ & H2 & H3 & H4 & H5).
    cbn [snd] in *.
    destruct (dex_signal_fields _ _ _ Hs) as (E1 & _ & Hd & Hsrc & _ & Htc).
    rewrite E1, Htc. auto 10.
  - unfold analyze_dex_trades.
    eapply Permutation_NoDup.
    + apply Permutation_map. apply sort_desc_perm.
    + now apply dex_signal_keys_NoDup.
Qed.

Lemma dex_signal_shape_witness :
  ascii_trades two_thirds_trades = true /\
  In signal_A (analyze_dex_trades "2026-01-01T00:00:00+00:00" two_thirds_trades) /\
  upper_case (symbol signal_A) = true /\
  in_stables (symbol signal_A) = false /\
  1 <= trade_count_of signal_A.
Proof.
  split; [reflexivity |].
  assert (E : In signal_A
                (analyze_dex_trades "2026-01-01T00:00:00+00:00" two_thirds_trades))
    by (vm_compute; left; reflexivity).
  split; [exact E |].
  destruct (dex_signal_shape "2026-01-01T00:00:00+00:00" two_thirds_trades eq_refl)
    as [H _].
  destruct (H signal_A E) as (_ & Hu & Hst & _ & _ & Htc).
  repeat split; assumption.
Defined.

End AggregatorFacts.

(* ------------------------------------------------------------------ *)
(** ** The merged dictionary *)
(* ------------------------------------------------------------------ *)

Section MergeFacts.
Import Nansen.



Lemma signals_of_snoc (k : string) (l : list FlowSignal) (s : FlowSignal) :
  signals_of k (l ++ [s]) =
  signals_of k l ++ (if String.eqb (symbol s) k then [s] else []).
Proof. unfold signals_of. rewrite filter_app. reflexivity. Qed.

Lemma signals_of_nil (k : string) (l : list FlowSignal) :
  ~ In k (map symbol l) -> signals_of k l = [].
Proof.
  unfold signals_of. induction l as [| s l IH]; simpl; [reflexivity |].
  intros H. destruct (String.eqb (symbol s) k) eqn:E.
  - apply String.eqb_eq in E. tauto.
  - apply IH. tauto.
Qed.

Lemma merge_group_snoc (g : list FlowSignal) (s : FlowSignal) (m : MergedSignal) :
  merge_group g = Some m -> merge_group (g ++ [s]) = Some (merge_into s m).
Proof.
  destruct g as [| s0 rest]; simpl; [discriminate |].
  intros [= <-]. now rewrite fold_left_app.
Qed.

Lemma merge_step_invariant (l : list FlowSignal) (d : list (string * MergedSignal))
  (s : FlowSignal) :
  merged_invariant l d -> merged_invariant (l ++ [s]) (merge_step d s).
Proof.
  intros (Hnd & Hkeys & Hent). unfold merge_step.
  destruct (dict_get (symbol s) d) as [m0 |] eqn:Hget.
  - assert (Hin : In (symbol s) (map fst d)).
    { destruct (in_dec string_dec (symbol s) (map fst d)) as [H | H]; [exact H |].
      apply dict_get_None in H. congruence. }
    split; [| split].
    + now rewrite dict_modify_keys.
    + intros k. rewrite dict_modify_keys, map_app, in_app_iff, Hkeys. simpl.
      split; [tauto |]. intros [H | [<- | []]]; [exact H | now apply Hkeys].
    + intros k m Hm. apply dict_modify_In in Hm; [| exact Hnd].
      rewrite signals_of_snoc.
      destruct Hm as [[Hne Hm] | [-> (m' & Hm' & ->)]].
      * destruct (Hent _ _ Hm) as [H1 H2]. split; [exact H1 |].
        assert (E : String.eqb (symbol s) k = false)
          by (apply String.eqb_neq; congruence).
        now rewrite E, app_nil_r.
      * destruct (Hent _ _ Hm') as [H1 H2]. split; [exact H1 |].
        rewrite String.eqb_refl. now apply merge_group_snoc.
  - apply dict_get_None in Hget. split; [| split].
    + rewrite map_app. simpl. apply NoDup_app; [exact Hnd | repeat constructor; auto |].
      intros k Hk [<- | []]. contradiction.
    + intros k. rewrite !map_app, !in_app_iff, Hkeys. reflexivity.
    + intros k m Hm. apply in_app_iff in Hm. rewrite signals_of_snoc.
      destruct Hm as [Hm | [[= <- <-] | []]].
      * destruct (Hent _ _ Hm) as [H1 H2]. split; [exact H1 |].
        assert (E : String.eqb (symbol s) k = false).
        { apply String.eqb_neq. intros <-. apply Hget.
          apply in_map_iff. exists (symbol s, m). auto. }
        now rewrite E, app_nil_r.
      * split; [reflexivity |]. rewrite String.eqb_refl.
        rewrite signals_of_nil; [reflexivity |]. now rewrite <- Hkeys.
Qed.

Lemma merged_dictionary (l : list FlowSignal) :
  merged_invariant l (fold_left merge_step l []).
Proof.
  induction l as [| s l IH] using rev_ind.
  - split; [constructor |]. split; [simpl; tauto | intros k m []].
  - rewrite fold_left_app. simpl. now apply merge_step_invariant.
Qed.

Lemma merged_symbols (l : list FlowSignal) :
  map m_symbol (map snd (fold_left merge_step l [])) = map fst (fold_left merge_step l []).
Proof.
  destruct (merged_dictionary l) as (_ & _ & Hent).
  induction (fold_left merge_step l []) as [| [k m] d IH]; simpl; [reflexivity |].
  f_equal.
  - apply (Hent k m). now left.
  - apply IH. intros k' m' H. apply Hent. now right.
Qed.

(** X18.  [merge_signals] gives one record per symbol: the symbols of its
    output are distinct and are exactly the symbols of the two inputs, so
    the output is never longer than the two inputs together. *)
Theorem merge_one_record_per_symbol (netflow_signals dex_signals : list FlowSignal) :
  NoDup (map m_symbol (merge_signals netflow_signals dex_signals)) /\
  (forall k, In k (map m_symbol (merge_signals netflow_signals dex_signals)) <->
             In k (map symbol (netflow_signals ++ dex_signals))) /\
  (List.length (merge_signals netflow_signals dex_signals)
   <= List.length netflow_signals + List.length dex_signals)%nat.
Proof.
  unfold merge_signals.
  set (l := netflow_signals ++ dex_signals).
  destruct (merged_dictionary l) as (Hnd & Hkeys & _).
  pose proof (merged_symbols l) as Hsym.
  assert (Hperm : Permutation (map fst (fold_left merge_step l []))
                    (map m_symbol (sort_desc m_confidence
                                     (map snd (fold_left merge_step l []))))).
  { rewrite <- Hsym. apply Permutation_map. apply sort_desc_perm. }
  split; [| split].
  - eapply Permutation_NoDup; eauto.
  - intros k. rewrite <- Hkeys. split; apply Permutation_in;
      [apply Permutation_sym |]; exact Hperm.
  - rewrite <- length_app. fold l.
    rewrite <- (length_map m_symbol), <- (Permutation_length Hperm).
    rewrite <- (length_map symbol l).
    apply NoDup_incl_length; [exact Hnd |]. intros k. apply Hkeys.
Qed.

Lemma fold_merge_fields (rest : list FlowSignal) :
  forall m0 : MergedSignal,
    let m := fold_left (fun m s' => merge_into s' m) rest m0 in
    m_symbol m = m_symbol m0 /\ m_chain m = m_chain m0 /\
    m_direction m = m_direction m0 /\ m_timestamp m = m_timestamp m0 /\
    m_sources m = m_sources m0 ++ map source rest /\
    m_confidence m = fold_left (confidence_step (m_direction m0)) rest (m_confidence m0) /\
    m_net_flow_usd m
    = fold_left (fun acc s => (acc + net_flow_usd s)%float) rest (m_net_flow_usd m0).
Proof.
  induction rest as [| s rest IH]; intros m0; simpl.
  - rewrite app_nil_r. repeat split.
  - destruct (IH (merge_into s m0)) as (H1 & H2 & H3 & H4 & H5 & H6 & H7).
    simpl in *. rewrite H1, H2, H3, H4, H5, H6, H7, <- app_assoc.
    repeat split.
Qed.

(** X19.  Each merged record is built from the signals of its symbol, in
    the order netflow signals first: there is at least one; the chain, the
    direction and the timestamp are those of the first; the sources are the
    sources of all of them, in order; the confidence starts at the first
    one's and takes one step per later signal, up by 0.2 (capped at 1.0)
    when that signal has the first one's direction and down by 0.3 (floored
    at 0.1) when not; the flow is the sum in order.  A symbol with one
    signal keeps that signal's confidence and flow. *)
Theorem merged_record_of_group
  (netflow_signals dex_signals : list FlowSignal) (m : MergedSignal) :
  In m (merge_signals netflow_signals dex_signals) ->
  exists first rest,
    signals_of (m_symbol m) (netflow_signals ++ dex_signals) = first :: rest /\
    m_chain m = chain first /\
    m_direction m = direction first /\
    m_timestamp m = timestamp first /\
    m_sources m = map source (first :: rest) /\
    m_confidence m = fold_left (confidence_step (direction first)) rest (confidence first) /\
    m_net_flow_usd m
    = fold_left (fun acc s => (acc + net_flow_usd s)%float) rest (net_flow_usd first).
Proof.
  unfold merge_signals. intros Hin. apply sort_desc_In in Hin.
  apply in_map_iff in Hin. destruct Hin as ([k m'] & Hm & Hin). simpl in Hm. subst m'.
  destruct (merged_dictionary (netflow_signals ++ dex_signals)) as (_ & _ & Hent).
  destruct (Hent _ _ Hin) as [Hk Hg]. rewrite Hk.
  destruct (signals_of k (netflow_signals ++ dex_signals)) as [| first rest];
    [discriminate |].
  simpl in Hg. injection Hg as <-.
  exists first, rest. split; [reflexivity |].
  destruct (fold_merge_fields rest (merged_of first)) as (_ & H2 & H3 & H4 & H5 & H6 & H7).
  simpl in *. auto 10.
Qed.

Lemma merged_record_of_group_witness :
  In sol_conflict (merge_signals [sol_netflow "LONG" 0.5] [sol_dex "SHORT" 0.4]) /\
  exists first rest,
    signals_of (m_symbol sol_conflict)
      ([sol_netflow "LONG" 0.5] ++ [sol_dex "SHORT" 0.4]) = first :: rest /\
    m_chain sol_conflict = chain first /\
    m_direction sol_conflict = direction first /\
    m_timestamp sol_conflict = timestamp first /\
    m_sources sol_conflict = map source (first :: rest) /\
    m_confidence sol_conflict
    = fold_left (confidence_step (direction first)) rest (confidence first) /\
    m_net_flow_usd sol_conflict
    = fold_left (fun acc s => (acc + net_flow_usd s)%float) rest (net_flow_usd first).
Proof.
  assert (H : In sol_conflict
                (merge_signals [sol_netflow "LONG" 0.5] [sol_dex "SHORT" 0.4]))
    by (vm_compute; left; reflexivity).
  split; [exact H |].
  exact (merged_record_of_group _ _ sol_conflict H).
Defined.

Example three_signals_one_symbol :
  map (fun m => (m_direction m, m_confidence m, m_sources m))
    (merge_signals [sol_netflow "LONG" 0.5; sol_netflow "SHORT" 0.9]
                   [sol_dex "LONG" 0.4])
  = [("LONG", 0.4%float,
      ["nansen_smart_money_netflow"; "nansen_smart_money_netflow";
       "nansen_smart_money_dex"])].
Proof. vm_compute. reflexivity. Qed.

End MergeFacts.

(* ------------------------------------------------------------------ *)
(** ** The paginated fetches *)
(* ------------------------------------------------------------------ *)

Section FetchFacts.
Import Nansen.

Lemma fetch_pages_length {A : Type} (post : Z -> option (Page A)) (n : nat) :
  (forall k data, post k = Some data -> (List.length (page_data data) <= n)%nat) ->
  forall (pages : list Z) (all_data : list A),
    (List.length (fetch_pages post pages all_data)
     <= List.length all_data + List.length pages * n)%nat.
Proof.
  intros Hn. induction pages as [| page rest IH]; intros all_data; simpl; [lia |].
  destruct (post page) as [data |] eqn:Hp; [| lia].
  specialize (Hn _ _ Hp).
  destruct (last_page data).
  - rewrite length_app. lia.
  - specialize (IH (all_data ++ page_data data)). rewrite length_app in IH. lia.
Qed.

(** X20.  A fetch requests at most three pages: when no answered page
    holds more than [n] items, neither fetch returns more than [3 * n]
    (30 at the page size of 10 that the requests ask for). *)
Theorem fetch_at_most_three_pages (api : Api) (chain : string) (n : nat) :
  page_limit api chain n ->
  (List.length (get_smart_money_netflow api chain) <= 3 * n)%nat /\
  (List.length (get_smart_money_dex_trades api chain) <= 3 * n)%nat.
Proof.
  intros [Hn Hd]. unfold get_smart_money_netflow, get_smart_money_dex_trades. split.
  - pose proof (fetch_pages_length _ n Hn [1; 2; 3] []) as H. cbn [List.length] in H. lia.
  - pose proof (fetch_pages_length _ n Hd [1; 2; 3] []) as H. cbn [List.length] in H. lia.
Qed.

Lemma fetch_at_most_three_pages_witness :
  page_limit endless_api "base" 1 /\
  (List.length (get_smart_money_netflow endless_api "base") <= 3 * 1)%nat /\
  (List.length (get_smart_money_dex_trades endless_api "base") <= 3 * 1)%nat.
Proof.
  assert (H : page_limit endless_api "base" 1).
  { split; intros k data; simpl; intros [= <-]; simpl; lia. }
  split; [exact H |].
  exact (fetch_at_most_three_pages endless_api "base" 1 H).
Defined.

Lemma fetch_three_cases {A : Type} (post : Z -> option (Page A)) (n : nat) :
  (n <= 2)%nat ->
  (forall k, (k < n)%nat -> continues post (Z.of_nat (S k))) ->
  n = 2%nat \/ stops post (Z.of_nat (S n)) ->
  fetch_pages post [1; 2; 3] [] = flat_map (items_of post) (firstn (S n) [1; 2; 3]).
Proof.
  intros Hn Hcont Hstop. unfold items_of.
  destruct n as [| [| [| n]]]; try lia.
  - destruct Hstop as [Hstop | Hstop]; [discriminate |].
    cbn [firstn flat_map fetch_pages].
    change (Z.of_nat 1) with 1 in Hstop.
    destruct Hstop as [-> | (d & -> & ->)]; now rewrite ?app_nil_r.
  - destruct (Hcont 0%nat ltac:(lia)) as (d1 & H1 & L1).
    change (Z.of_nat 1) with 1 in H1.
    destruct Hstop as [Hstop | Hstop]; [discriminate |].
    change (Z.of_nat 2) with 2 in Hstop.
    cbn [firstn flat_map fetch_pages]. rewrite H1, L1.
    destruct Hstop as [-> | (d & -> & ->)]; now rewrite ?app_nil_r.
  - destruct (Hcont 0%nat ltac:(lia)) as (d1 & H1 & L1).
    destruct (Hcont 1%nat ltac:(lia)) as (d2 & H2 & L2).
    change (Z.of_nat 1) with 1 in H1. change (Z.of_nat 2) with 2 in H2.
    cbn [firstn flat_map fetch_pages]. rewrite H1, L1, H2, L2.
    destruct (post 3) as [d3 |]; [destruct (last_page d3) |];
      now rewrite ?app_nil_r, ?app_assoc.
Qed.

(** X21.  A fetch returns the items of the pages up to and including the
    first one whose request raises or whose answer is taken as the last
    page, and of pages 1 to 3 when there is none: a request that raises
    loses nothing of the pages before it, and no page after the stop is
    read.  Here [n] pages of netflows and [n'] pages of trades are answered
    with more to follow (at most 2), and the next page is where the fetch
    stops. *)
Theorem fetch_stops_at_first_stop (api : Api) (chain : string) (n n' : nat) :
  (n <= 2)%nat ->
  (forall k, (k < n)%nat -> continues (netflow_endpoint api chain) (Z.of_nat (S k))) ->
  n = 2%nat \/ stops (netflow_endpoint api chain) (Z.of_nat (S n)) ->
  (n' <= 2)%nat ->
  (forall k, (k < n')%nat -> continues (dex_trades_endpoint api chain) (Z.of_nat (S k))) ->
  n' = 2%nat \/ stops (dex_trades_endpoint api chain) (Z.of_nat (S n')) ->
  get_smart_money_netflow api chain
  = flat_map (items_of (netflow_endpoint api chain)) (firstn (S n) [1; 2; 3]) /\
  get_smart_money_dex_trades api chain
  = flat_map (items_of (dex_trades_endpoint api chain)) (firstn (S n') [1; 2; 3]).
Proof. intros. split; now apply fetch_three_cases. Qed.

Lemma fetch_stops_at_first_stop_witness :
  get_smart_money_netflow endless_api "base"
  = flat_map (items_of (netflow_endpoint endless_api "base")) (firstn 3 [1; 2; 3]) /\
  get_smart_money_dex_trades endless_api "base"
  = flat_map (items_of (dex_trades_endpoint endless_api "base")) (firstn 1 [1; 2; 3]).
Proof.
  apply (fetch_stops_at_first_stop endless_api "base" 2 0).
  - lia.
  - intros k _. exists (mkPage [dust_record] (Some (JBool false))). split; reflexivity.
  - left. reflexivity.
  - lia.
  - intros k Hk. lia.
  - right. right. exists (mkPage [] None). split; reflexivity.
Defined.

Example fetch_examples :
  get_smart_money_netflow endless_api "base" = [dust_record; dust_record; dust_record] /\
  get_smart_money_dex_trades endless_api "base" = [] /\
  get_smart_money_netflow failing_api "base" = [] /\
  map (fun v => last_page (mkPage (@nil Z) v))
    [None; Some (JBool true); Some (JString "TRUE"); Some (JBool false);
     Some (JString "no"); Some JNull; Some (JInt 1)]
  = [true; true; true; false; false; false; false].
Proof. repeat split. Qed.

End FetchFacts.

(* ------------------------------------------------------------------ *)
(** ** The scanner, end to end *)
(* ------------------------------------------------------------------ *)

Section ScannerFacts.
Import Nansen.

Lemma dict_upsert_Forall {V : Type} (P : string * V -> Prop) (k : string)
  (fresh : V) (f : V -> V) (d : list (string * V)) :
  (forall v, P (k, v) -> P (k, f v)) -> P (k, f fresh) ->
  Forall P d -> Forall P (dict_upsert k fresh f d).
Proof.
  intros Hf Hfresh Hd. unfold dict_upsert.
  destruct (dict_get k d).
  - now apply dict_modify_Forall.
  - apply Forall_app. split; [exact Hd | repeat constructor; exact Hfresh].
Qed.

Lemma aggregate_trade_chain (chains : list string) (chain0 : string)
  (d : list (string * TokenAgg)) (trade : TradeRecord) :
  In chain0 chains ->
  Forall (fun kv => In (agg_chain (snd kv)) chains) d ->
  Forall (fun kv => In (agg_chain (snd kv)) chains) (aggregate_trade chain0 d trade).
Proof.
  intros Hc Hd. unfold aggregate_trade.
  destruct (negb (truthy _)); [exact Hd |].
  set (d1 := if negb (String.eqb (token_bought_symbol trade) "")
                && negb (in_stables (upper (token_bought_symbol trade)))
             then dict_upsert (agg_key (token_bought_symbol trade) chain0)
                    (mkTokenAgg (upper (token_bought_symbol trade)) chain0 0 0 0)
                    (add_buy (float_or_0 (trade_value_usd trade))) d
             else d).
  assert (H1 : Forall (fun kv => In (agg_chain (snd kv)) chains) d1).
  { unfold d1. destruct (_ && _); [| exact Hd]. apply dict_upsert_Forall; auto. }
  clearbody d1.
  destruct (_ && _); [| exact H1]. apply dict_upsert_Forall; auto.
Qed.

Lemma aggregate_trades_chain (all_trades : list (string * list TradeRecord)) :
  Forall (fun kv => In (agg_chain (snd kv)) (map fst all_trades))
    (aggregate_trades all_trades).
Proof.
  unfold aggregate_trades.
  assert (H : forall chains d,
            incl (map fst all_trades) chains ->
            Forall (fun kv => In (agg_chain (snd kv)) chains) d ->
            Forall (fun kv => In (agg_chain (snd kv)) chains)
              (fold_left (fun acc ct => fold_left (aggregate_trade (fst ct)) (snd ct) acc)
                 all_trades d)).
  { induction all_trades as [| [chain0 ts] rest IH]; intros chains d Hincl Hd; simpl.
    - exact Hd.
    - apply IH; [intros c Hc; apply Hincl; now right |].
      assert (Hc : In chain0 chains) by (apply Hincl; now left).
      clear IH Hincl. revert d Hd.
      induction ts as [| t ts IHt]; intros d Hd; simpl; [exact Hd |].
      apply IHt. now apply aggregate_trade_chain. }
  apply H; [apply incl_refl | constructor].
Qed.

Lemma analyze_netflows_ok (now : string)
  (all_netflows : list (string * list NetflowRecord)) (s : FlowSignal) :
  ascii_netflows all_netflows = true ->
  In s (analyze_netflows now all_netflows) -> signal_ok (map fst all_netflows) s.
Proof.
  intros Hascii Hin. apply analyze_netflows_In in Hin.
  destruct Hin as (chain0 & flows & r & Hin & Hr & Hs).
  destruct (netflow_signal_fields _ _ _ _ Hs) as (H1 & H2 & H3 & H4 & H5 & H6).
  pose proof (ascii_netflows_In _ _ _ _ Hascii Hin Hr) as Hr_ascii.
  unfold signal_ok. rewrite H2, H3, H5.
  split; [apply in_map_iff; exists (chain0, flows); auto |].
  split; [now apply upper_nonempty |].
  split; [now apply upper_upper_case |]. auto.
Qed.

Lemma analyze_dex_trades_ok (now : string)
  (all_trades : list (string * list TradeRecord)) (s : FlowSignal) :
  ascii_trades all_trades = true ->
  In s (analyze_dex_trades now all_trades) -> signal_ok (map fst all_trades) s.
Proof.
  intros Hascii Hin. apply analyze_dex_trades_In in Hin.
  destruct Hin as (key & agg & Hin & Hs).
  destruct (aggregate_trades_invariant all_trades Hascii) as [[_ Hall] _].
  pose proof (aggregate_trades_chain all_trades) as Hch.
  rewrite Forall_forall in Hall, Hch.
  destruct (Hall _ Hin) as (_ & H2 & H3 & _). specialize (Hch _ Hin).
  cbn [snd] in *.
  destruct (dex_signal_fields _ _ _ Hs) as (E1 & E2 & Hd & Hsrc & _).
  unfold signal_ok. rewrite E1, E2, Hsrc. auto 10.
Qed.

Lemma merge_signals_In (l1 l2 : list FlowSignal) (m : MergedSignal) :
  In m (merge_signals l1 l2) ->
  exists first rest,
    signals_of (m_symbol m) (l1 ++ l2) = first :: rest /\
    m = fold_left (fun m s' => merge_into s' m) rest (merged_of first).
Proof.
  unfold merge_signals. intros Hin. apply sort_desc_In in Hin.
  apply in_map_iff in Hin. destruct Hin as ([k m'] & Hm & Hin). simpl in Hm. subst m'.
  destruct (merged_dictionary (l1 ++ l2)) as (_ & _ & Hent).
  destruct (Hent _ _ Hin) as [Hk Hg]. rewrite Hk.
  destruct (signals_of k (l1 ++ l2)) as [| first rest]; [discriminate |].
  simpl in Hg. injection Hg as <-. eauto.
Qed.

Lemma merge_signals_ok (chains : list string) (l1 l2 : list FlowSignal) :
  (forall s, In s (l1 ++ l2) -> signal_ok chains s) ->
  forall m, In m (merge_signals l1 l2) -> merged_ok chains m.
Proof.
  intros Hok m Hm. apply merge_signals_In in Hm.
  destruct Hm as (first & rest & Hg & ->).
  assert (Hall : forall s, In s (first :: rest) -> signal_ok chains s).
  { intros s Hs. apply Hok. rewrite <- Hg in Hs. unfold signals_of in Hs.
    now apply filter_In in Hs. }
  destruct (fold_merge_fields rest (merged_of first)) as (H1 & H2 & H3 & _ & H5 & _).
  cbv zeta in *. simpl in H1, H2, H3, H5.
  destruct (Hall first (or_introl eq_refl)) as (Hc & Hs & Hu & Hd & Hsrc).
  unfold merged_ok. rewrite H1, H2, H3, H5.
  repeat split; auto; try discriminate.
  constructor; [exact Hsrc |]. apply Forall_map. apply Forall_forall.
  intros s Hs'. apply (Hall s). now right.
Qed.

Lemma descending_firstn {A : Type} (key : A -> float) (l : list A) :
  descending key l -> forall n : nat, descending key (firstn n l).
Proof.
  induction 1 as [| x | x y l Hxy Hl IH]; intros n.
  - destruct n; constructor.
  - destruct n as [| n]; simpl; [constructor |]. destruct n; constructor.
  - destruct n as [| [| n]]; simpl; try constructor; [exact Hxy |].
    exact (IH (S n)).
Qed.

Lemma merge_signals_length (l1 l2 : list FlowSignal) :
  (List.length (merge_signals l1 l2) <= List.length l1 + List.length l2)%nat /\
  NoDup (map m_symbol (merge_signals l1 l2)).
Proof.
  unfold merge_signals. set (l := l1 ++ l2).
  destruct (merged_dictionary l) as (Hnd & Hkeys & _).
  pose proof (merged_symbols l) as Hsym.
  assert (Hperm : Permutation (map fst (fold_left merge_step l []))
                    (map m_symbol (sort_desc m_confidence
                                     (map snd (fold_left merge_step l []))))).
  { rewrite <- Hsym. apply Permutation_map. apply sort_desc_perm. }
  split.
  - rewrite <- length_app. fold l.
    rewrite <- (length_map m_symbol), <- (Permutation_length Hperm).
    rewrite <- (length_map symbol l).
    apply NoDup_incl_length; [exact Hnd |]. intros k. apply Hkeys.
  - eapply Permutation_NoDup; eauto.
Qed.

Lemma fetch_pages_forallb {A : Type} (P : A -> bool) (post : Z -> option (Page A)) :
  (forall k data, post k = Some data -> forallb P (page_data data) = true) ->
  forall (pages : list Z) (all_data : list A),
    forallb P all_data = true -> forallb P (fetch_pages post pages all_data) = true.
Proof.
  intros Hpost. induction pages as [| page rest IH]; intros all_data Hall;
    cbn [fetch_pages]; [exact Hall |].
  destruct (post page) as [data |] eqn:Hp; [| exact Hall].
  assert (H : forallb P (all_data ++ page_data data) = true).
  { rewrite forallb_app, Hall. exact (Hpost _ _ Hp). }
  destruct (last_page data); [exact H | now apply IH].
Qed.

Lemma ascii_api_fetched (api : Api) (chains : list string) :
  ascii_api api ->
  ascii_netflows (map (fun c => (c, get_smart_money_netflow api c)) chains) = true /\
  ascii_trades (map (fun c => (c, get_smart_money_dex_trades api c)) chains) = true.
Proof.
  intros Hapi. unfold ascii_netflows, ascii_trades. split.
  - apply forallb_forall. intros cf Hcf. apply in_map_iff in Hcf.
    destruct Hcf as (c & <- & _). cbn [snd]. unfold get_smart_money_netflow.
    apply fetch_pages_forallb; [| reflexivity].
    intros k data. apply (Hapi c k).
  - apply forallb_forall. intros ct Hct. apply in_map_iff in Hct.
    destruct Hct as (c & <- & _). cbn [snd]. unfold get_smart_money_dex_trades.
    apply fetch_pages_forallb; [| reflexivity].
    intros k data. apply (Hapi c k).
Qed.

(** X22.  What [main] writes when the API answers with ASCII symbols.  It
    keeps the first 20 merged signals, so at most 20, all of them when
    there are fewer; the merged total is at most the number of netflow
    signals plus the number of DEX signals; the signals kept are in
    descending order of confidence and on distinct symbols; and each is on
    one of the four scanned chains, with a symbol that is a non-empty ASCII
    string without a lower-case letter, a direction LONG or SHORT and at
    least one source, every source being one of the two analysers. *)
Theorem scan_output_shape (api : Api) (now written : string) :
  ascii_api api ->
  Z.of_nat (List.length (out_signals (main api now written)))
  = Z.min 20 (out_merged_total (main api now written)) /\
  out_merged_total (main api now written)
  <= out_netflow_signals (main api now written) + out_dex_signals (main api now written) /\
  descending m_confidence (out_signals (main api now written)) /\
  NoDup (map m_symbol (out_signals (main api now written))) /\
  forall m, In m (out_signals (main api now written)) -> merged_ok CHAINS_TO_SCAN m.
Proof.
  intros Hapi. destruct (ascii_api_fetched api CHAINS_TO_SCAN Hapi) as [Hnet Htr].
  unfold main. cbn [out_signals out_merged_total out_netflow_signals out_dex_signals].
  set (all_netflows := map (fun c => (c, get_smart_money_netflow api c)) CHAINS_TO_SCAN)
    in *.
  set (all_trades := map (fun c => (c, get_smart_money_dex_trades api c)) CHAINS_TO_SCAN)
    in *.
  set (nf := analyze_netflows now all_netflows).
  set (dx := analyze_dex_trades now all_trades).
  destruct (merge_signals_length nf dx) as [Hlen Hnd].
  split; [rewrite length_firstn; lia |].
  split; [lia |].
  split; [apply descending_firstn, sort_desc_descending |].
  split.
  - rewrite <- (firstn_skipn 20 (merge_signals nf dx)), map_app in Hnd.
    now apply NoDup_app_remove_r in Hnd.
  - intros m Hm.
    assert (Hin : In m (merge_signals nf dx)).
    { rewrite <- (firstn_skipn 20 (merge_signals nf dx)). apply in_or_app. now left. }
    clear Hm. revert m Hin. apply merge_signals_ok.
    intros s Hs. apply in_app_or in Hs. destruct Hs as [Hs | Hs].
    + apply (analyze_netflows_ok _ _ _ Hnet) in Hs. unfold all_netflows in Hs.
      now rewrite map_map, map_id in Hs.
    + apply (analyze_dex_trades_ok _ _ _ Htr) in Hs. unfold all_trades in Hs.
      now rewrite map_map, map_id in Hs.
Qed.

Lemma scan_output_shape_witness :
  ascii_api endless_api /\
  Z.of_nat (List.length
    (out_signals (main endless_api "2026-01-01T00:00:00+00:00" "2026-01-01T00:00:09+00:00")))
  = 1 /\
  forall m,
    In m (out_signals
            (main endless_api "2026-01-01T00:00:00+00:00" "2026-01-01T00:00:09+00:00")) ->
    merged_ok CHAINS_TO_SCAN m.
Proof.
  assert (H : ascii_api endless_api).
  { intros c k. split; intros data E; injection E as <-; reflexivity. }
  split; [exact H |].
  destruct (scan_output_shape endless_api "2026-01-01T00:00:00+00:00"
              "2026-01-01T00:00:09+00:00" H) as (Hlen & _ & _ & _ & Hok).
  split; [rewrite Hlen; vm_compute; reflexivity | exact Hok].
Defined.

(** X23.  When the first request of every scanned chain raises, on both
    endpoints, [main] still returns: its output has no signal and its three
    counts are zero. *)
Theorem scan_on_failing_api (api : Api) (now written : string) :
  (forall c, In c CHAINS_TO_SCAN ->
             netflow_endpoint api c 1 = None /\ dex_trades_endpoint api c 1 = None) ->
  main api now written
  = mkScanOutput written "nansen_smart_money" CHAINS_TO_SCAN [] 0 0 0.
Proof.
  intros H. unfold main.
  assert (Hn : map (fun c => (c, get_smart_money_netflow api c)) CHAINS_TO_SCAN
               = map (fun c => (c, [])) CHAINS_TO_SCAN).
  { apply map_ext_in. intros c Hc. unfold get_smart_money_netflow. simpl.
    now rewrite (proj1 (H c Hc)). }
  assert (Hd : map (fun c => (c, get_smart_money_dex_trades api c)) CHAINS_TO_SCAN
               = map (fun c => (c, [])) CHAINS_TO_SCAN).
  { apply map_ext_in. intros c Hc. unfold get_smart_money_dex_trades. simpl.
    now rewrite (proj2 (H c Hc)). }
  rewrite Hn, Hd. reflexivity.
Qed.

Lemma scan_on_failing_api_witness :
  (forall c, In c CHAINS_TO_SCAN ->
             netflow_endpoint failing_api c 1 = None /\
             dex_trades_endpoint failing_api c 1 = None) /\
  main failing_api "2026-01-01T00:00:00+00:00" "2026-01-01T00:00:09+00:00"
  = mkScanOutput "2026-01-01T00:00:09+00:00" "nansen_smart_money" CHAINS_TO_SCAN [] 0 0 0.
Proof.
  assert (H : forall c, In c CHAINS_TO_SCAN ->
                netflow_endpoint failing_api c 1 = None /\
                dex_trades_endpoint failing_api c 1 = None)
    by (intros c _; split; reflexivity).
  split; [exact H |].
  exact (scan_on_failing_api failing_api _ _ H).
Defined.

End ScannerFacts.
